(** * Malaria life-cycle classification notebook: data preparation and reporting

    A shallow embedding of the data-handling code of
    [notebooks/DenseNet.ipynb]: the annotation flattener, [split_dataset],
    the sampling weights, [MalariaDataset.__getitem__] and the evaluation
    report.  Python values keep their dynamic typing where the notebook
    relies on it (the parsed annotation file is a JSON value), exceptions are
    an error monad, the record list that [random.shuffle] permutes in place
    lives in a store, and the process-wide random generator is threaded
    through as explicit state.

    Floating point.  A finite Python float is modelled by the rational
    number it denotes.  Every float operation is the exact rational
    operation followed by a rounding [fl : Q -> Q]; the development is
    parametric in [fl] and assumes about it only what each statement lists
    (monotonicity, or that particular values are representable).  Exact
    arithmetic is the instance [exact]; the doubles of CPython are the
    instance [Binary64.round].  Floats are finite throughout: an
    operation whose result leaves the range of the doubles, where Python
    continues with an infinity, is outside the model, and the statements
    about [split_dataset] that depend on it bound the ratios so that no
    such result arises ([split_floats_finite]). *)

From Stdlib Require Import ZArith QArith Qround Qpower String Ascii List Lia Lqa
  Permutation Sorted.
From stdpp Require Import base gmap list strings.

Set Warnings "-register-all".

Open Scope string_scope.
Open Scope list_scope.
Open Scope Z_scope.

(** ** Python exceptions and the error monad *)

(** The exception classes that the modelled code, and the library calls it
    makes, can raise. *)
Inductive exn : Type :=
  | KeyError
  | TypeError
  | ValueError
  | IndexError
  | NameError
  | FileNotFoundError
  | ZeroDivisionError
  | UnidentifiedImageError
  | DecompressionBombError
  | IsADirectoryError
  | PermissionError
  | OSError
  | OverflowError.

Definition exn_name (e : exn) : string :=
  match e with
  | KeyError => "KeyError"
  | TypeError => "TypeError"
  | ValueError => "ValueError"
  | IndexError => "IndexError"
  | NameError => "NameError"
  | FileNotFoundError => "FileNotFoundError"
  | ZeroDivisionError => "ZeroDivisionError"
  | UnidentifiedImageError => "UnidentifiedImageError"
  | DecompressionBombError => "DecompressionBombError"
  | IsADirectoryError => "IsADirectoryError"
  | PermissionError => "PermissionError"
  | OSError => "OSError"
  | OverflowError => "OverflowError"
  end.

Inductive py (A : Type) : Type :=
  | Ok (a : A)
  | Raise (e : exn).

Arguments Ok {A} a.
Arguments Raise {A} e.

Definition py_bind {A B : Type} (k : A -> py B) (m : py A) : py B :=
  match m with
  | Ok a => k a
  | Raise e => Raise e
  end.

(** [x ← m; k] is stdpp's notation for [mbind (fun x => k) m]. *)
#[global] Instance py_mret : MRet py := @Ok.
#[global] Instance py_mbind : MBind py := @py_bind.

(** [fails_with r name]: the computation ended in an exception of class
    [name]. *)
Definition fails_with {A : Type} (r : py A) (name : string) : Prop :=
  exists e, r = Raise e /\ exn_name e = name.

Definition returns {A : Type} (r : py A) : Prop := exists a, r = Ok a.

(** Monadic map over a list, left to right, stopping at the first
    exception: the shape of a Python [for] loop that appends one result per
    element. *)
Fixpoint py_mapM {A B : Type} (f : A -> py B) (l : list A) : py (list B) :=
  match l with
  | [] => Ok []
  | a :: l' => b ← f a; bs ← py_mapM f l'; Ok (b :: bs)
  end.

(** ** JSON values, as [json.load] returns them *)

(** A [dict] is the list of its items, read by first match (the keys of a
    dict are pairwise distinct); a finite float is the rational it
    denotes.  The constants [NaN], [Infinity] and [-Infinity], which
    [json.load] accepts beyond the JSON standard, and numbers beyond the
    range of the doubles have no value here: an annotation file that holds
    one is outside this model. *)
Inductive json : Type :=
  | JNull
  | JBool (b : bool)
  | JInt (z : Z)
  | JFloat (q : Q)
  | JStr (s : string)
  | JList (l : list json)
  | JDict (d : list (string * json)).

Fixpoint dict_get (d : list (string * json)) (k : string) : option json :=
  match d with
  | [] => None
  | (k', v) :: d' => if String.eqb k' k then Some v else dict_get d' k
  end.

(** [obj[k]] with a string key [k]: a dict looks the key up and raises
    [KeyError] when it is absent; lists and strings want integer indices,
    the other values are not subscriptable. *)
Definition py_getitem (obj : json) (k : string) : py json :=
  match obj with
  | JDict d =>
      match dict_get d k with
      | Some v => Ok v
      | None => Raise KeyError
      end
  | _ => Raise TypeError
  end.

Fixpoint chars_of (s : string) : list json :=
  match s with
  | EmptyString => []
  | String c s' => JStr (String c EmptyString) :: chars_of s'
  end.

(** [for x in obj]: a list yields its elements, a dict its keys, a string
    its characters; the other values are not iterable. *)
Definition py_iter (obj : json) : py (list json) :=
  match obj with
  | JList l => Ok l
  | JDict d => Ok (map (fun kv => JStr (fst kv)) d)
  | JStr s => Ok (chars_of s)
  | _ => Raise TypeError
  end.

(** [int(x)] on a finite float truncates toward zero. *)
Definition int_of_float (q : Q) : Z := Z.quot (Qnum q) (Z.pos (Qden q)).

(** A flattened record: the dict [{'image': .., 'label': .., 'bbox': ..}]. *)
Record record : Type := mkRecord {
  image : json;
  label : json;
  bbox : list Z
}.

Section Flattener.

(** Python's parser of integer literals, [int(s)] for a string [s]:
    [None] stands for the [ValueError] it raises on a malformed literal. *)
Variable int_of_str : string -> option Z.

(** [int(x)] *)
Definition py_int (x : json) : py Z :=
  match x with
  | JInt z => Ok z
  | JBool b => Ok (if b then 1 else 0)
  | JFloat q => Ok (int_of_float q)
  | JStr s =>
      match int_of_str s with
      | Some z => Ok z
      | None => Raise ValueError
      end
  | _ => Raise TypeError
  end.

(** [int(obj['bbox'][k])] *)
Definition bbox_coord (obj : json) (k : string) : py Z :=
  b ← py_getitem obj "bbox";
  c ← py_getitem b k;
  py_int c.

(** The body of the inner loop: one record per object. *)
Definition flatten_object (img_name : json) (obj : json) : py record :=
  lbl ← py_getitem obj "type";
  x ← bbox_coord obj "x";
  y ← bbox_coord obj "y";
  w ← bbox_coord obj "w";
  h ← bbox_coord obj "h";
  Ok (mkRecord img_name lbl [x; y; w; h]).

(** The body of the outer loop: the records of one entry, in order. *)
Definition flatten_entry (entry : json) : py (list record) :=
  img_name ← py_getitem entry "image_name";
  objs_v ← py_getitem entry "objects";
  objs ← py_iter objs_v;
  py_mapM (flatten_object img_name) objs.

(** [dataset_records]: the two nested loops over [annotations]. *)
Definition dataset_records (annotations : json) : py (list record) :=
  entries ← py_iter annotations;
  per_entry ← py_mapM flatten_entry entries;
  Ok (concat per_entry).

End Flattener.

(** A sample instance of the literal parser: plain ASCII decimal literals
    with an optional sign.  (Python's [int] accepts more: surrounding
    whitespace, underscores between digits, non-ASCII digits.) *)
Fixpoint digits_value (s : string) (acc : Z) : option Z :=
  match s with
  | EmptyString => Some acc
  | String c s' =>
      let d := Z.of_nat (nat_of_ascii c) - 48 in
      if Z.leb 0 d && Z.leb d 9 then digits_value s' (10 * acc + d) else None
  end.

Definition decimal_literal (s : string) : option Z :=
  match s with
  | EmptyString => None
  | String "-"%char (String c s') => Z.opp <$> digits_value (String c s') 0
  | String "+"%char (String c s') => digits_value (String c s') 0
  | _ => digits_value s 0
  end.

(** ** Lists: slices and in-place swaps *)

(** Python's normalisation of a slice bound against a list of length [n]:
    a negative bound counts from the end, and the result is clamped to
    [0 .. n]. *)
Definition slice_bound (n i : Z) : Z :=
  if i <? 0 then Z.max 0 (i + n) else Z.min i n.

(** [l[lo:hi]]; [None] is an omitted bound. *)
Definition py_slice {A : Type} (l : list A) (lo hi : option Z) : list A :=
  let n := Z.of_nat (length l) in
  let a := match lo with None => 0 | Some i => slice_bound n i end in
  let b := match hi with None => n | Some i => slice_bound n i end in
  take (Z.to_nat (b - a)) (drop (Z.to_nat a) l).

(** [x[i], x[j] = x[j], x[i]] for indices [i], [j >= 0]: both reads come
    first and raise [IndexError] out of range. *)
Definition swap_items {A : Type} (x : list A) (i j : nat) : py (list A) :=
  match x !! j, x !! i with
  | Some xj, Some xi => Ok (<[j := xi]> (<[i := xj]> x))
  | _, _ => Raise IndexError
  end.

(** ** Hashable values and [collections.Counter] *)

(** Lists and dicts are unhashable and cannot be dict keys. *)
Definition py_hashable (v : json) : bool :=
  match v with
  | JList _ | JDict _ => false
  | _ => true
  end.

Definition num_value (v : json) : option Q :=
  match v with
  | JBool b => Some (if b then 1%Q else 0%Q)
  | JInt z => Some (inject_Z z)
  | JFloat q => Some q
  | _ => None
  end.

(** [a == b] on hashable values, as dict keys are compared: [None] equals
    itself, strings compare by content, and booleans, integers and floats
    compare by numeric value ([True == 1 == 1.0]). *)
Definition py_eqb (a b : json) : bool :=
  match a, b with
  | JNull, JNull => true
  | JStr s, JStr t => String.eqb s t
  | _, _ =>
      match num_value a, num_value b with
      | Some x, Some y => Qeq_bool x y
      | _, _ => false
      end
  end.

(** How many elements of [l] equal [k]. *)
Definition count_label (l : list json) (k : json) : nat :=
  length (List.filter (fun e => py_eqb e k) l).

(** A [Counter]: keys in insertion order with their counts. *)
Definition counter : Type := list (json * Z).

(** [c[k]]; a Counter gives 0 for a missing key. *)
Fixpoint counter_get (c : counter) (k : json) : Z :=
  match c with
  | [] => 0
  | (k', n) :: c' => if py_eqb k' k then n else counter_get c' k
  end.

(** [c[k] = c.get(k, 0) + 1] *)
Fixpoint counter_incr (c : counter) (k : json) : counter :=
  match c with
  | [] => [(k, 1)]
  | (k', n) :: c' =>
      if py_eqb k' k then (k', n + 1) :: c' else (k', n) :: counter_incr c' k
  end.

(** Counting the elements of [l] into [c], left to right; hashing an
    unhashable element raises [TypeError]. *)
Fixpoint counter_update (c : counter) (l : list json) : py counter :=
  match l with
  | [] => Ok c
  | k :: l' =>
      if py_hashable k then counter_update (counter_incr c k) l'
      else Raise TypeError
  end.

(** [Counter(l)] *)
Definition Counter (l : list json) : py counter := counter_update [] l.

(** ** The splitter and the sampling weights *)

Abbreviation loc := positive.

Section Splitter.

(** Rounding of an exact result to the float format. *)
Variable fl : Q -> Q.

(** The generator behind the [random] module: its state, [random.seed(a)]
    and [Random._randbelow(n)], which returns a drawn integer and the
    advanced state. *)
Variable G : Type.
Variable seed_state : Z -> G.
Variable randbelow : G -> nat -> nat * G.

(** What a notebook cell can see and change: the list objects, by
    reference, and the state of the process-wide generator. *)
Record world : Type := mkWorld {
  heap : gmap loc (list record);
  rng : G
}.

(** A statement: it may raise, or return a value and the new world. *)
Definition M (A : Type) : Type := world -> py (A * world).

Definition M_ret {A : Type} (a : A) : M A := fun w => Ok (a, w).

Definition M_bind {A B : Type} (k : A -> M B) (m : M A) : M B :=
  fun w =>
    match m w with
    | Ok (a, w') => k a w'
    | Raise e => Raise e
    end.

#[local] Instance M_mret : MRet M := @M_ret.
#[local] Instance M_mbind : MBind M := @M_bind.

(** Reading the list a name refers to; a name bound to no list object
    does not occur in a running program and is reported as [NameError]. *)
Definition load (l : loc) : M (list record) :=
  fun w =>
    match heap w !! l with
    | Some x => Ok (x, w)
    | None => Raise NameError
    end.

(** A new list object, at an address not in use. *)
Definition alloc (x : list record) : M loc :=
  fun w =>
    let l := fresh (dom (heap w)) in
    Ok (l, mkWorld (<[l := x]> (heap w)) (rng w)).

(** [random.seed(a)] *)
Definition random_seed (a : Z) : M unit :=
  fun w => Ok (tt, mkWorld (heap w) (seed_state a)).

(** The loop of [random.shuffle]:
    [for i in reversed(range(1, len(x))): j = randbelow(i + 1); x[i], x[j] = x[j], x[i]],
    entered at index [i]. *)
Fixpoint shuffle_from {A : Type} (i : nat) (x : list A) (g : G) : py (list A * G) :=
  match i with
  | O => Ok (x, g)
  | S i' =>
      let (j, g') := randbelow g (S i) in
      x' ← swap_items x i j;
      shuffle_from i' x' g'
  end.

Definition shuffle {A : Type} (x : list A) (g : G) : py (list A * G) :=
  shuffle_from (length x - 1) x g.

(** [random.shuffle(x)]: the list object at [l] is permuted in place and
    the generator advanced. *)
Definition random_shuffle (l : loc) : M unit :=
  fun w =>
    match heap w !! l with
    | Some x =>
        '(x', g') ← shuffle x (rng w);
        Ok (tt, mkWorld (<[l := x']> (heap w)) g')
    | None => Raise NameError
    end.

(** [int(n * r)] for an integer [n] and a float [r]: [n] is converted to
    a float, the product rounded, and the result truncated.  The product
    is taken to stay within the range of the doubles, as it does for the
    ratios that [ratio_in_range] admits; beyond that range Python's
    product is infinite and [int] raises [OverflowError], which this
    definition does not show. *)
Definition scaled_index (n : Z) (r : Q) : Z :=
  int_of_float (fl (fl (inject_Z n) * r)).

(** [split_dataset(records, train_ratio, val_ratio)] *)
Definition split_dataset (records : loc) (train_ratio val_ratio : Q)
  : M (loc * loc * loc) :=
  _ ← random_shuffle records;
  x ← load records;
  let n := Z.of_nat (length x) in
  let train_end := scaled_index n train_ratio in
  let val_end := scaled_index n (fl (train_ratio + val_ratio)) in
  train ← alloc (py_slice x None (Some train_end));
  val ← alloc (py_slice x (Some train_end) (Some val_end));
  test ← alloc (py_slice x (Some val_end) None);
  mret (train, val, test).

(** The default arguments [train_ratio=0.7, val_ratio=0.15]: the floats
    nearest to the decimal literals. *)
Definition default_train_ratio : Q := fl (7 # 10).
Definition default_val_ratio : Q := fl (15 # 100).

(** [1.0 / c] for an integer count [c]. *)
Definition inverse_count (c : Z) : py Q :=
  let d := fl (inject_Z c) in
  if Qeq_bool d 0 then Raise ZeroDivisionError else Ok (fl (1 / d)).

(** The weights cell:
    [train_labels = [r['label'] for r in train_records]],
    [label_counts = Counter(train_labels)],
    [weights = [1.0 / label_counts[r['label']] for r in train_records]]. *)
Definition weights (train_records : list record) : py (list Q) :=
  let train_labels := map label train_records in
  label_counts ← Counter train_labels;
  py_mapM (fun r => inverse_count (counter_get label_counts (label r)))
          train_records.

(** What a call leaves behind, if it returns. *)
Definition split_dataset_result (records : loc) (train_ratio val_ratio : Q)
    (w : world) : option ((loc * loc * loc) * world) :=
  match split_dataset records train_ratio val_ratio w with
  | Ok r => Some r
  | Raise _ => None
  end.

(** The contents of the three lists a call returned. *)
Definition split_contents (r : py ((loc * loc * loc) * world))
  : py (list record * list record * list record) :=
  '((l1, l2, l3), w) ← r;
  match heap w !! l1, heap w !! l2, heap w !! l3 with
  | Some train, Some val, Some test => Ok (train, val, test)
  | _, _, _ => Raise NameError
  end.

(** [random.seed(a)] followed at once by [split_dataset(...)]. *)
Definition seeded_split (a : Z) (records : loc) (train_ratio val_ratio : Q)
  : M (loc * loc * loc) :=
  _ ← random_seed a;
  split_dataset records train_ratio val_ratio.

(** Two calls in a row, on the list objects [records1] and [records2]:
    the contents of what each returned. *)
Definition split_twice (records1 records2 : loc) (train_ratio val_ratio : Q)
    (w : world)
  : py (list record * list record * list record)
    * py (list record * list record * list record) :=
  let r1 := split_dataset records1 train_ratio val_ratio w in
  let r2 := '(_, w1) ← r1; split_dataset records2 train_ratio val_ratio w1 in
  (split_contents r1, split_contents r2).

End Splitter.

(** A bound on the ratios that keeps every float of [split_dataset]
    finite: a list has fewer than [2^63] items, so with ratios of
    magnitude at most [2^900] the sum of the ratios stays below [2^901]
    and the products [n * r] below [2^964], far inside the range of the
    doubles, which ends at [2^1024]. *)
Definition max_ratio : Q := 2 ^ 900.

Definition ratio_in_range (r : Q) : Prop := (- max_ratio <= r <= max_ratio)%Q.

Arguments split_dataset_result fl {G} randbelow records train_ratio val_ratio w.
Arguments split_contents {G} r.
Arguments seeded_split fl {G} seed_state randbelow a records train_ratio val_ratio w.
Arguments split_twice fl {G} randbelow records1 records2 train_ratio val_ratio w.
Arguments mkWorld {G} heap rng.
Arguments heap {G} w.
Arguments rng {G} w.
Arguments load {G} l w.
Arguments alloc {G} x w.
Arguments random_seed {G} seed_state a w.
Arguments shuffle_from {G} randbelow {A} i x g.
Arguments shuffle {G} randbelow {A} x g.
Arguments random_shuffle {G} randbelow l w.
Arguments split_dataset fl {G} randbelow records train_ratio val_ratio w.

(** ** The dataset wrapper: [MalariaDataset] *)

(** A decoded RGB image: its size and the colour at each position inside
    it. *)
Record Image : Type := mkImage {
  width : Z;
  height : Z;
  pixel : Z -> Z -> Z * Z * Z
}.

(** What a path of the image store holds: a complete image file that
    Pillow decodes, an image file whose data ends early, a regular file
    that is no image, a directory, or a file the process may not read.  A
    path that holds nothing is absent from the store; the store lists its
    directories too, under their path with a closing slash, as
    [os.path.join] builds it from an empty file name. *)
Inductive file : Type :=
  | ImageFile (img : Image)
  | OtherFile
  | TruncatedImageFile
  | Directory
  | Unreadable.

(** Pillow's limit on the pixels of an image, [Image.MAX_IMAGE_PIXELS]. *)
Definition MAX_IMAGE_PIXELS : Z := 89478485.

(** [Image.open(path).convert('RGB')].  Opening the file raises
    [FileNotFoundError] for a missing file, [IsADirectoryError] for a
    directory and [PermissionError] for a file that may not be read;
    Pillow raises [UnidentifiedImageError] for a file it cannot identify
    as an image and [DecompressionBombError] for an image of more than
    twice [MAX_IMAGE_PIXELS] pixels; decoding the data, which [convert]
    starts, raises [OSError] for a truncated image file. *)
Definition image_open (fs : gmap string file) (path : string) : py Image :=
  match fs !! path with
  | None => Raise FileNotFoundError
  | Some Directory => Raise IsADirectoryError
  | Some Unreadable => Raise PermissionError
  | Some OtherFile => Raise UnidentifiedImageError
  | Some TruncatedImageFile => Raise OSError
  | Some (ImageFile img) =>
      if 2 * MAX_IMAGE_PIXELS <? Z.max 1 (width img) * Z.max 1 (height img)
      then Raise DecompressionBombError
      else Ok img
  end.

(** The range of a C [int], in which Pillow's crop takes its coordinates. *)
Definition fits_c_int (z : Z) : bool := (- 2 ^ 31 <=? z) && (z <? 2 ^ 31).

(** [img.crop((left, upper, right, lower))] as Pillow implements it: a box
    whose right edge is left of its left edge, or whose lower edge is above
    its upper edge, raises [ValueError]; a box of more than twice
    [MAX_IMAGE_PIXELS] pixels raises [DecompressionBombError]; a
    coordinate outside the range of a C [int] raises [OverflowError];
    otherwise the result has the size of the box, and the part of the box
    outside the image is filled with zeros.  Running out of memory is
    left out. *)
Definition image_crop (img : Image) (left upper right lower : Z) : py Image :=
  if (right <? left) || (lower <? upper) then Raise ValueError
  else if 2 * MAX_IMAGE_PIXELS <? Z.max 1 (right - left) * Z.max 1 (lower - upper)
  then Raise DecompressionBombError
  else if negb (fits_c_int left && fits_c_int upper
                && fits_c_int right && fits_c_int lower)
  then Raise OverflowError
  else Ok (mkImage (right - left) (lower - upper)
             (fun x y =>
                let sx := x + left in
                let sy := y + upper in
                if (0 <=? sx) && (sx <? width img) && (0 <=? sy) && (sy <? height img)
                then pixel img sx sy
                else (0, 0, 0))).


(** [DATA_DIR = '../IML_Malaria'] *)
Definition DATA_DIR : string := "../IML_Malaria".

(** [os.path.join(a, b)] on POSIX, for a non-empty [a] that does not end in
    a slash: an absolute [b] replaces [a]. *)
Definition path_join (a b : string) : string :=
  match b with
  | String "/"%char _ => b
  | _ => a +:+ "/" +:+ b
  end.

(** [self.records[idx]] *)
Definition list_getitem {A : Type} (l : list A) (idx : Z) : py A :=
  let n := Z.of_nat (length l) in
  let i := if idx <? 0 then idx + n else idx in
  if (i <? 0) || (n <=? i) then Raise IndexError
  else match l !! Z.to_nat i with
       | Some a => Ok a
       | None => Raise IndexError
       end.

(** [label2idx[k]] for the dict [label2idx]: unhashable keys raise
    [TypeError], absent keys [KeyError]. *)
Fixpoint assoc_get (d : list (json * Z)) (k : json) : option Z :=
  match d with
  | [] => None
  | (k', v) :: d' => if py_eqb k' k then Some v else assoc_get d' k
  end.

Definition label_index (label2idx : list (json * Z)) (k : json) : py Z :=
  if py_hashable k then
    match assoc_get label2idx k with
    | Some i => Ok i
    | None => Raise KeyError
    end
  else Raise TypeError.

Section Dataset.

(** The image store, the global [label2idx], and the type of what a
    transform pipeline produces. *)
Variable fs : gmap string file.
Variable label2idx : list (json * Z).
Variable Tensor : Type.

Record MalariaDataset : Type := mkDataset {
  records : list record;
  transform : option (Image -> py Tensor)
}.

(** [MalariaDataset.__len__] *)
Definition dataset_len (self : MalariaDataset) : Z :=
  Z.of_nat (length (records self)).

(** [MalariaDataset.__getitem__]: without a transform the cropped image
    itself is returned. *)
Definition dataset_getitem (self : MalariaDataset) (idx : Z)
  : py ((Image + Tensor) * Z) :=
  rec ← list_getitem (records self) idx;
  name ← match image rec with JStr s => Ok s | _ => Raise TypeError end;
  img ← image_open fs (path_join DATA_DIR name);
  '(x, y, w, h) ← match bbox rec with
                  | [x; y; w; h] => Ok (x, y, w, h)
                  | _ => Raise ValueError
                  end;
  img ← image_crop img x y (x + w) (y + h);
  out ← match transform self with
        | Some f => t ← f img; Ok (inr t)
        | None => Ok (inl img)
        end;
  lbl ← label_index label2idx (label rec);
  Ok (out, lbl).

End Dataset.

(** ** The evaluation report *)

(** [np.unique]: the distinct values, in increasing order. *)
Fixpoint insert_unique (z : Z) (l : list Z) : list Z :=
  match l with
  | [] => [z]
  | y :: l' =>
      if z <? y then z :: l
      else if z =? y then l
      else y :: insert_unique z l'
  end.

Definition np_unique (l : list Z) : list Z := foldr insert_unique [] l.

(** scikit-learn's [unique_labels(y_true, y_pred)]: the labels that occur
    in either sequence. *)
Definition unique_labels (pairs : list (Z * Z)) : list Z :=
  np_unique (map fst pairs ++ map snd pairs).

Definition count_pairs (pairs : list (Z * Z)) (t p : Z) : Z :=
  Z.of_nat (length (List.filter (fun tp => (fst tp =? t) && (snd tp =? p)) pairs)).

(** [confusion_matrix(all_labels, all_preds)], called without [labels=]:
    rows and columns range over [unique_labels]. *)
Definition confusion_matrix (pairs : list (Z * Z)) : list (list Z) :=
  let labels := unique_labels pairs in
  map (fun t => map (fun p => count_pairs pairs t p) labels) labels.

(** The number of pairs whose two labels agree. *)
Definition count_agree (pairs : list (Z * Z)) : Z :=
  Z.of_nat (length (List.filter (fun tp => fst tp =? snd tp) pairs)).

Section Report.

Variable fl : Q -> Q.

(** [accuracy_score(all_labels, all_preds)]: the mean of the agreement
    indicator, a float division.  (Over no pairs at all the mean is not
    a number; the cell then raises at its next step, whatever the
    value.) *)
Definition accuracy_score (pairs : list (Z * Z)) : Q :=
  fl (inject_Z (count_agree pairs) / inject_Z (Z.of_nat (length pairs))).

(** The part of [classification_report(all_labels, all_preds,
    target_names=classes)] that can fail: without [labels=], a number of
    target names different from the number of labels present raises
    [ValueError]. *)
Definition classification_report_check (num_classes : positive)
    (pairs : list (Z * Z)) : py unit :=
  if (length (unique_labels pairs) =? Pos.to_nat num_classes)%nat then Ok tt
  else Raise ValueError.

(** The reporting cell, over the accumulated (true, predicted) pairs and
    [len(classes)], which is at least one: accuracy, then the
    classification report, then the confusion matrix.  (Precision and recall, computed with
    [zero_division=0], raise nothing and feed neither result.) *)
Definition report (num_classes : positive) (pairs : list (Z * Z))
  : py (Q * list (list Z)) :=
  let acc := accuracy_score pairs in
  _ ← classification_report_check num_classes pairs;
  let cm := confusion_matrix pairs in
  Ok (acc, cm).

End Report.

(** ** The generator of CPython's [random] module: MT19937 *)

(** The state and the operations of [_randommodule.c] ([init_genrand],
    [init_by_array], [genrand_uint32], [getrandbits]) and of [random.py]
    ([seed] on an integer, [_randbelow_with_getrandbits]).  Words are
    32-bit unsigned integers, wrapped with [u32]. *)
Module MT.

Definition N : nat := 624.
Definition M : nat := 397.
Definition MATRIX_A : Z := 0x9908b0df.
Definition UPPER_MASK : Z := 0x80000000.
Definition LOWER_MASK : Z := 0x7fffffff.

Definition u32 (z : Z) : Z := z mod 2 ^ 32.

Record state : Type := mkState { mt : list Z; index : nat }.

Definition word (mt : list Z) (i : nat) : Z := default 0 (mt !! i).

(** [mt[mti] = 1812433253 * (mt[mti-1] ^ (mt[mti-1] >> 30)) + mti] *)
Fixpoint init_genrand_from (k mti : nat) (prev : Z) : list Z :=
  match k with
  | O => []
  | S k' =>
      let x := u32 (1812433253 * Z.lxor prev (Z.shiftr prev 30) + Z.of_nat mti) in
      x :: init_genrand_from k' (S mti) x
  end.

Definition init_genrand (s : Z) : list Z :=
  u32 s :: init_genrand_from (N - 1) 1 (u32 s).

(** [if (i >= N) { mt[0] = mt[N-1]; i = 1; }] *)
Definition wrap (mt : list Z) (i : nat) : list Z * nat :=
  if (N <=? i)%nat then (<[0%nat := word mt (N - 1)]> mt, 1%nat) else (mt, i).

Fixpoint key_loop (k : nat) (key mt : list Z) (i j : nat) : list Z * nat :=
  match k with
  | O => (mt, i)
  | S k' =>
      let p := word mt (i - 1) in
      let x := u32 (Z.lxor (word mt i) (Z.lxor p (Z.shiftr p 30) * 1664525)
                    + word key j + Z.of_nat j) in
      let (mt', i') := wrap (<[i := x]> mt) (S i) in
      let j' := if (length key <=? S j)%nat then O else S j in
      key_loop k' key mt' i' j'
  end.

Fixpoint mix_loop (k : nat) (mt : list Z) (i : nat) : list Z :=
  match k with
  | O => mt
  | S k' =>
      let p := word mt (i - 1) in
      let x := u32 (Z.lxor (word mt i) (Z.lxor p (Z.shiftr p 30) * 1566083941)
                    - Z.of_nat i) in
      let (mt', i') := wrap (<[i := x]> mt) (S i) in
      mix_loop k' mt' i'
  end.

Definition init_by_array (key : list Z) : state :=
  let mt0 := init_genrand 19650218 in
  let (mt1, i) := key_loop (Nat.max N (length key)) key mt0 1 0 in
  let mt2 := mix_loop (N - 1) mt1 i in
  mkState (<[0%nat := 0x80000000]> mt2) N.

Definition mag01 (y : Z) : Z := if Z.testbit y 0 then MATRIX_A else 0.

(** Regenerating the [N] words in place, from word [kk] on. *)
Fixpoint twist_from (k kk : nat) (mt : list Z) : list Z :=
  match k with
  | O => mt
  | S k' =>
      let y := Z.lor (Z.land (word mt kk) UPPER_MASK)
                     (Z.land (word mt ((kk + 1) mod N)) LOWER_MASK) in
      let x := Z.lxor (Z.lxor (word mt ((kk + M) mod N)) (Z.shiftr y 1)) (mag01 y) in
      twist_from k' (S kk) (<[kk := x]> mt)
  end.

Definition temper (y : Z) : Z :=
  let y := Z.lxor y (Z.shiftr y 11) in
  let y := Z.lxor y (Z.land (u32 (Z.shiftl y 7)) 0x9d2c5680) in
  let y := Z.lxor y (Z.land (u32 (Z.shiftl y 15)) 0xefc60000) in
  Z.lxor y (Z.shiftr y 18).

Definition genrand_uint32 (s : state) : Z * state :=
  let s' := if (N <=? index s)%nat then mkState (twist_from N 0 (mt s)) 0 else s in
  (temper (word (mt s') (index s')), mkState (mt s') (S (index s'))).

(** [getrandbits(k)], least significant word first. *)
Fixpoint getrandbits_words (words : nat) (k : Z) (s : state) : Z * state :=
  match words with
  | O => (0, s)
  | S w' =>
      let (r, s1) := genrand_uint32 s in
      let r := if k <? 32 then Z.shiftr r (32 - k) else r in
      let (hi, s2) := getrandbits_words w' (k - 32) s1 in
      (r + 2 ^ 32 * hi, s2)
  end.

Definition getrandbits (k : Z) (s : state) : Z * state :=
  getrandbits_words (Z.to_nat ((k - 1) / 32 + 1)) k s.

(** [r = getrandbits(k); while r >= n: r = getrandbits(k)].  Each draw is
    rejected with probability below one half; the model gives up after
    [fuel] further draws and then answers 0. *)
Fixpoint retry (fuel : nat) (k n : Z) (s : state) : Z * state :=
  let (r, s') := getrandbits k s in
  if r <? n then (r, s')
  else match fuel with
       | O => (0, s')
       | S f => retry f k n s'
       end.

(** [_randbelow_with_getrandbits(n)], with [k = n.bit_length()]. *)
Definition randbelow (s : state) (n : nat) : nat * state :=
  let (r, s') := retry 1024 (Z.log2 (Z.of_nat n) + 1) (Z.of_nat n) s in
  (Z.to_nat r, s').

(** The 32-bit words of a non-negative integer, least significant
    first. *)
Fixpoint key_words (n : nat) (a : Z) : list Z :=
  match n with
  | O => []
  | S n' => u32 a :: key_words n' (Z.shiftr a 32)
  end.

(** [random.seed(a)] for an integer [a]: the key is [abs(a)]. *)
Definition seed (a : Z) : state :=
  init_by_array (key_words (Z.to_nat (Z.log2 (Z.abs a) / 32 + 1)) (Z.abs a)).

End MT.

(** ** Annotation files, as the data model describes them *)

Record ObjectAnnotation : Type := mkObject {
  obj_type : json;
  obj_x : Z;
  obj_y : Z;
  obj_w : Z;
  obj_h : Z
}.

Record AnnotationEntry : Type := mkEntry {
  image_name : json;
  objects : list ObjectAnnotation
}.

(** The records an entry stands for, in object order. *)
Definition records_of_entry (e : AnnotationEntry) : list record :=
  map (fun o => mkRecord (image_name e) (obj_type o)
                  [obj_x o; obj_y o; obj_w o; obj_h o])
      (objects e).

Definition records_of (entries : list AnnotationEntry) : list record :=
  concat (map records_of_entry entries).

Definition total_objects (entries : list AnnotationEntry) : nat :=
  sum_list (map (fun e => length (objects e)) entries).

Definition is_ok {A : Type} (r : py A) : bool :=
  match r with Ok _ => true | Raise _ => false end.

Definition has_key (d : list (string * json)) (k : string) : bool :=
  match dict_get d k with Some _ => true | None => false end.

Section AnnotationShape.

Variable int_of_str : string -> option Z.

(** A coordinate is an integer or an integer-convertible value. *)
Definition represents_coord (b : list (string * json)) (k : string) (z : Z) : Prop :=
  exists c, dict_get b k = Some c /\ py_int int_of_str c = Ok z.

Definition represents_object (j : json) (o : ObjectAnnotation) : Prop :=
  exists d b,
    j = JDict d /\
    dict_get d "type" = Some (obj_type o) /\
    dict_get d "bbox" = Some (JDict b) /\
    represents_coord b "x" (obj_x o) /\
    represents_coord b "y" (obj_y o) /\
    represents_coord b "w" (obj_w o) /\
    represents_coord b "h" (obj_h o).

(** A well-formed entry of the annotation file. *)
Definition represents_entry (j : json) (e : AnnotationEntry) : Prop :=
  exists d objs,
    j = JDict d /\
    dict_get d "image_name" = Some (image_name e) /\
    dict_get d "objects" = Some (JList objs) /\
    Forall2 represents_object objs (objects e).

(** Entries of the right shape in which fields may be missing: every
    entry and object is a dict, [objects] where present is a list,
    [bbox] where present is a dict, and a coordinate where present is
    integer-convertible. *)
Definition coord_shape (b : list (string * json)) (k : string) : bool :=
  match dict_get b k with
  | None => true
  | Some c => is_ok (py_int int_of_str c)
  end.

Definition bbox_shape (v : json) : bool :=
  match v with
  | JDict b => coord_shape b "x" && coord_shape b "y" && coord_shape b "w" && coord_shape b "h"
  | _ => false
  end.

Definition object_shape (j : json) : bool :=
  match j with
  | JDict d =>
      match dict_get d "bbox" with
      | None => true
      | Some v => bbox_shape v
      end
  | _ => false
  end.

Definition entry_shape (j : json) : bool :=
  match j with
  | JDict d =>
      match dict_get d "objects" with
      | None => true
      | Some (JList l) => forallb object_shape l
      | Some _ => false
      end
  | _ => false
  end.

(** No required field is missing. *)
Definition bbox_complete (v : json) : bool :=
  match v with
  | JDict b => has_key b "x" && has_key b "y" && has_key b "w" && has_key b "h"
  | _ => false
  end.

Definition object_complete (j : json) : bool :=
  match j with
  | JDict d =>
      has_key d "type" &&
      match dict_get d "bbox" with
      | Some v => bbox_complete v
      | None => false
      end
  | _ => false
  end.

Definition entry_complete (j : json) : bool :=
  match j with
  | JDict d =>
      has_key d "image_name" &&
      match dict_get d "objects" with
      | Some (JList l) => forallb object_complete l
      | _ => false
      end
  | _ => false
  end.

End AnnotationShape.


(** ** Sample annotation files *)

Definition json_bbox (x y w h : json) : json :=
  JDict [("x", x); ("y", y); ("w", w); ("h", h)].

Definition json_object (type : string) (box : json) : json :=
  JDict [("type", JStr type); ("bbox", box)].

Definition json_entry (name : string) (objs : list json) : json :=
  JDict [("image_name", JStr name); ("objects", JList objs)].

(** Two entries with two objects each; one coordinate is a float and one a
    decimal string. *)
Definition sample_annotations : list json :=
  [ json_entry "a.png"
      [ json_object "ring" (json_bbox (JInt 10) (JInt 20) (JInt 30) (JInt 40));
        json_object "schizont" (json_bbox (JInt 1) (JFloat (5 # 2)) (JInt 3) (JStr "12")) ];
    json_entry "b.png"
      [ json_object "ring" (json_bbox (JInt 0) (JInt 0) (JInt 8) (JInt 8));
        json_object "ring" (json_bbox (JInt 5) (JInt 6) (JInt 7) (JInt 8)) ] ].

Definition sample_entries : list AnnotationEntry :=
  [ mkEntry (JStr "a.png")
      [ mkObject (JStr "ring") 10 20 30 40;
        mkObject (JStr "schizont") 1 2 3 12 ];
    mkEntry (JStr "b.png")
      [ mkObject (JStr "ring") 0 0 8 8;
        mkObject (JStr "ring") 5 6 7 8 ] ].

(** A bounding box of negative width and height. *)
Definition negative_box_annotations : list json :=
  [ json_entry "a.png"
      [ json_object "ring" (json_bbox (JInt 10) (JInt 20) (JInt (-5)) (JInt (-8))) ] ].

(** The second object has no ['type']. *)
Definition missing_type_annotations : list json :=
  [ json_entry "a.png"
      [ json_object "ring" (json_bbox (JInt 10) (JInt 20) (JInt 30) (JInt 40));
        JDict [("bbox", json_bbox (JInt 1) (JInt 2) (JInt 3) (JInt 4))] ] ].

(** One over the number of records of [train] that share the label of
    [r], in float arithmetic. *)
Definition weight_of (fl : Q -> Q) (train : list record) (r : record) : Q :=
  fl (1 / fl (inject_Z (Z.of_nat (count_label (map label train) (label r)))))%Q.

(** The sum of the weights [ws] of those records of [train] whose label
    equals [k]. *)
Fixpoint group_total (train : list record) (ws : list Q) (k : json) : Q :=
  match train, ws with
  | r :: train', wt :: ws' =>
      ((if py_eqb (label r) k then wt else 0) + group_total train' ws' k)%Q
  | _, _ => 0%Q
  end.

(** ** The float format of CPython: IEEE 754 binary64 *)

(** Rounding to the nearest double, ties to even, subnormal numbers
    included.  Overflow is left out: beyond the largest finite double,
    [max_finite], the function keeps rounding to 53 bits where the machine
    gives an infinity. *)
Module Binary64.

Definition emin : Z := -1022.

(** [floor(log2 q)] for a positive [q]. *)
Definition ilog2 (q : Q) : Z :=
  let e0 := Z.log2 (Qnum q) - Z.log2 (Z.pos (Qden q)) in
  if Qle_bool (2 ^ e0) q then e0 else e0 - 1.

(** Rounding to the nearest integer, ties to even. *)
Definition rne (s : Q) : Z :=
  let f := Qfloor s in
  match (s - inject_Z f ?= 1 # 2)%Q with
  | Lt => f
  | Gt => f + 1
  | Eq => if Z.even f then f else f + 1
  end.

(** The exponent of the unit in the last place around [q]. *)
Definition grid (q : Q) : Z := Z.max (ilog2 q) emin - 52.

Definition round_pos (q : Q) : Q :=
  (inject_Z (rne (q / 2 ^ grid q)) * 2 ^ grid q)%Q.

Definition round (q : Q) : Q :=
  match Qnum q with
  | 0 => 0%Q
  | Z.pos _ => round_pos q
  | Z.neg _ => (- round_pos (- q))%Q
  end.

(** The largest finite double.  [round] agrees with the rounding of the
    machine on the values that it takes to a magnitude of at most
    [max_finite]. *)
Definition max_finite : Q := (inject_Z (2 ^ 53 - 1) * 2 ^ 971)%Q.

End Binary64.

(** ** Sample records and worlds *)

(** Exact arithmetic: nothing is rounded. *)
Definition exact (q : Q) : Q := q.

Definition rec_a0 : record := mkRecord (JStr "a.png") (JStr "ring") [10; 20; 30; 40].
Definition rec_a1 : record := mkRecord (JStr "a.png") (JStr "schizont") [1; 2; 3; 12].
Definition rec_b0 : record := mkRecord (JStr "b.png") (JStr "ring") [0; 0; 8; 8].
Definition rec_b1 : record := mkRecord (JStr "b.png") (JStr "ring") [5; 6; 7; 8].

(** The two training splits of the scenario: one schizont and one ring
    record, and two ring records. *)
Definition mixed_split : list record := [rec_a1; rec_a0].
Definition ring_split : list record := [rec_b0; rec_b1].

(** The four records of [sample_annotations]. *)
Definition sample_records : list record := [rec_a0; rec_a1; rec_b0; rec_b1].

(** One list object holding the sample records, and the generator as
    [random.seed(42)] leaves it. *)
Definition sample_world : world MT.state :=
  mkWorld {[ 1%positive := sample_records ]} (MT.seed 42).

(** Two list objects with the same contents. *)
Definition two_lists_world : world MT.state :=
  mkWorld {[ 1%positive := sample_records; 2%positive := sample_records ]}
          (MT.seed 42).

(** The same list object among others, and a generator in another state. *)
Definition other_world : world MT.state :=
  mkWorld {[ 1%positive := sample_records; 5%positive := [rec_a0] ]}
          (MT.seed 7).

(** The sample records under a generator that leaves four items in their
    order, and a list of one record. *)
Definition seed9_world : world MT.state :=
  mkWorld {[ 1%positive := sample_records; 2%positive := [rec_a0] ]}
          (MT.seed 9).

(** ** A sample image store and dataset *)

(** A 10 by 10 image. *)
Definition sample_image : Image := mkImage 10 10 (fun x y => (x + 1, y + 1, 255)).

Definition sample_fs : gmap string file :=
  {[ "../IML_Malaria/" := Directory;
     "../IML_Malaria/a.png" := ImageFile sample_image;
     "../IML_Malaria/notes.txt" := OtherFile ]}.

Definition sample_label2idx : list (json * Z) :=
  [(JStr "ring", 0); (JStr "schizont", 1)].

(** A transform that lists the channel values of the image, row by row. *)
Definition channel_values (img : Image) : py (list Z) :=
  Ok (concat (map (fun y =>
        concat (map (fun x => let '(r, g, b) := pixel img x y in [r; g; b])
                    (seqZ 0 (width img))))
        (seqZ 0 (height img)))).


(** An image store with a truncated image file, and records that name the
    data directory (an empty image name), a box far to the right of the
    range of a C [int], and the truncated file. *)
Definition edge_fs : gmap string file :=
  {[ "../IML_Malaria/" := Directory;
     "../IML_Malaria/a.png" := ImageFile sample_image;
     "../IML_Malaria/cut.png" := TruncatedImageFile ]}.

Definition edge_dataset : MalariaDataset (list Z) :=
  mkDataset (list Z)
    [ mkRecord (JStr "") (JStr "ring") [0; 0; 4; 4];
      mkRecord (JStr "a.png") (JStr "ring") [2147483648; 0; 2; 2];
      mkRecord (JStr "cut.png") (JStr "ring") [0; 0; 4; 4] ]
    (Some channel_values).

(** ** Sample evaluation results *)

(** The pairs of the confusion-matrix scenario: true labels [0,0,1,1],
    predictions [0,1,1,1]. *)
Definition scenario_pairs : list (Z * Z) := [(0, 0); (0, 1); (1, 1); (1, 1)].

(** Three classes, of which class 1 occurs neither among the true labels
    [0,0,2,2] nor among the predictions [0,2,2,2]. *)
Definition absent_class_pairs : list (Z * Z) := [(0, 0); (0, 2); (2, 2); (2, 2)].

(** The K by K matrix of the counts of (true, predicted) pairs. *)
Definition count_matrix (num_classes : Z) (pairs : list (Z * Z)) : list (list Z) :=
  map (fun t => map (fun p => count_pairs pairs t p) (seqZ 0 num_classes))
      (seqZ 0 num_classes).

(** * Further code of the notebook *)

From Stdlib Require Import OrdersEx.

(** ** The annotation cell: records, labels and their counts *)

Definition counter_total (c : counter) : Z :=
  foldr (fun kn acc => snd kn + acc) 0 c.

Section AnnotationCell.

Variable int_of_str : string -> option Z.

(** The cell that reads the annotations: [dataset_records], then
    [labels = [rec['label'] for rec in dataset_records]], and what it
    prints, [len(labels)] and [Counter(labels)]. *)
Definition annotation_cell (annotations : json)
  : py (list record * list json * Z * counter) :=
  recs ← dataset_records int_of_str annotations;
  let labels := map label recs in
  let total := Z.of_nat (length labels) in
  c ← Counter labels;
  Ok (recs, labels, total, c).

End AnnotationCell.

Section FlattenLoop.

Variable int_of_str : string -> option Z.

(** The loops of the cell with the global list [dataset_records] as
    their state: what the list holds when a loop ends, and how the loop
    ended.  A record is appended as soon as its object is read, so an
    exception leaves in the list what was appended before it. *)

(** [for obj in entry['objects']: ...; dataset_records.append(...)] *)
Fixpoint append_objects (img_name : json) (objs : list json)
    (dataset_records : list record) : list record * py unit :=
  match objs with
  | [] => (dataset_records, Ok tt)
  | obj :: objs' =>
      match flatten_object int_of_str img_name obj with
      | Ok r => append_objects img_name objs' (dataset_records ++ [r])
      | Raise e => (dataset_records, Raise e)
      end
  end.

(** The body of the outer loop. *)
Definition append_entry (entry : json) (dataset_records : list record)
  : list record * py unit :=
  match (img_name ← py_getitem entry "image_name";
         objs_v ← py_getitem entry "objects";
         objs ← py_iter objs_v;
         Ok (img_name, objs)) with
  | Ok (img_name, objs) => append_objects img_name objs dataset_records
  | Raise e => (dataset_records, Raise e)
  end.

(** [for entry in annotations: ...] *)
Fixpoint append_entries (entries : list json) (dataset_records : list record)
  : list record * py unit :=
  match entries with
  | [] => (dataset_records, Ok tt)
  | entry :: entries' =>
      match append_entry entry dataset_records with
      | (dataset_records', Ok _) => append_entries entries' dataset_records'
      | (dataset_records', Raise e) => (dataset_records', Raise e)
      end
  end.

(** [dataset_records = []], then the loops. *)
Definition flatten_loop (annotations : json) : list record * py unit :=
  match py_iter annotations with
  | Ok entries => append_entries entries []
  | Raise e => ([], Raise e)
  end.

End FlattenLoop.

(** An annotation file whose top level is an object, not a list. *)
Definition toplevel_dict_annotations : json :=
  JDict [("images", JList sample_annotations)].

(** An object whose ['type'] is a list. *)
Definition list_label_annotations : list json :=
  [ json_entry "a.png"
      [ JDict [("type", JList [JStr "ring"]);
               ("bbox", json_bbox (JInt 1) (JInt 2) (JInt 3) (JInt 4))] ] ].

(** ** The label index: [classes], [label2idx], [idx2label] *)

Definition is_str (v : json) : bool :=
  match v with JStr _ => true | _ => false end.

Definition is_num (v : json) : bool :=
  match num_value v with Some _ => true | None => false end.

(** [s.add(k)] on a set kept in insertion order: an element equal to [k]
    stays, and [k] is dropped. *)
Definition set_add (s : list json) (k : json) : list json :=
  if existsb (fun e => py_eqb e k) s then s else s ++ [k].

Fixpoint set_update (s : list json) (l : list json) : py (list json) :=
  match l with
  | [] => Ok s
  | k :: l' =>
      if py_hashable k then set_update (set_add s k) l' else Raise TypeError
  end.

(** [set(l)]; an unhashable element raises [TypeError]. *)
Definition py_set (l : list json) : py (list json) := set_update [] l.

(** [s <= t] on strings: Python compares code point by code point, which on
    UTF-8 bytes is the bytewise order. *)
Definition str_leb (s t : string) : bool :=
  match String_as_OT.compare s t with
  | Gt => false
  | _ => true
  end.

(** [a <= b] between two strings or between two numbers. *)
Definition json_leb (a b : json) : bool :=
  match a, b with
  | JStr s, JStr t => str_leb s t
  | _, _ =>
      match num_value a, num_value b with
      | Some x, Some y => Qle_bool x y
      | _, _ => false
      end
  end.

Fixpoint insert_by {A : Type} (le : A -> A -> bool) (x : A) (l : list A) : list A :=
  match l with
  | [] => [x]
  | y :: l' => if le x y then x :: l else y :: insert_by le x l'
  end.

Definition sort_by {A : Type} (le : A -> A -> bool) (l : list A) : list A :=
  foldr (insert_by le) [] l.

(** [sorted(s)] for a set [s] of hashable values.  Strings are ordered
    among themselves and numbers among themselves; any other comparison
    ([None] with anything, a string with a number) raises [TypeError], and
    sorting two or more elements compares each of them with another. *)
Definition py_sorted_set (s : list json) : py (list json) :=
  if (length s <=? 1)%nat then Ok s
  else if forallb is_str s || forallb is_num s then Ok (sort_by json_leb s)
  else Raise TypeError.

(** [classes = sorted(set(labels))] *)
Definition classes_of (labels : list json) : py (list json) :=
  s ← py_set labels;
  py_sorted_set s.

(** [d[k] = v] on a dict with hashable keys. *)
Fixpoint assoc_set (d : list (json * Z)) (k : json) (v : Z) : list (json * Z) :=
  match d with
  | [] => [(k, v)]
  | (k', v') :: d' =>
      if py_eqb k' k then (k', v) :: d' else (k', v') :: assoc_set d' k v
  end.

(** [{c: i for i, c in enumerate(classes)}], from index [i] on. *)
Fixpoint label2idx_from (i : Z) (classes : list json) (d : list (json * Z))
  : py (list (json * Z)) :=
  match classes with
  | [] => Ok d
  | c :: cs =>
      if py_hashable c then label2idx_from (i + 1) cs (assoc_set d c i)
      else Raise TypeError
  end.

Definition make_label2idx (classes : list json) : py (list (json * Z)) :=
  label2idx_from 0 classes [].

(** [d[i] = c] on a dict with integer keys. *)
Fixpoint int_assoc_set (d : list (Z * json)) (i : Z) (c : json) : list (Z * json) :=
  match d with
  | [] => [(i, c)]
  | (i', c') :: d' =>
      if i' =? i then (i', c) :: d' else (i', c') :: int_assoc_set d' i c
  end.

(** [idx2label = {i: c for c, i in label2idx.items()}] *)
Definition make_idx2label (label2idx : list (json * Z)) : list (Z * json) :=
  fold_left (fun d ci => int_assoc_set d (snd ci) (fst ci)) label2idx [].

Fixpoint int_assoc_get (d : list (Z * json)) (i : Z) : option json :=
  match d with
  | [] => None
  | (i', c) :: d' => if i' =? i then Some c else int_assoc_get d' i
  end.

(** [idx2label[i]] *)
Definition idx_label (idx2label : list (Z * json)) (i : Z) : py json :=
  match int_assoc_get idx2label i with
  | Some c => Ok c
  | None => Raise KeyError
  end.

(** The three assignments of the cell that maps labels to indices. *)
Definition label_cell (labels : list json)
  : py (list json * list (json * Z) * list (Z * json)) :=
  classes ← classes_of labels;
  label2idx ← make_label2idx classes;
  Ok (classes, label2idx, make_idx2label label2idx).

(** The items [(c, i), (c', i + 1), ...] of an enumeration. *)
Fixpoint enumerate_from (i : Z) (classes : list json) : list (json * Z) :=
  match classes with
  | [] => []
  | c :: cs => (c, i) :: enumerate_from (i + 1) cs
  end.

Definition list_label_entries : list AnnotationEntry :=
  [ mkEntry (JStr "a.png") [ mkObject (JList [JStr "ring"]) 1 2 3 4 ] ].

(** ** Fetching from the dataset *)

(** The exception [e] is raised, for the record [rec], by one of the three
    calls that [__getitem__] makes outside its own bookkeeping:
    [Image.open(...).convert('RGB')], [img.crop(...)] on the opened image,
    or the transform on the crop. *)
Definition raised_by_call {Tensor : Type} (fs : gmap string file)
    (self : MalariaDataset Tensor) (rec : record) (e : exn) : Prop :=
  exists (name : string) (x y w h : Z),
    image rec = JStr name /\ bbox rec = [x; y; w; h] /\
    (image_open fs (path_join DATA_DIR name) = Raise e \/
     exists img : Image,
       image_open fs (path_join DATA_DIR name) = Ok img /\
       (image_crop img x y (x + w) (y + h) = Raise e \/
        exists (crop : Image) (f : Image -> py Tensor),
          image_crop img x y (x + w) (y + h) = Ok crop /\
          transform Tensor self = Some f /\ f crop = Raise e)).

(** A dataset over the sample records, without a transform. *)
Definition plain_dataset : MalariaDataset (list Z) :=
  mkDataset (list Z) sample_records None.

(** What the label cell computes for the sample records. *)
Definition sample_classes : list json := [JStr "ring"; JStr "schizont"].
Definition sample_idx2label : list (Z * json) := [(0, JStr "ring"); (1, JStr "schizont")].

(** ** Splitting relabelled records *)

(** A change of the label that leaves image and box alone. *)
Definition blind (r : record) : record :=
  mkRecord (image r) (JStr "cell") (bbox r).

(** The sample world with every label blinded. *)
Definition blind_world : world MT.state :=
  mkWorld {[ 1%positive := map blind sample_records ]} (MT.seed 42).

(** ** Sums over the confusion matrix *)

Definition sum_Z (l : list Z) : Z := foldr Z.add 0 l.

(** The sum of all entries. *)
Definition matrix_sum (m : list (list Z)) : Z := sum_Z (map sum_Z m).

(** The sum of the entries [m[i][i]], [m[i+1][i+1]], ... of the rows
    from row [i] on. *)
Fixpoint trace_from (i : nat) (rows : list (list Z)) : Z :=
  match rows with
  | [] => 0
  | row :: rows' => default 0 (row !! i) + trace_from (S i) rows'
  end.

Definition matrix_trace (m : list (list Z)) : Z := trace_from 0 m.

(** The number of pairs with true label [t]: the support of [t]. *)
Definition support (pairs : list (Z * Z)) (t : Z) : Z :=
  Z.of_nat (length (List.filter (fun tp => fst tp =? t) pairs)).

(** ** The statistics of an epoch *)

(** What one batch shows to the statistics: the value of [loss.item()]
    and, for each sample of the batch, its label and the class of its
    largest output. *)
Record batch_result : Type := mkBatchResult {
  batch_loss : Q;
  batch_pairs : list (Z * Z)
}.

Section Epoch.

Variable fl : Q -> Q.

(** The framework behind the globals [model], [criterion] and
    [optimizer]: [model.train()] and [model.eval()] switch the mode of
    the network; the forward pass with the criterion yields the loss and
    the predictions of a batch; [zero_grad], [backward] and [step]
    change the network.  The loader is the sequence of batches it
    yields. *)
Variable Model : Type.
Variable Batch : Type.
Variable set_training : bool -> Model -> Model.
Variable forward : Model -> Batch -> batch_result.
Variable optimizer_step : Model -> Batch -> Model.

(** The counters [running_loss], [correct] and [total]. *)
Definition counters : Type := (Q * Z * Z)%type.

(** [running_loss += loss.item() * images.size(0)],
    [correct += preds.eq(labels).sum().item()],
    [total += labels.size(0)]. *)
Definition update_counters (c : counters) (r : batch_result) : counters :=
  let '(running_loss, correct, total) := c in
  let size := Z.of_nat (length (batch_pairs r)) in
  (fl (running_loss + fl (batch_loss r * fl (inject_Z size))),
   correct + count_agree (batch_pairs r),
   total + size).

(** [return running_loss / total, correct / total]: a float divided by
    an integer, and the true division of two integers. *)
Definition epoch_result (c : counters) : py (Q * Q) :=
  let '(running_loss, correct, total) := c in
  if total =? 0 then Raise ZeroDivisionError
  else Ok (fl (running_loss / fl (inject_Z total)),
           fl (inject_Z correct / inject_Z total)).

(** [train_epoch(loader)]: the network as the call leaves it, and what
    the call returns. *)
Definition train_epoch (model : Model) (loader : list Batch)
  : Model * py (Q * Q) :=
  let model := set_training true model in
  let '(model, c) :=
    fold_left (fun (s : Model * counters) (b : Batch) =>
                 let '(m, c) := s in
                 let r := forward m b in
                 let m := optimizer_step m b in
                 (m, update_counters c r))
              loader (model, (0%Q, 0, 0)) in
  (model, epoch_result c).

(** [eval_epoch(loader)] *)
Definition eval_epoch (model : Model) (loader : list Batch)
  : Model * py (Q * Q) :=
  let model := set_training false model in
  let c := fold_left (fun c b => update_counters c (forward model b))
                     loader (0%Q, 0, 0) in
  (model, epoch_result c).

(** The loop of the test cell, which extends [all_preds] and
    [all_labels] batch by batch. *)
Definition test_predictions (model : Model) (loader : list Batch)
  : Model * list (Z * Z) :=
  let model := set_training false model in
  (model,
   fold_left (fun all b => all ++ batch_pairs (forward model b)) loader []).

(** The results of the batches of a training epoch: each batch is
    judged by the network as the steps before it left it. *)
Fixpoint train_trace (model : Model) (loader : list Batch) : list batch_result :=
  match loader with
  | [] => []
  | b :: loader' => forward model b :: train_trace (optimizer_step model b) loader'
  end.

End Epoch.

(** A stand-in network for examples: it counts its steps, predicts the
    class that a batch lists beside each label, and reports the loss one
    half. *)
Definition counting_forward (m : Z) (b : list (Z * Z)) : batch_result :=
  mkBatchResult (1 # 2) b.

Definition counting_step (m : Z) (b : list (Z * Z)) : Z := m + 1.

Definition sample_loader : list (list (Z * Z)) := [[(0, 0); (0, 1)]; [(1, 1)]].

Definition counting_mode (training : bool) (m : Z) : Z := m.

(** ** Counters in good order *)

(** A counter in good order: every count is at least one and no two keys
    are equal. *)
Inductive counter_ok : counter -> Prop :=
  | counter_ok_nil : counter_ok []
  | counter_ok_cons (k : json) (n : Z) (c : counter) :
      1 <= n ->
      Forall (fun kn => py_eqb (fst kn) k = false) c ->
      counter_ok c ->
      counter_ok ((k, n) :: c).

(** * Properties

    Every statement below is about the definitions above. *)

(** ** The definitions on small inputs *)

Example slice_negative_bound : py_slice [1; 2; 3; 4] (Some (-1)) None = [4].
Proof. reflexivity. Qed.

Example slice_clamped : py_slice [1; 2; 3; 4] (Some 2) (Some 9) = [3; 4].
Proof. reflexivity. Qed.

Example slice_crossed : py_slice [1; 2; 3; 4] (Some 3) (Some 1) = [].
Proof. reflexivity. Qed.

Example int_of_float_neg : int_of_float (-7 # 2) = -3.
Proof. reflexivity. Qed.

Example np_unique_example : np_unique [2; 0; 2; 1; 0] = [0; 1; 2].
Proof. reflexivity. Qed.

(** [(0.7).as_integer_ratio()] and [(0.7 + 0.15).as_integer_ratio()] *)
Example binary64_literals :
  Qred (Binary64.round (7 # 10)) = (3152519739159347 # 4503599627370496)%Q /\
  Qred (Binary64.round (Binary64.round (7 # 10) + Binary64.round (15 # 100)))
    = (7656119366529843 # 9007199254740992)%Q.
Proof. split; vm_compute; reflexivity. Qed.

(** [float(2**53 + 1)], a tie, goes to the even neighbour. *)
Example binary64_tie :
  Qred (Binary64.round (inject_Z (2 ^ 53 + 1))) = inject_Z (2 ^ 53).
Proof. vm_compute. reflexivity. Qed.

(** [random.seed(42); [random.getrandbits(32) for _ in range(2)]] *)
Example mt_seed_42 :
  let (a, s) := MT.genrand_uint32 (MT.seed 42) in
  (a, fst (MT.genrand_uint32 s)) = (2746317213, 478163327).
Proof. vm_compute. reflexivity. Qed.

(** [random.seed(42); a = list(range(10)); random.shuffle(a); a] *)
Example mt_shuffle_42 :
  (r ← shuffle MT.randbelow (seq 0 10) (MT.seed 42); Ok (fst r))
  = Ok [7; 3; 2; 8; 5; 6; 9; 4; 0; 1]%nat.
Proof. vm_compute. reflexivity. Qed.

(** ** The annotation flattener *)

Section FlattenerFacts.

Variable int_of_str : string -> option Z.


Lemma py_mapM_ok {A B : Type} (f : A -> py B) (g : A -> B) (l : list A) :
  Forall (fun a => f a = Ok (g a)) l -> py_mapM f l = Ok (map g l).
Proof.
  induction 1 as [|a l Ha _ IH]; simpl; [reflexivity|].
  rewrite Ha; simpl. rewrite IH. reflexivity.
Qed.

Lemma py_mapM_rel {A B C : Type} (f : A -> py B) (R : A -> C -> Prop)
    (g : C -> B) (l : list A) (cs : list C) :
  (forall a c, R a c -> f a = Ok (g c)) ->
  Forall2 R l cs -> py_mapM f l = Ok (map g cs).
Proof.
  intros Hf. induction 1 as [|a c l cs Hac _ IH]; simpl; [reflexivity|].
  rewrite (Hf _ _ Hac); simpl. rewrite IH. reflexivity.
Qed.

Lemma bbox_coord_represented d b k z :
  dict_get d "bbox" = Some (JDict b) ->
  represents_coord int_of_str b k z ->
  bbox_coord int_of_str (JDict d) k = Ok z.
Proof.
  intros Hb (c & Hc & Hz). unfold bbox_coord; simpl.
  rewrite Hb; simpl. rewrite Hc; simpl. exact Hz.
Qed.

Lemma flatten_object_represented img j o :
  represents_object int_of_str j o ->
  flatten_object int_of_str img j =
    Ok (mkRecord img (obj_type o) [obj_x o; obj_y o; obj_w o; obj_h o]).
Proof.
  intros (d & b & -> & Ht & Hb & Hx & Hy & Hw & Hh).
  unfold flatten_object. simpl. rewrite Ht. simpl.
  rewrite (bbox_coord_represented _ _ _ _ Hb Hx); simpl.
  rewrite (bbox_coord_represented _ _ _ _ Hb Hy); simpl.
  rewrite (bbox_coord_represented _ _ _ _ Hb Hw); simpl.
  rewrite (bbox_coord_represented _ _ _ _ Hb Hh); simpl.
  reflexivity.
Qed.

Lemma flatten_entry_represented j e :
  represents_entry int_of_str j e ->
  flatten_entry int_of_str j = Ok (records_of_entry e).
Proof.
  intros (d & objs & -> & Hn & Ho & Hall).
  unfold flatten_entry. simpl. rewrite Hn. simpl. rewrite Ho. simpl.
  unfold records_of_entry.
  apply (py_mapM_rel _ (represents_object int_of_str)); [|exact Hall].
  intros a c Hac. apply flatten_object_represented. exact Hac.
Qed.

Lemma dataset_records_represented js entries :
  Forall2 (represents_entry int_of_str) js entries ->
  dataset_records int_of_str (JList js) = Ok (records_of entries).
Proof.
  intros Hall. unfold dataset_records. simpl.
  rewrite (py_mapM_rel _ (represents_entry int_of_str) records_of_entry js entries);
    [reflexivity| |exact Hall].
  intros a c Hac. apply flatten_entry_represented. exact Hac.
Qed.

Lemma length_records_of entries :
  length (records_of entries) = total_objects entries.
Proof.
  unfold records_of, total_objects.
  induction entries as [|e es IH]; simpl; [reflexivity|].
  rewrite length_app, IH. unfold records_of_entry. rewrite length_map.
  reflexivity.
Qed.

(** An object of the right shape either has every field, and yields a
    record, or lacks one, and raises [KeyError]. *)
Lemma flatten_object_shape img j :
  object_shape int_of_str j = true ->
  if object_complete j then is_ok (flatten_object int_of_str img j) = true
  else flatten_object int_of_str img j = Raise KeyError.
Proof.
  destruct j as [| | | | |l|d]; try discriminate. simpl.
  unfold flatten_object, bbox_coord, has_key; simpl.
  destruct (dict_get d "type") as [t|]; simpl; [|reflexivity].
  destruct (dict_get d "bbox") as [v|]; simpl; [|reflexivity].
  destruct v as [| | | | |l|b]; try discriminate. simpl.
  unfold coord_shape, has_key.
  destruct (dict_get b "x") as [cx|]; simpl; [|reflexivity].
  destruct (py_int int_of_str cx); simpl; [|discriminate].
  destruct (dict_get b "y") as [cy|]; simpl; [|reflexivity].
  destruct (py_int int_of_str cy); simpl; [|discriminate].
  destruct (dict_get b "w") as [cw|]; simpl; [|reflexivity].
  destruct (py_int int_of_str cw); simpl; [|discriminate].
  destruct (dict_get b "h") as [ch|]; simpl; [|reflexivity].
  destruct (py_int int_of_str ch); simpl; [|discriminate].
  reflexivity.
Qed.

Lemma flatten_objects_shape img l :
  forallb (object_shape int_of_str) l = true ->
  if forallb object_complete l
  then is_ok (py_mapM (flatten_object int_of_str img) l) = true
  else py_mapM (flatten_object int_of_str img) l = Raise KeyError.
Proof.
  induction l as [|j l IH]; simpl; [reflexivity|].
  intros [Hj Hl]%andb_prop.
  pose proof (flatten_object_shape img j Hj) as Hobj.
  specialize (IH Hl).
  destruct (object_complete j); simpl.
  - destruct (flatten_object int_of_str img j); [simpl|discriminate].
    destruct (forallb object_complete l).
    + destruct (py_mapM _ l); [reflexivity|discriminate].
    + rewrite IH. reflexivity.
  - rewrite Hobj. reflexivity.
Qed.

Lemma flatten_entry_shape j :
  entry_shape int_of_str j = true ->
  if entry_complete j then is_ok (flatten_entry int_of_str j) = true
  else flatten_entry int_of_str j = Raise KeyError.
Proof.
  destruct j as [| | | | |l|d]; try discriminate. simpl.
  unfold flatten_entry, has_key; simpl.
  destruct (dict_get d "image_name") as [nm|]; simpl; [|reflexivity].
  destruct (dict_get d "objects") as [v|]; simpl; [|reflexivity].
  destruct v as [| | | | |l|b]; try discriminate. simpl.
  apply flatten_objects_shape.
Qed.

Lemma flatten_entries_shape js :
  forallb (entry_shape int_of_str) js = true ->
  if forallb entry_complete js
  then is_ok (dataset_records int_of_str (JList js)) = true
  else dataset_records int_of_str (JList js) = Raise KeyError.
Proof.
  unfold dataset_records; simpl.
  induction js as [|j js IH]; simpl; [reflexivity|].
  intros [Hj Hl]%andb_prop.
  pose proof (flatten_entry_shape j Hj) as Hent.
  specialize (IH Hl).
  destruct (entry_complete j); simpl.
  - destruct (flatten_entry int_of_str j); [simpl|discriminate].
    destruct (forallb entry_complete js).
    + destruct (py_mapM _ js); [reflexivity|discriminate].
    + destruct (py_mapM _ js); [discriminate|].
      simpl in IH. injection IH as ->. reflexivity.
  - rewrite Hent. reflexivity.
Qed.

End FlattenerFacts.

(** C4: on a well-formed annotation file the flattener returns exactly one
    record per object annotation, N records for N objects in total, in
    source order (entry by entry, and object by object within an entry);
    each record carries the image reference of its entry and the label and
    bounding box of its object. *)
Theorem flattener_one_record_per_object
    (int_of_str : string -> option Z) (js : list json)
    (entries : list AnnotationEntry) :
  Forall2 (represents_entry int_of_str) js entries ->
  dataset_records int_of_str (JList js) = Ok (records_of entries) /\
  length (records_of entries) = total_objects entries /\
  (forall es1 e es2, entries = es1 ++ e :: es2 ->
     records_of entries = records_of es1 ++ records_of_entry e ++ records_of es2) /\
  (forall e os1 o os2, objects e = os1 ++ o :: os2 ->
     records_of_entry e !! length os1 =
       Some (mkRecord (image_name e) (obj_type o)
               [obj_x o; obj_y o; obj_w o; obj_h o])).
Proof.
  intros Hall. split; [|split; [|split]].
  - apply dataset_records_represented. exact Hall.
  - apply length_records_of.
  - intros es1 e es2 ->. unfold records_of.
    rewrite map_app, concat_app. reflexivity.
  - intros e os1 o os2 Ho. unfold records_of_entry. rewrite Ho.
    rewrite list_lookup_fmap, lookup_app_r by lia.
    replace (length os1 - length os1)%nat with 0%nat by lia. reflexivity.
Qed.

Lemma sample_annotations_represented :
  Forall2 (represents_entry decimal_literal) sample_annotations sample_entries.
Proof.
  unfold sample_annotations, sample_entries, json_entry, json_object, json_bbox.
  repeat constructor;
    (eexists _, _; repeat split; try reflexivity);
    repeat constructor;
    (eexists _, _; repeat split; try reflexivity);
    eexists; split; reflexivity.
Qed.

Lemma flattener_one_record_per_object_witness :
  dataset_records decimal_literal (JList sample_annotations)
    = Ok (records_of sample_entries) /\
  length (records_of sample_entries) = 4%nat.
Proof.
  destruct (flattener_one_record_per_object decimal_literal
              sample_annotations sample_entries sample_annotations_represented)
    as (Hrun & Hlen & _).
  split; [exact Hrun | exact Hlen].
Defined.

(** C7, the claim as stated fails: a bounding box of negative width and
    height is flattened like any other, and a missing field raises Python's
    [KeyError]; nothing raises [MalformedAnnotationError]. *)
Lemma flattener_malformed_counterexample :
  dataset_records decimal_literal (JList negative_box_annotations)
    = Ok [mkRecord (JStr "a.png") (JStr "ring") [10; 20; -5; -8]] /\
  ~ fails_with (dataset_records decimal_literal (JList negative_box_annotations))
      "MalformedAnnotationError" /\
  dataset_records decimal_literal (JList missing_type_annotations) = Raise KeyError /\
  ~ fails_with (dataset_records decimal_literal (JList missing_type_annotations))
      "MalformedAnnotationError".
Proof.
  split; [reflexivity|]. split.
  - intros (e & He & _). discriminate He.
  - split; [reflexivity|].
    intros (e & He & Hn). injection He as <-. discriminate Hn.
Qed.

(** C7, amended: on an annotation file of the right shape (entries and
    objects are dicts, [objects] is a list, [bbox] a dict, coordinates are
    integer-convertible) the flattener raises [KeyError] when some entry
    or object lacks a required field, and returns when none does; the sign
    of a width or height plays no part. *)
Theorem flattener_missing_field_key_error
    (int_of_str : string -> option Z) (js : list json) :
  forallb (entry_shape int_of_str) js = true ->
  if forallb entry_complete js
  then returns (dataset_records int_of_str (JList js))
  else fails_with (dataset_records int_of_str (JList js)) "KeyError".
Proof.
  intros Hshape. pose proof (flatten_entries_shape int_of_str js Hshape) as H.
  destruct (forallb entry_complete js).
  - destruct (dataset_records int_of_str (JList js)) as [recs|e];
      [exists recs; reflexivity | discriminate H].
  - exists KeyError. split; [exact H | reflexivity].
Qed.

Lemma flattener_missing_field_key_error_witness :
  fails_with (dataset_records decimal_literal (JList missing_type_annotations))
    "KeyError" /\
  returns (dataset_records decimal_literal (JList negative_box_annotations)).
Proof.
  split.
  - exact (flattener_missing_field_key_error decimal_literal
             missing_type_annotations eq_refl).
  - exact (flattener_missing_field_key_error decimal_literal
             negative_box_annotations eq_refl).
Defined.

(** ** Rounding to binary64 *)

Section Binary64Facts.

Import Binary64.
#[local] Open Scope Q_scope.

Lemma pow2_pos (e : Z) : 0 < 2 ^ e.
Proof. apply Qpower_0_lt. reflexivity. Qed.

Lemma pow2_le (e e' : Z) : (e <= e')%Z -> 2 ^ e <= 2 ^ e'.
Proof. intros H. apply Qpower_le_compat_l; [exact H | discriminate]. Qed.

Lemma pow2_plus (e e' : Z) : 2 ^ (e + e') == 2 ^ e * 2 ^ e'.
Proof. apply Qpower_plus. discriminate. Qed.

Lemma pow2_inject (n : Z) : (0 <= n)%Z -> inject_Z (2 ^ n) == 2 ^ n.
Proof. intros H. apply (Zpower_Qpower 2 n H). Qed.

Lemma ilog2_spec (q : Q) :
  0 < q -> 2 ^ ilog2 q <= q /\ q < 2 ^ (ilog2 q + 1).
Proof.
  intros Hq. destruct q as [n d]. unfold ilog2. cbn [Qnum Qden].
  assert (Hn : (0 < n)%Z) by (unfold Qlt in Hq; simpl in Hq; lia).
  set (a := Z.log2 n). set (b := Z.log2 (Z.pos d)).
  destruct (Z.log2_spec n Hn) as [Hn1 Hn2]. fold a in Hn1, Hn2.
  destruct (Z.log2_spec (Z.pos d) ltac:(lia)) as [Hd1 Hd2]. fold b in Hd1, Hd2.
  assert (Ha : (0 <= a)%Z) by apply Z.log2_nonneg.
  assert (Hb : (0 <= b)%Z) by apply Z.log2_nonneg.
  assert (Hdpos : 0 < inject_Z (Z.pos d)) by reflexivity.
  assert (Hq' : n # d == inject_Z n / inject_Z (Z.pos d)) by apply Qmake_Qdiv.
  assert (Hup : n # d < 2 ^ (a - b + 1)).
  { rewrite Hq'. apply Qlt_shift_div_r; [exact Hdpos|].
    apply Qlt_le_trans with (2 ^ (a - b + 1) * 2 ^ b).
    - rewrite <- pow2_plus. replace (a - b + 1 + b)%Z with (Z.succ a) by lia.
      rewrite <- pow2_inject by lia. rewrite <- Zlt_Qlt. exact Hn2.
    - apply Qmult_le_l; [apply pow2_pos|].
      rewrite <- pow2_inject by lia. rewrite <- Zle_Qle. exact Hd1. }
  assert (Hlow : 2 ^ (a - b - 1) <= n # d).
  { rewrite Hq'. apply Qle_shift_div_l; [exact Hdpos|].
    apply Qle_trans with (2 ^ (a - b - 1) * 2 ^ (Z.succ b)).
    - apply Qmult_le_l; [apply pow2_pos|].
      rewrite <- pow2_inject by lia. rewrite <- Zle_Qle. lia.
    - rewrite <- pow2_plus. replace (a - b - 1 + Z.succ b)%Z with a by lia.
      rewrite <- pow2_inject by lia. rewrite <- Zle_Qle. exact Hn1. }
  destruct (Qle_bool (2 ^ (a - b)) (n # d)) eqn:Hcmp.
  - apply Qle_bool_iff in Hcmp. split; assumption.
  - assert (Hlt : n # d < 2 ^ (a - b)).
    { apply Qnot_le_lt. intros Hle. apply Qle_bool_iff in Hle. congruence. }
    split; [exact Hlow|].
    replace (a - b - 1 + 1)%Z with (a - b)%Z by lia. exact Hlt.
Qed.

Lemma ilog2_le (x y : Q) : 0 < x -> x <= y -> (ilog2 x <= ilog2 y)%Z.
Proof.
  intros Hx Hxy.
  destruct (ilog2_spec x Hx) as [Hx1 _].
  destruct (ilog2_spec y (Qlt_le_trans _ _ _ Hx Hxy)) as [_ Hy2].
  assert (H : 2 ^ ilog2 x < 2 ^ (ilog2 y + 1)).
  { eapply Qle_lt_trans; [exact Hx1|]. eapply Qle_lt_trans; eassumption. }
  apply Qpower_lt_compat_l_inv in H; [lia | reflexivity].
Qed.

Lemma rne_bounds (s : Q) : (Qfloor s <= rne s <= Qfloor s + 1)%Z.
Proof.
  unfold rne. destruct (s - inject_Z (Qfloor s) ?= 1 # 2); [|lia..].
  destruct (Z.even (Qfloor s)); lia.
Qed.

Lemma rne_inject (k : Z) : rne (inject_Z k) = k.
Proof.
  unfold rne. rewrite Qfloor_Z.
  assert (E : inject_Z k - inject_Z k == 0) by ring.
  destruct (Qcompare_spec (inject_Z k - inject_Z k) (1 # 2)) as [H|H|H];
    [exfalso; rewrite E in H; discriminate H | reflexivity
    | exfalso; rewrite E in H; discriminate H].
Qed.

Lemma rne_mono (s s' : Q) : s <= s' -> (rne s <= rne s')%Z.
Proof.
  intros Hs. pose proof (Qfloor_resp_le _ _ Hs) as Hf.
  pose proof (rne_bounds s) as Hb. pose proof (rne_bounds s') as Hb'.
  destruct (Z.eq_dec (Qfloor s) (Qfloor s')) as [Heq|Hne]; [|lia].
  unfold rne in *. rewrite <- Heq in *.
  set (f := Qfloor s) in *.
  destruct (Qcompare_spec (s - inject_Z f) (1 # 2)) as [Hc|Hc|Hc];
    destruct (Qcompare_spec (s' - inject_Z f) (1 # 2)) as [Hc'|Hc'|Hc'];
    try lia; try (destruct (Z.even f); lia); exfalso; lra.
Qed.

Lemma rne_nonneg (s : Q) : 0 <= s -> (0 <= rne s)%Z.
Proof.
  intros Hs. rewrite <- (rne_inject 0). apply rne_mono. exact Hs.
Qed.

Lemma round_pos_nonneg (q : Q) : 0 <= q -> 0 <= round_pos q.
Proof.
  intros Hq. unfold round_pos. apply Qmult_le_0_compat.
  - change 0 with (inject_Z 0). rewrite <- Zle_Qle. apply rne_nonneg.
    apply Qle_shift_div_l; [apply pow2_pos|]. lra.
  - apply Qlt_le_weak, pow2_pos.
Qed.

Lemma round_pos_upper (q : Q) :
  0 < q -> round_pos q <= 2 ^ (Z.max (ilog2 q) emin + 1).
Proof.
  intros Hq. destruct (ilog2_spec q Hq) as [_ Hup].
  unfold round_pos, grid. set (e := Z.max (ilog2 q) emin).
  assert (Hpow : 2 ^ (e + 1) == inject_Z (2 ^ 53) * 2 ^ (e - 52)).
  { replace (e + 1)%Z with (53 + (e - 52))%Z by lia. rewrite pow2_plus.
    rewrite <- pow2_inject by lia. reflexivity. }
  rewrite Hpow. apply Qmult_le_r; [apply pow2_pos|].
  rewrite <- Zle_Qle.
  apply Z.le_trans with (rne (inject_Z (2 ^ 53)));
    [|rewrite rne_inject; apply Z.le_refl].
  apply rne_mono.
  apply Qle_shift_div_r; [apply pow2_pos|]. rewrite <- Hpow.
  apply Qlt_le_weak. eapply Qlt_le_trans; [exact Hup|].
  apply pow2_le. unfold e. lia.
Qed.

Lemma round_pos_lower (q : Q) :
  0 < q -> (emin <= ilog2 q)%Z -> 2 ^ ilog2 q <= round_pos q.
Proof.
  intros Hq He. destruct (ilog2_spec q Hq) as [Hlow _].
  unfold round_pos, grid. rewrite Z.max_l by lia. set (e := ilog2 q) in *.
  assert (Hpow : 2 ^ e == inject_Z (2 ^ 52) * 2 ^ (e - 52)).
  { replace e with (52 + (e - 52))%Z at 1 by lia. rewrite pow2_plus.
    rewrite <- pow2_inject by lia. reflexivity. }
  rewrite Hpow at 1. apply Qmult_le_r; [apply pow2_pos|].
  rewrite <- Zle_Qle.
  apply Z.le_trans with (rne (inject_Z (2 ^ 52)));
    [rewrite rne_inject; apply Z.le_refl|].
  apply rne_mono.
  apply Qle_shift_div_l; [apply pow2_pos|]. rewrite <- Hpow. exact Hlow.
Qed.

Lemma round_pos_mono (x y : Q) : 0 < x -> x <= y -> round_pos x <= round_pos y.
Proof.
  intros Hx Hxy.
  assert (Hy : 0 < y) by (eapply Qlt_le_trans; eassumption).
  pose proof (ilog2_le x y Hx Hxy) as He.
  destruct (Z.eq_dec (Z.max (ilog2 x) emin) (Z.max (ilog2 y) emin)) as [Heq|Hne].
  - unfold round_pos, grid. rewrite <- Heq.
    apply Qmult_le_r; [apply pow2_pos|].
    rewrite <- Zle_Qle. apply rne_mono.
    apply Qmult_le_r; [apply Qinv_lt_0_compat, pow2_pos | exact Hxy].
  - eapply Qle_trans; [apply round_pos_upper; exact Hx|].
    eapply Qle_trans; [|apply round_pos_lower; [exact Hy | lia]].
    apply pow2_le. lia.
Qed.

Lemma round_mono (x y : Q) : x <= y -> round x <= round y.
Proof.
  intros Hxy. unfold round.
  destruct x as [nx dx], y as [ny dy]. cbn [Qnum].
  assert (Hz : (nx * Z.pos dy <= ny * Z.pos dx)%Z) by exact Hxy.
  destruct nx as [|px|px], ny as [|py|py]; try (exfalso; lia).
  - apply Qle_refl.
  - apply round_pos_nonneg. discriminate.
  - apply round_pos_mono; [reflexivity | exact Hxy].
  - assert (H := round_pos_nonneg (- (Z.neg px # dx)) ltac:(discriminate)). lra.
  - assert (H := round_pos_nonneg (- (Z.neg px # dx)) ltac:(discriminate)).
    assert (H' := round_pos_nonneg (Z.pos py # dy) ltac:(discriminate)). lra.
  - apply Qopp_le_compat. apply round_pos_mono; [reflexivity|].
    apply Qopp_le_compat. exact Hxy.
Qed.

Lemma round_zero : round 0 == 0.
Proof. reflexivity. Qed.

Lemma round_proper (a b : Q) : a == b -> round a == round b.
Proof.
  intros Hab. apply Qle_antisym; apply round_mono; rewrite Hab; apply Qle_refl.
Qed.

End Binary64Facts.

Section Binary64Errors.

Import Binary64.
#[local] Open Scope Q_scope.

Lemma rne_proper (s s' : Q) : s == s' -> rne s = rne s'.
Proof.
  intros H. apply Z.le_antisymm; apply rne_mono; rewrite H; apply Qle_refl.
Qed.

(** The integers below [2^53] are doubles. *)
Lemma round_integer (k : Z) :
  (0 <= k < 2 ^ 53)%Z -> round (inject_Z k) == inject_Z k.
Proof.
  intros Hk. destruct k as [|p|p]; [reflexivity| |lia].
  change (round (inject_Z (Z.pos p))) with (round_pos (inject_Z (Z.pos p))).
  set (q := inject_Z (Z.pos p)).
  assert (Hq : 0 < q) by reflexivity.
  destruct (ilog2_spec q Hq) as [Hlo Hhi].
  assert (He0 : (0 <= ilog2 q)%Z).
  { destruct (Z_lt_le_dec (ilog2 q) 0) as [Hneg|Hnn]; [exfalso|exact Hnn].
    pose proof (pow2_le (ilog2 q + 1) 0 ltac:(lia)) as Hp.
    change (2 ^ 0) with 1 in Hp.
    assert (H1 : 1 <= q).
    { change 1 with (inject_Z 1). unfold q. rewrite <- Zle_Qle. lia. }
    lra. }
  assert (He1 : (ilog2 q <= 52)%Z).
  { assert (H : 2 ^ ilog2 q < 2 ^ 53).
    { eapply Qle_lt_trans; [exact Hlo|].
      rewrite <- (pow2_inject 53) by lia. unfold q. rewrite <- Zlt_Qlt. lia. }
    apply Qpower_lt_compat_l_inv in H; [lia | reflexivity]. }
  unfold round_pos, grid. rewrite Z.max_l by (unfold emin; lia).
  set (d := (52 - ilog2 q)%Z). replace (ilog2 q - 52)%Z with (- d)%Z by lia.
  assert (Hd : (0 <= d)%Z) by lia.
  assert (Hpos : 0 < inject_Z (2 ^ d)).
  { rewrite pow2_inject by lia. apply pow2_pos. }
  assert (Hpow : 2 ^ (- d) == / inject_Z (2 ^ d)).
  { rewrite Qpower_opp, pow2_inject by lia. reflexivity. }
  assert (Harg : q / 2 ^ (- d) == inject_Z (Z.pos p * 2 ^ d)).
  { rewrite Hpow, inject_Z_mult. unfold q. field. lra. }
  rewrite (rne_proper _ _ Harg), rne_inject, Hpow, inject_Z_mult.
  unfold q. field. lra.
Qed.

(** Rounding to the nearest integer moves a value by at most one half. *)
Lemma rne_near (s : Q) :
  s - (1 # 2) <= inject_Z (rne s) /\ inject_Z (rne s) <= s + (1 # 2).
Proof.
  pose proof (Qfloor_le s) as Hlo.
  pose proof (Qlt_floor s) as Hhi. rewrite inject_Z_plus in Hhi.
  change (inject_Z 1) with 1 in Hhi.
  unfold rne.
  destruct (Qcompare_spec (s - inject_Z (Qfloor s)) (1 # 2)) as [Hc|Hc|Hc].
  - destruct (Z.even (Qfloor s)).
    + split; lra.
    + rewrite inject_Z_plus. change (inject_Z 1) with 1. split; lra.
  - split; lra.
  - rewrite inject_Z_plus. change (inject_Z 1) with 1. split; lra.
Qed.

(** The relative error of rounding a normal number is at most [2^-53]. *)
Lemma round_error (q : Q) :
  0 < q -> (emin <= ilog2 q)%Z ->
  q * (1 - (1 # 2 ^ 53)) <= round q /\ round q <= q * (1 + (1 # 2 ^ 53)).
Proof.
  intros Hq He.
  assert (Hround : round q = round_pos q).
  { unfold round. destruct q as [[|n|n] d]; try reflexivity;
      exfalso; unfold Qlt in Hq; simpl in Hq; lia. }
  rewrite Hround. unfold round_pos, grid. rewrite Z.max_l by lia.
  destruct (ilog2_spec q Hq) as [Hlow _].
  set (e := ilog2 q) in *.
  assert (HP : 2 ^ (e - 52) == 2 ^ e * (1 # 2 ^ 52)).
  { replace (e - 52)%Z with (e + -52)%Z by lia. rewrite pow2_plus. reflexivity. }
  pose proof (pow2_pos (e - 52)) as HPpos.
  set (P := 2 ^ (e - 52)) in *.
  set (E := 2 ^ e) in *.
  pose proof (rne_near (q / P)) as [Hn1 Hn2].
  set (R := inject_Z (rne (q / P))) in *.
  assert (HsP : q / P * P == q) by (field; lra).
  assert (H1 : (q / P - (1 # 2)) * P <= R * P).
  { apply Qmult_le_compat_r; [exact Hn1 | lra]. }
  assert (H2 : R * P <= (q / P + (1 # 2)) * P).
  { apply Qmult_le_compat_r; [exact Hn2 | lra]. }
  assert (E1 : (q / P - (1 # 2)) * P == q - (1 # 2) * P).
  { rewrite <- HsP at 2. ring. }
  assert (E2 : (q / P + (1 # 2)) * P == q + (1 # 2) * P).
  { rewrite <- HsP at 2. ring. }
  rewrite E1 in H1. rewrite E2 in H2.
  clearbody P E R.
  change (2 ^ 52)%positive with 4503599627370496%positive in *.
  change (2 ^ 53)%positive with 9007199254740992%positive in *.
  split; lra.
Qed.

Lemma inverse_le (c c' : Z) :
  (1 <= c <= c')%Z -> 1 / inject_Z c' <= 1 / inject_Z c.
Proof.
  intros Hc.
  assert (H0 : 0 < inject_Z c).
  { change 0 with (inject_Z 0). rewrite <- Zlt_Qlt. lia. }
  assert (H0' : 0 < inject_Z c').
  { change 0 with (inject_Z 0). rewrite <- Zlt_Qlt. lia. }
  assert (Hle : inject_Z c <= inject_Z c') by (rewrite <- Zle_Qle; lia).
  apply Qle_shift_div_l; [exact H0|].
  assert (E : 1 / inject_Z c' * inject_Z c == inject_Z c / inject_Z c').
  { field. lra. }
  rewrite E. apply Qle_shift_div_r; [exact H0'|]. lra.
Qed.

(** One over a count below [2^53] is rounded with a relative error of at
    most [2^-53]. *)
Lemma inverse_count_error (c : Z) :
  (1 <= c < 2 ^ 53)%Z ->
  1 - (1 # 2 ^ 53) <= inject_Z c * round (1 / inject_Z c) /\
  inject_Z c * round (1 / inject_Z c) <= 1 + (1 # 2 ^ 53).
Proof.
  intros Hc.
  assert (H0 : 0 < inject_Z c).
  { change 0 with (inject_Z 0). rewrite <- Zlt_Qlt. lia. }
  assert (Hq : 0 < 1 / inject_Z c).
  { apply Qlt_shift_div_l; [exact H0|]. lra. }
  assert (Hmin : 1 / inject_Z (2 ^ 53) <= 1 / inject_Z c).
  { apply inverse_le. lia. }
  assert (He : (emin <= ilog2 (1 / inject_Z c))%Z).
  { apply Z.le_trans with (ilog2 (1 / inject_Z (2 ^ 53))).
    - vm_compute. discriminate.
    - apply ilog2_le; [reflexivity | exact Hmin]. }
  destruct (round_error (1 / inject_Z c) Hq He) as [H1 H2].
  assert (Hc1 : inject_Z c * (1 / inject_Z c) == 1) by (field; lra).
  assert (H1' : inject_Z c * (1 / inject_Z c * (1 - (1 # 2 ^ 53)))
                <= inject_Z c * round (1 / inject_Z c)).
  { rewrite !(Qmult_comm (inject_Z c)).
    apply Qmult_le_compat_r; [exact H1 | lra]. }
  assert (H2' : inject_Z c * round (1 / inject_Z c)
                <= inject_Z c * (1 / inject_Z c * (1 + (1 # 2 ^ 53)))).
  { rewrite !(Qmult_comm (inject_Z c)).
    apply Qmult_le_compat_r; [exact H2 | lra]. }
  rewrite Qmult_assoc, Hc1 in H1'. rewrite Qmult_assoc, Hc1 in H2'.
  change (2 ^ 53)%positive with 9007199254740992%positive in *.
  split; lra.
Qed.

End Binary64Errors.

Section Binary64Range.

Import Binary64.
#[local] Open Scope Q_scope.

Lemma round_opp (q : Q) : round (- q) == - round q.
Proof.
  unfold round. destruct q as [[|n|n] d]; simpl.
  - reflexivity.
  - reflexivity.
  - change (- (Z.neg n # d)) with (Z.pos n # d).
    rewrite Qopp_involutive. reflexivity.
Qed.

(** Rounding keeps a value between two doubles of opposite sign. *)
Lemma round_within (q b : Q) :
  round b == b -> - b <= q <= b -> - b <= round q <= b.
Proof.
  intros Hb [Hlo Hhi]. split.
  - rewrite <- Hb at 1. rewrite <- round_opp. apply round_mono. exact Hlo.
  - rewrite <- Hb. apply round_mono. exact Hhi.
Qed.

Lemma product_within (a t A B : Q) :
  0 <= a <= A -> - B <= t <= B -> - (A * B) <= a * t <= A * B.
Proof.
  intros [Ha0 HaA] [Ht1 Ht2].
  assert (HB : 0 <= B) by lra.
  assert (H1 : a * t <= a * B).
  { rewrite !(Qmult_comm a). apply Qmult_le_compat_r; assumption. }
  assert (H2 : a * (- B) <= a * t).
  { rewrite !(Qmult_comm a). apply Qmult_le_compat_r; assumption. }
  assert (H3 : a * B <= A * B) by (apply Qmult_le_compat_r; assumption).
  assert (E : a * (- B) == - (a * B)) by ring.
  rewrite E in H2. split; lra.
Qed.

(** No float of [split_dataset] overflows for ratios within [max_ratio]
    and a list of fewer than [2^63] items: the sum of the ratios and
    the two products stay far below the largest finite double. *)
Lemma split_floats_finite (n : Z) (t v : Q) :
  (0 <= n < 2 ^ 63)%Z -> ratio_in_range t -> ratio_in_range v ->
  2 ^ 964 <= max_finite /\
  - 2 ^ 901 <= round (t + v) <= 2 ^ 901 /\
  - 2 ^ 964 <= round (round (inject_Z n) * t) <= 2 ^ 964 /\
  - 2 ^ 964 <= round (round (inject_Z n) * round (t + v)) <= 2 ^ 964.
Proof.
  intros Hn [Ht1 Ht2] [Hv1 Hv2]. unfold max_ratio in *.
  assert (E900 : 2 ^ 901 == 2 ^ 900 + 2 ^ 900) by (vm_compute; reflexivity).
  assert (R901 : round (2 ^ 901) == 2 ^ 901) by (vm_compute; reflexivity).
  assert (R964 : round (2 ^ 964) == 2 ^ 964) by (vm_compute; reflexivity).
  assert (R63 : round (2 ^ 63) == 2 ^ 63) by (vm_compute; reflexivity).
  assert (P1 : 2 ^ 63 * 2 ^ 900 <= 2 ^ 964) by (vm_compute; discriminate).
  assert (P2 : 2 ^ 63 * 2 ^ 901 == 2 ^ 964) by (vm_compute; reflexivity).
  assert (Hs : - 2 ^ 901 <= round (t + v) <= 2 ^ 901).
  { apply round_within; [exact R901|]. split; lra. }
  assert (HN : 0 <= round (inject_Z n) <= 2 ^ 63).
  { split.
    - rewrite <- round_zero. apply round_mono.
      change 0 with (inject_Z 0). rewrite <- Zle_Qle. lia.
    - rewrite <- R63. apply round_mono.
      rewrite <- (pow2_inject 63) by lia. rewrite <- Zle_Qle. lia. }
  split; [vm_compute; discriminate|]. split; [exact Hs|]. split.
  - apply round_within; [exact R964|].
    pose proof (product_within _ t _ (2 ^ 900) HN (conj Ht1 Ht2)) as H.
    split; lra.
  - apply round_within; [exact R964|].
    pose proof (product_within _ _ _ (2 ^ 901) HN Hs) as H.
    rewrite P2 in H. exact H.
Qed.

End Binary64Range.

(** ** Slices *)

Section SliceFacts.

Context {A : Type}.
Implicit Types x : list A.

Lemma py_slice_prefix x a :
  0 <= a -> py_slice x None (Some a) = take (Z.to_nat a) x.
Proof.
  intros Ha. unfold py_slice, slice_bound.
  destruct (Z.ltb_spec a 0) as [?|_]; [lia|].
  rewrite Z.sub_0_r. change (Z.to_nat 0) with 0%nat. rewrite drop_0.
  destruct (Z.le_ge_cases a (Z.of_nat (length x))) as [Hle|Hge].
  - rewrite Z.min_l by lia. reflexivity.
  - rewrite Z.min_r by lia. rewrite Nat2Z.id.
    rewrite (take_ge x (length x)) by lia.
    rewrite (take_ge x (Z.to_nat a)) by lia. reflexivity.
Qed.

Lemma py_slice_middle x a b :
  0 <= a <= b ->
  py_slice x (Some a) (Some b) =
    take (Z.to_nat b - Z.to_nat a) (drop (Z.to_nat a) x).
Proof.
  intros Hab. unfold py_slice, slice_bound.
  destruct (Z.ltb_spec a 0) as [?|_]; [lia|].
  destruct (Z.ltb_spec b 0) as [?|_]; [lia|].
  destruct (Z.le_ge_cases a (Z.of_nat (length x))) as [Hle|Hge].
  - rewrite (Z.min_l a) by lia.
    destruct (Z.le_ge_cases b (Z.of_nat (length x))) as [Hle'|Hge'].
    + rewrite Z.min_l by lia. f_equal. lia.
    + rewrite Z.min_r by lia.
      rewrite (take_ge _ (Z.to_nat (Z.of_nat (length x) - a)))
        by (rewrite length_drop; lia).
      rewrite (take_ge _ (Z.to_nat b - Z.to_nat a))
        by (rewrite length_drop; lia).
      reflexivity.
  - rewrite !Z.min_r by lia. rewrite Z.sub_diag, Nat2Z.id.
    rewrite (drop_ge x (length x)) by lia.
    rewrite (drop_ge x (Z.to_nat a)) by lia. rewrite !take_nil. reflexivity.
Qed.

Lemma py_slice_suffix x b :
  0 <= b -> py_slice x (Some b) None = drop (Z.to_nat b) x.
Proof.
  intros Hb. unfold py_slice, slice_bound.
  destruct (Z.ltb_spec b 0) as [?|_]; [lia|].
  destruct (Z.le_ge_cases b (Z.of_nat (length x))) as [Hle|Hge].
  - rewrite Z.min_l by lia. rewrite take_ge by (rewrite length_drop; lia).
    reflexivity.
  - rewrite Z.min_r by lia. rewrite Z.sub_diag, Nat2Z.id.
    rewrite (drop_ge x (length x)) by lia.
    rewrite (drop_ge x (Z.to_nat b)) by lia. apply take_nil.
Qed.

(** Cutting at two ordered, non-negative indices loses and repeats
    nothing. *)
Lemma py_slice_partition x a b :
  0 <= a <= b ->
  py_slice x None (Some a) ++ py_slice x (Some a) (Some b)
    ++ py_slice x (Some b) None = x.
Proof.
  intros Hab.
  rewrite py_slice_prefix, py_slice_middle, py_slice_suffix by lia.
  rewrite app_assoc, take_take_drop.
  replace (Z.to_nat a + (Z.to_nat b - Z.to_nat a))%nat with (Z.to_nat b) by lia.
  apply take_drop.
Qed.

End SliceFacts.

(** ** The shuffle *)

Section ShuffleFacts.

Variable G : Type.
Variable randbelow : G -> nat -> nat * G.

(** [_randbelow(n)] answers below [n]. *)
Hypothesis randbelow_lt :
  forall g n, (0 < n)%nat -> (fst (randbelow g n) < n)%nat.

Lemma swap_items_ok {A : Type} (x : list A) (i j : nat) :
  (i < length x)%nat -> (j < length x)%nat ->
  exists x', swap_items x i j = Ok x' /\ x' ≡ₚ x.
Proof.
  intros Hi Hj. unfold swap_items.
  destruct (lookup_lt_is_Some_2 x i Hi) as [xi Hxi].
  destruct (lookup_lt_is_Some_2 x j Hj) as [xj Hxj].
  rewrite Hxi, Hxj. eexists; split; [reflexivity|].
  apply Permutation_insert_swap; assumption.
Qed.

Lemma shuffle_from_ok {A : Type} (i : nat) :
  forall (x : list A) (g : G),
    (i < length x)%nat \/ i = 0%nat ->
    exists x' g', shuffle_from randbelow i x g = Ok (x', g') /\ x' ≡ₚ x.
Proof.
  induction i as [|i IH]; intros x g Hi; simpl.
  - exists x, g. split; reflexivity.
  - destruct Hi as [Hi|?]; [|discriminate].
    pose proof (randbelow_lt g (S (S i)) ltac:(lia)) as Hj.
    destruct (randbelow g (S (S i))) as [j g1]. simpl in Hj.
    destruct (swap_items_ok x (S i) j) as (x1 & Hswap & Hperm); [lia..|].
    rewrite Hswap. simpl.
    destruct (IH x1 g1) as (x' & g' & Hrun & Hperm').
    { left. rewrite (Permutation_length Hperm). lia. }
    exists x', g'. split; [exact Hrun|].
    etransitivity; eassumption.
Qed.

(** [random.shuffle] returns, and leaves a permutation of the list. *)
Lemma shuffle_ok {A : Type} (x : list A) (g : G) :
  exists x' g', shuffle randbelow x g = Ok (x', g') /\ x' ≡ₚ x.
Proof.
  unfold shuffle. apply shuffle_from_ok.
  destruct x; simpl; [right; reflexivity | left; lia].
Qed.

End ShuffleFacts.

(** ** Cut indices *)

Lemma int_of_float_floor (q : Q) : (0 <= q)%Q -> int_of_float q = Qfloor q.
Proof.
  destruct q as [n d]. unfold Qle, int_of_float, Qfloor. simpl.
  intros Hn. apply Z.quot_div_nonneg; lia.
Qed.

Section IndexFacts.

Variable fl : Q -> Q.

(** Rounding is monotone and leaves zero alone. *)
Hypothesis fl_mono : forall x y : Q, (x <= y)%Q -> (fl x <= fl y)%Q.
Hypothesis fl_zero : (fl 0 == 0)%Q.

Lemma fl_nonneg (q : Q) : (0 <= q)%Q -> (0 <= fl q)%Q.
Proof.
  intros Hq. rewrite <- fl_zero. apply fl_mono. exact Hq.
Qed.

Lemma fl_inject_nonneg (n : Z) : 0 <= n -> (0 <= fl (inject_Z n))%Q.
Proof.
  intros Hn. apply fl_nonneg. change 0%Q with (inject_Z 0).
  rewrite <- Zle_Qle. exact Hn.
Qed.

Lemma scaled_product_nonneg (n : Z) (r : Q) :
  0 <= n -> (0 <= r)%Q -> (0 <= fl (fl (inject_Z n) * r))%Q.
Proof.
  intros Hn Hr. apply fl_nonneg.
  apply Qmult_le_0_compat; [apply fl_inject_nonneg; exact Hn | exact Hr].
Qed.

(** On non-negative arguments the cut index is the floor of the float
    product. *)
Lemma scaled_index_floor (n : Z) (r : Q) :
  0 <= n -> (0 <= r)%Q ->
  scaled_index fl n r = Qfloor (fl (fl (inject_Z n) * r)).
Proof.
  intros Hn Hr. unfold scaled_index.
  apply int_of_float_floor, scaled_product_nonneg; assumption.
Qed.

Lemma scaled_index_nonneg (n : Z) (r : Q) :
  0 <= n -> (0 <= r)%Q -> 0 <= scaled_index fl n r.
Proof.
  intros Hn Hr. rewrite scaled_index_floor by assumption.
  change 0 with (Qfloor 0). apply Qfloor_resp_le.
  apply scaled_product_nonneg; assumption.
Qed.

Lemma scaled_index_le (n : Z) (r r' : Q) :
  0 <= n -> (0 <= r)%Q -> (r <= r')%Q ->
  scaled_index fl n r <= scaled_index fl n r'.
Proof.
  intros Hn Hr Hrr'.
  rewrite !scaled_index_floor by (try assumption; eapply Qle_trans; eassumption).
  apply Qfloor_resp_le, fl_mono.
  rewrite (Qmult_comm _ r), (Qmult_comm _ r').
  apply Qmult_le_compat_r; [exact Hrr' | apply fl_inject_nonneg; exact Hn].
Qed.

(** The two cuts of [split_dataset] for non-negative ratios, the first of
    them a float. *)
Lemma cuts_ordered (n : Z) (t v : Q) :
  0 <= n -> (fl t == t)%Q -> (0 <= t)%Q -> (0 <= v)%Q ->
  0 <= scaled_index fl n t <= scaled_index fl n (fl (t + v)).
Proof.
  intros Hn Ht Ht0 Hv0. split.
  - apply scaled_index_nonneg; assumption.
  - apply scaled_index_le; [assumption..|].
    rewrite <- Ht at 1. apply fl_mono.
    rewrite <- (Qplus_0_r t) at 1. apply Qplus_le_compat; [apply Qle_refl|exact Hv0].
Qed.

End IndexFacts.

(** ** [split_dataset] *)

Section SplitterFacts.

Variable fl : Q -> Q.
Variable G : Type.
Variable randbelow : G -> nat -> nat * G.

Hypothesis randbelow_lt :
  forall g n, (0 < n)%nat -> (fst (randbelow g n) < n)%nat.

(** What one call does: the list object at [records] is replaced by its
    shuffle, and three new list objects hold the slices. *)
Lemma split_dataset_run (records : loc) (t v : Q) (w : world G)
    (x : list record) :
  heap w !! records = Some x ->
  exists (x' : list record) (g' : G) (l1 l2 l3 : loc) (w' : world G),
    shuffle randbelow x (rng w) = Ok (x', g') /\
    x' ≡ₚ x /\
    split_dataset fl randbelow records t v w = Ok ((l1, l2, l3), w') /\
    rng w' = g' /\
    heap w' !! records = Some x' /\
    (let n := Z.of_nat (length x') in
     let train_end := scaled_index fl n t in
     let val_end := scaled_index fl n (fl (t + v)) in
     heap w' !! l1 = Some (py_slice x' None (Some train_end)) /\
     heap w' !! l2 = Some (py_slice x' (Some train_end) (Some val_end)) /\
     heap w' !! l3 = Some (py_slice x' (Some val_end) None)) /\
    NoDup [records; l1; l2; l3] /\
    (l1 ∉ dom (heap w)) /\ (l2 ∉ dom (heap w)) /\ (l3 ∉ dom (heap w)) /\
    (forall l, l ≠ records -> l ∈ dom (heap w) -> heap w' !! l = heap w !! l).
Proof.
  intros Hx.
  destruct (shuffle_ok G randbelow randbelow_lt x (rng w))
    as (x' & g' & Hsh & Hperm).
  set (h0 := <[records := x']> (heap w)).
  set (n := Z.of_nat (length x')).
  set (l1 := fresh (dom h0)).
  set (h1 := <[l1 := py_slice x' None (Some (scaled_index fl n t))]> h0).
  set (l2 := fresh (dom h1)).
  set (h2 := <[l2 := py_slice x' (Some (scaled_index fl n t))
                        (Some (scaled_index fl n (fl (t + v))))]> h1).
  set (l3 := fresh (dom h2)).
  set (h3 := <[l3 := py_slice x' (Some (scaled_index fl n (fl (t + v)))) None]> h2).
  pose proof (is_fresh (dom h0)) as Hl1. change (fresh (dom h0)) with l1 in Hl1.
  pose proof (is_fresh (dom h1)) as Hl2. change (fresh (dom h1)) with l2 in Hl2.
  pose proof (is_fresh (dom h2)) as Hl3. change (fresh (dom h2)) with l3 in Hl3.
  unfold h2 in Hl3. unfold h1 in Hl2, Hl3. unfold h0 in Hl1, Hl2, Hl3.
  rewrite !dom_insert_L in Hl1, Hl2, Hl3.
  exists x', g', l1, l2, l3, (mkWorld h3 g').
  split; [exact Hsh|]. split; [exact Hperm|]. split.
  { unfold split_dataset, random_shuffle, load, alloc.
    unfold mbind, M_mbind, M_bind, mret, M_mret, M_ret.
    rewrite Hx, Hsh. simpl. rewrite lookup_insert_eq. reflexivity. }
  split; [reflexivity|].
  assert (Hne1 : l1 ≠ records) by set_solver.
  assert (Hne2 : l2 ≠ records) by set_solver.
  assert (Hne3 : l3 ≠ records) by set_solver.
  assert (Hne12 : l2 ≠ l1) by set_solver.
  assert (Hne13 : l3 ≠ l1) by set_solver.
  assert (Hne23 : l3 ≠ l2) by set_solver.
  split.
  { simpl. unfold h3, h2, h1, h0.
    rewrite !lookup_insert_ne by congruence. apply lookup_insert_eq. }
  split.
  { simpl. unfold h3, h2, h1. repeat split.
    - rewrite !lookup_insert_ne by congruence. apply lookup_insert_eq.
    - rewrite lookup_insert_ne by congruence. apply lookup_insert_eq.
    - apply lookup_insert_eq. }
  split.
  { repeat (apply NoDup_cons; split;
              [rewrite ?elem_of_cons, ?elem_of_nil; intuition congruence|]).
    apply NoDup_nil_2. }
  split; [set_solver|]. split; [set_solver|]. split; [set_solver|].
  intros l Hl Hin. simpl. unfold h3, h2, h1, h0.
  rewrite !lookup_insert_ne; [reflexivity|congruence|set_solver..].
Qed.

(** C1: for non-negative ratios (the bound on their sum is not needed)
    [split_dataset] returns three lists that are the shuffled sequence cut
    at [floor(n * train_ratio)] and [floor(n * (train_ratio + val_ratio))],
    the products and the sum being float operations.  The three lists are
    consecutive, disjoint runs of positions of the shuffled sequence, their
    lengths add up to [n], and together they hold every input record
    exactly once. *)
Theorem split_dataset_partition
    (fl_mono : forall a b : Q, (a <= b)%Q -> (fl a <= fl b)%Q)
    (fl_zero : (fl 0 == 0)%Q)
    (records : loc) (t v : Q) (w : world G) (x : list record) :
  heap w !! records = Some x ->
  (fl t == t)%Q -> (0 <= t)%Q -> (0 <= v)%Q ->
  exists (shuffled train val test : list record) (g' : G)
         (l1 l2 l3 : loc) (w' : world G),
    split_dataset fl randbelow records t v w = Ok ((l1, l2, l3), w') /\
    heap w' !! l1 = Some train /\
    heap w' !! l2 = Some val /\
    heap w' !! l3 = Some test /\
    shuffle randbelow x (rng w) = Ok (shuffled, g') /\
    shuffled ≡ₚ x /\
    (let n := Z.of_nat (length x) in
     let a := Qfloor (fl (fl (inject_Z n) * t)) in
     let b := Qfloor (fl (fl (inject_Z n) * fl (t + v))) in
     0 <= a <= b /\
     train = take (Z.to_nat a) shuffled /\
     val = take (Z.to_nat b - Z.to_nat a) (drop (Z.to_nat a) shuffled) /\
     test = drop (Z.to_nat b) shuffled) /\
    train ++ val ++ test = shuffled /\
    (length train + length val + length test = length x)%nat /\
    train ++ val ++ test ≡ₚ x.
Proof.
  intros Hx Ht Ht0 Hv0.
  destruct (split_dataset_run records t v w x Hx)
    as (x' & g' & l1 & l2 & l3 & w' & Hsh & Hperm & Hrun & _ & _ & Hsl & _).
  cbv zeta in Hsl. destruct Hsl as (H1 & H2 & H3).
  assert (Hlen : length x' = length x) by (apply Permutation_length, Hperm).
  rewrite Hlen in H1, H2, H3.
  set (n := Z.of_nat (length x)) in *.
  assert (Hn : 0 <= n) by (unfold n; lia).
  assert (Htv : (0 <= fl (t + v))%Q).
  { apply (fl_nonneg fl fl_mono fl_zero).
    rewrite <- (Qplus_0_r 0). apply Qplus_le_compat; assumption. }
  pose proof (cuts_ordered fl fl_mono fl_zero n t v Hn Ht Ht0 Hv0) as Hcuts.
  pose proof (py_slice_partition x' _ _ Hcuts) as Hpart.
  eexists x', _, _, _, g', l1, l2, l3, w'.
  split; [exact Hrun|]. split; [exact H1|]. split; [exact H2|].
  split; [exact H3|]. split; [exact Hsh|]. split; [exact Hperm|].
  split.
  { cbv zeta.
    rewrite <- !(scaled_index_floor fl fl_mono fl_zero) by assumption.
    split; [exact Hcuts|]. split; [|split].
    - apply py_slice_prefix. lia.
    - apply py_slice_middle. exact Hcuts.
    - apply py_slice_suffix. lia. }
  split; [exact Hpart|]. split.
  - rewrite <- Hlen. rewrite <- Hpart at 4. rewrite !length_app. lia.
  - rewrite Hpart. exact Hperm.
Qed.

(** C6, amended: the ratios are not checked, and no sum of ratios is
    rejected.  For all non-negative ratios within [max_ratio], whether
    they add up to at most one or to more, [split_dataset] returns three
    lists, and what follows the training and validation slices in the
    shuffled sequence becomes the test split. *)
Theorem split_dataset_accepts_every_ratio
    (fl_mono : forall a b : Q, (a <= b)%Q -> (fl a <= fl b)%Q)
    (fl_zero : (fl 0 == 0)%Q)
    (records : loc) (t v : Q) (w : world G) (x : list record) :
  heap w !! records = Some x ->
  (fl t == t)%Q ->
  (0 <= t)%Q -> (t <= max_ratio)%Q -> (0 <= v)%Q -> (v <= max_ratio)%Q ->
  exists (shuffled train val test : list record) (l1 l2 l3 : loc) (w' : world G),
    split_dataset fl randbelow records t v w = Ok ((l1, l2, l3), w') /\
    heap w' !! records = Some shuffled /\
    heap w' !! l1 = Some train /\
    heap w' !! l2 = Some val /\
    heap w' !! l3 = Some test /\
    test = drop (length train + length val) shuffled.
Proof.
  intros Hx Ht Ht0 _ Hv0 _.
  destruct (split_dataset_run records t v w x Hx)
    as (x' & g' & l1 & l2 & l3 & w' & Hsh & Hperm & Hrun & _ & Hrec & Hsl & _).
  cbv zeta in Hsl. destruct Hsl as (H1 & H2 & H3).
  assert (Hn : 0 <= Z.of_nat (length x')) by lia.
  pose proof (cuts_ordered fl fl_mono fl_zero _ t v Hn Ht Ht0 Hv0) as Hcuts.
  pose proof (py_slice_partition x' _ _ Hcuts) as Hpart.
  eexists x', _, _, _, l1, l2, l3, w'.
  split; [exact Hrun|]. split; [exact Hrec|]. split; [exact H1|].
  split; [exact H2|]. split; [exact H3|].
  match type of Hpart with ?tr ++ ?va ++ ?te = _ =>
    transitivity (drop (length (tr ++ va)) ((tr ++ va) ++ te))
  end.
  - rewrite drop_app_length. reflexivity.
  - rewrite length_app, <- app_assoc, Hpart. reflexivity.
Qed.

(** C10, amended: [split_dataset] works on the caller's list object.
    For ratios within [max_ratio], after the call that object holds what
    [random.shuffle] made of its contents, a permutation of what it held
    (the old order itself when the list has fewer than two records), and
    every other list object is as before; the three returned lists are
    new objects, different from the caller's and from one another,
    holding the slices of the shuffled sequence. *)
Theorem split_dataset_shuffles_in_place
    (records : loc) (t v : Q) (w : world G) (x : list record) :
  heap w !! records = Some x ->
  ratio_in_range t -> ratio_in_range v ->
  exists (shuffled : list record) (g' : G) (l1 l2 l3 : loc) (w' : world G),
    split_dataset fl randbelow records t v w = Ok ((l1, l2, l3), w') /\
    shuffle randbelow x (rng w) = Ok (shuffled, g') /\
    heap w' !! records = Some shuffled /\
    shuffled ≡ₚ x /\
    ((length x <= 1)%nat -> shuffled = x) /\
    NoDup [records; l1; l2; l3] /\
    (l1 ∉ dom (heap w)) /\ (l2 ∉ dom (heap w)) /\ (l3 ∉ dom (heap w)) /\
    (forall l, l ≠ records -> l ∈ dom (heap w) -> heap w' !! l = heap w !! l) /\
    (let n := Z.of_nat (length shuffled) in
     let train_end := scaled_index fl n t in
     let val_end := scaled_index fl n (fl (t + v)) in
     heap w' !! l1 = Some (py_slice shuffled None (Some train_end)) /\
     heap w' !! l2 = Some (py_slice shuffled (Some train_end) (Some val_end)) /\
     heap w' !! l3 = Some (py_slice shuffled (Some val_end) None)).
Proof.
  intros Hx _ _.
  destruct (split_dataset_run records t v w x Hx)
    as (x' & g' & l1 & l2 & l3 & w' & Hsh & Hperm & Hrun & _ & Hrec & Hsl
        & Hnd & Hf1 & Hf2 & Hf3 & Hframe).
  exists x', g', l1, l2, l3, w'.
  split; [exact Hrun|]. split; [exact Hsh|]. split; [exact Hrec|].
  split; [exact Hperm|]. split.
  { intros Hlen. unfold shuffle in Hsh.
    replace (length x - 1)%nat with 0%nat in Hsh by lia.
    simpl in Hsh. injection Hsh as <- _. reflexivity. }
  repeat (split; [assumption|]). exact Hsl.
Qed.

End SplitterFacts.

Section SeededSplit.

Variable fl : Q -> Q.
Variable G : Type.
Variable seed_state : Z -> G.
Variable randbelow : G -> nat -> nat * G.

Hypothesis randbelow_lt :
  forall g n, (0 < n)%nat -> (fst (randbelow g n) < n)%nat.

Lemma seeded_split_contents (a : Z) (records : loc) (t v : Q) (w : world G)
    (x : list record) :
  heap w !! records = Some x ->
  exists (x' : list record) (g' : G),
    shuffle randbelow x (seed_state a) = Ok (x', g') /\
    split_contents (seeded_split fl seed_state randbelow a records t v w) =
      (let n := Z.of_nat (length x') in
       let train_end := scaled_index fl n t in
       let val_end := scaled_index fl n (fl (t + v)) in
       Ok (py_slice x' None (Some train_end),
           py_slice x' (Some train_end) (Some val_end),
           py_slice x' (Some val_end) None)).
Proof.
  intros Hx.
  destruct (split_dataset_run fl G randbelow randbelow_lt records t v
              (mkWorld (heap w) (seed_state a)) x Hx)
    as (x' & g' & l1 & l2 & l3 & w' & Hsh & _ & Hrun & _ & _ & Hsl & _).
  cbv zeta in Hsl. destruct Hsl as (H1 & H2 & H3).
  exists x', g'. split; [exact Hsh|].
  unfold seeded_split, random_seed. unfold mbind at 1. unfold M_mbind, M_bind.
  rewrite Hrun. unfold split_contents. simpl. rewrite H1, H2, H3. reflexivity.
Qed.

(** C2, amended: [split_dataset] has no seed argument and draws from the
    process-wide generator.  When [random.seed(a)] comes right before
    each call, two calls with the same [a], the same valid pair of
    ratios (non-negative, adding up to at most one) and lists of the
    same contents return, and return the same train, validation and
    test contents, whatever the generator state and the other objects
    were before. *)
Theorem seeded_split_deterministic (a : Z) (records1 records2 : loc)
    (t v : Q) (w1 w2 : world G) (x : list record) :
  heap w1 !! records1 = Some x ->
  heap w2 !! records2 = Some x ->
  (0 <= t)%Q -> (0 <= v)%Q -> (t + v <= 1)%Q ->
  returns (split_contents (seeded_split fl seed_state randbelow a records1 t v w1)) /\
  split_contents (seeded_split fl seed_state randbelow a records1 t v w1) =
  split_contents (seeded_split fl seed_state randbelow a records2 t v w2).
Proof.
  intros Hx1 Hx2 _ _ _.
  destruct (seeded_split_contents a records1 t v w1 x Hx1) as (x1 & g1 & Hs1 & Hc1).
  destruct (seeded_split_contents a records2 t v w2 x Hx2) as (x2 & g2 & Hs2 & Hc2).
  rewrite Hs1 in Hs2. injection Hs2 as <- <-.
  rewrite Hc1, Hc2. split; [|reflexivity].
  eexists. reflexivity.
Qed.

End SeededSplit.

(** ** The splitter on CPython's generator *)

Lemma MT_retry_lt (fuel : nat) (k n : Z) :
  0 < n -> forall s, fst (MT.retry fuel k n s) < n.
Proof.
  intros Hn. induction fuel as [|fuel IH]; intros s; simpl;
    destruct (MT.getrandbits k s) as [r s'];
    destruct (Z.ltb_spec r n); simpl; auto.
Qed.

Lemma MT_randbelow_lt (g : MT.state) (n : nat) :
  (0 < n)%nat -> (fst (MT.randbelow g n) < n)%nat.
Proof.
  intros Hn. unfold MT.randbelow.
  pose proof (MT_retry_lt 1024 (Z.log2 (Z.of_nat n) + 1) (Z.of_nat n)
                ltac:(lia) g) as Hr.
  destruct (MT.retry _ _ _ g) as [r s']. simpl in *. lia.
Qed.

Lemma exact_mono (a b : Q) : (a <= b)%Q -> (exact a <= exact b)%Q.
Proof. intros H. exact H. Qed.

Lemma exact_zero : (exact 0 == 0)%Q.
Proof. reflexivity. Qed.

Lemma sample_world_records : heap sample_world !! 1%positive = Some sample_records.
Proof. reflexivity. Qed.

(** The default ratios as doubles: the train ratio is a double, and both
    are non-negative. *)
Lemma default_ratios_binary64 :
  (Binary64.round (default_train_ratio Binary64.round)
     == default_train_ratio Binary64.round)%Q /\
  (0 <= default_train_ratio Binary64.round)%Q /\
  (0 <= default_val_ratio Binary64.round)%Q.
Proof. repeat split; vm_compute; discriminate. Qed.

Lemma split_dataset_partition_witness :
  exists (shuffled train val test : list record) (l1 l2 l3 : loc)
         (w' : world MT.state),
    split_dataset Binary64.round MT.randbelow 1%positive
      (default_train_ratio Binary64.round) (default_val_ratio Binary64.round)
      sample_world
      = Ok ((l1, l2, l3), w') /\
    heap w' !! l1 = Some train /\
    heap w' !! l2 = Some val /\
    heap w' !! l3 = Some test /\
    train ++ val ++ test = shuffled /\
    shuffled ≡ₚ sample_records.
Proof.
  destruct default_ratios_binary64 as (Ht & Ht0 & Hv0).
  destruct (split_dataset_partition Binary64.round MT.state MT.randbelow
              MT_randbelow_lt round_mono round_zero 1%positive
              (default_train_ratio Binary64.round)
              (default_val_ratio Binary64.round) sample_world
              sample_records sample_world_records Ht Ht0 Hv0)
    as (sh & tr & va & te & g' & l1 & l2 & l3 & w' & Hrun & H1 & H2 & H3 & _
        & Hperm & _ & Hcat & _).
  exists sh, tr, va, te, l1, l2, l3, w'. repeat split; assumption.
Defined.

(** The call with the default ratios, 0.7 and 0.15, on doubles: the shuffle
    under [random.seed(42)] puts the four records in the order 2, 1, 3, 0,
    and the cuts fall at [int(4 * 0.7) = 2] and [int(4 * (0.7 + 0.15)) = 3]. *)
Example split_dataset_defaults :
  split_contents
    (split_dataset Binary64.round MT.randbelow 1%positive
       (default_train_ratio Binary64.round) (default_val_ratio Binary64.round)
       sample_world)
  = Ok ([rec_b0; rec_a1], [rec_b1], [rec_a0]).
Proof. vm_compute. reflexivity. Qed.

(** The same call in exact arithmetic, with ratios one half and one
    quarter. *)
Example split_dataset_sample :
  split_contents
    (split_dataset exact MT.randbelow 1%positive (1 # 2) (1 # 4) sample_world)
  = Ok ([rec_b0; rec_a1], [rec_b1], [rec_a0]).
Proof. vm_compute. reflexivity. Qed.

(** C2, the claim as stated fails: the generator is seeded once, with
    [random.seed(42)], and two calls in a row with the same ratios, on two
    lists of the same four records, return different train, validation and
    test contents.  (In Python, after [random.seed(42)], shuffling
    [[0, 1, 2, 3]] gives [[2, 1, 3, 0]], and shuffling a second such list
    gives [[3, 2, 0, 1]].) *)
Lemma split_dataset_repeat_counterexample :
  heap two_lists_world !! 1%positive = heap two_lists_world !! 2%positive /\
  split_twice Binary64.round MT.randbelow 1%positive 2%positive (1 # 2) (1 # 4)
      two_lists_world
    = (Ok ([rec_b0; rec_a1], [rec_b1], [rec_a0]),
       Ok ([rec_b1; rec_b0], [rec_a0], [rec_a1])) /\
  fst (split_twice Binary64.round MT.randbelow 1%positive 2%positive (1 # 2) (1 # 4)
         two_lists_world)
    <> snd (split_twice Binary64.round MT.randbelow 1%positive 2%positive (1 # 2) (1 # 4)
              two_lists_world).
Proof.
  assert (Hrun :
    split_twice Binary64.round MT.randbelow 1%positive 2%positive (1 # 2) (1 # 4)
        two_lists_world
      = (Ok ([rec_b0; rec_a1], [rec_b1], [rec_a0]),
         Ok ([rec_b1; rec_b0], [rec_a0], [rec_a1])))
    by (vm_compute; reflexivity).
  split; [reflexivity|]. split; [exact Hrun|].
  rewrite Hrun. simpl. discriminate.
Qed.

Lemma other_world_records : heap other_world !! 1%positive = Some sample_records.
Proof. reflexivity. Qed.

Lemma seeded_split_deterministic_witness :
  split_contents
    (seeded_split Binary64.round MT.seed MT.randbelow 42 1%positive (1 # 2) (1 # 4) sample_world)
  = split_contents
    (seeded_split Binary64.round MT.seed MT.randbelow 42 1%positive (1 # 2) (1 # 4) other_world).
Proof.
  exact (proj2 (seeded_split_deterministic Binary64.round MT.state MT.seed MT.randbelow
                  MT_randbelow_lt 42 1%positive 1%positive (1 # 2) (1 # 4)
                  sample_world other_world sample_records
                  sample_world_records other_world_records
                  ltac:(discriminate) ltac:(discriminate) ltac:(discriminate))).
Defined.

(** C6, the claim as stated fails: with the ratios 0.7 and 0.5, which add
    up to 1.2, [split_dataset] raises nothing; it returns two training
    records, two validation records and an empty test split. *)
Lemma split_dataset_ratio_counterexample :
  (1 < Binary64.round (7 # 10) + Binary64.round (1 # 2))%Q /\
  split_contents
    (split_dataset Binary64.round MT.randbelow 1%positive
       (Binary64.round (7 # 10)) (Binary64.round (1 # 2)) sample_world)
  = Ok ([rec_b0; rec_a1], [rec_b1; rec_a0], []) /\
  ~ fails_with
      (split_dataset Binary64.round MT.randbelow 1%positive
         (Binary64.round (7 # 10)) (Binary64.round (1 # 2)) sample_world)
      "InvalidRatioError".
Proof.
  split; [vm_compute; reflexivity|]. split; [vm_compute; reflexivity|].
  intros (e & He & Hn).
  destruct e; vm_compute in Hn; discriminate Hn.
Qed.

Lemma large_ratios_binary64 :
  (Binary64.round (Binary64.round (7 # 10)) == Binary64.round (7 # 10))%Q /\
  (0 <= Binary64.round (7 # 10))%Q /\
  (0 <= Binary64.round (1 # 2))%Q /\
  (Binary64.round (7 # 10) <= max_ratio)%Q /\
  (Binary64.round (1 # 2) <= max_ratio)%Q.
Proof. repeat split; vm_compute; discriminate. Qed.

Lemma split_dataset_accepts_every_ratio_witness :
  exists (shuffled train val test : list record) (l1 l2 l3 : loc)
         (w' : world MT.state),
    split_dataset Binary64.round MT.randbelow 1%positive
      (Binary64.round (7 # 10)) (Binary64.round (1 # 2)) sample_world
      = Ok ((l1, l2, l3), w') /\
    heap w' !! 1%positive = Some shuffled /\
    heap w' !! l1 = Some train /\
    heap w' !! l2 = Some val /\
    heap w' !! l3 = Some test /\
    test = drop (length train + length val) shuffled.
Proof.
  destruct large_ratios_binary64 as (Ht & Ht0 & Hv0 & Htm & Hvm).
  exact (split_dataset_accepts_every_ratio Binary64.round MT.state
           MT.randbelow MT_randbelow_lt round_mono round_zero 1%positive
           (Binary64.round (7 # 10)) (Binary64.round (1 # 2))
           sample_world sample_records sample_world_records
           Ht Ht0 Htm Hv0 Hvm).
Defined.

Lemma sample_ratios_in_range : ratio_in_range (1 # 2) /\ ratio_in_range (1 # 4).
Proof. repeat split; vm_compute; discriminate. Qed.

Lemma split_dataset_shuffles_in_place_witness :
  exists (shuffled : list record) (l1 l2 l3 : loc) (w' : world MT.state),
    split_dataset Binary64.round MT.randbelow 1%positive (1 # 2) (1 # 4) sample_world
      = Ok ((l1, l2, l3), w') /\
    heap w' !! 1%positive = Some shuffled /\
    shuffled ≡ₚ sample_records /\
    NoDup [1%positive; l1; l2; l3].
Proof.
  destruct (split_dataset_shuffles_in_place Binary64.round MT.state MT.randbelow
              MT_randbelow_lt 1%positive (1 # 2) (1 # 4) sample_world
              sample_records sample_world_records
              (proj1 sample_ratios_in_range) (proj2 sample_ratios_in_range))
    as (sh & g' & l1 & l2 & l3 & w' & Hrun & _ & Hrec & Hperm & _ & Hnd & _).
  exists sh, l1, l2, l3, w'. repeat split; assumption.
Defined.

(** C10, the claim as stated fails: a call need not leave another order.
    Right after [random.seed(9)] the shuffle of four items puts each item
    back in its place, and a list of one record is never reordered: after
    the call either list holds its records in the original order. *)
Lemma split_dataset_order_counterexample :
  heap seed9_world !! 1%positive = Some sample_records /\
  (w' ← snd <$> split_dataset_result Binary64.round MT.randbelow 1%positive
                  (1 # 2) (1 # 4) seed9_world; heap w' !! 1%positive)
    = Some sample_records /\
  heap seed9_world !! 2%positive = Some [rec_a0] /\
  (w' ← snd <$> split_dataset_result Binary64.round MT.randbelow 2%positive
                  (1 # 2) (1 # 4) seed9_world; heap w' !! 2%positive)
    = Some [rec_a0].
Proof. repeat split; vm_compute; reflexivity. Qed.

(** The caller's list after the sample call: the order has changed. *)
Example split_dataset_sample_reorders :
  (w' ← snd <$> split_dataset_result Binary64.round MT.randbelow 1%positive (1 # 2) (1 # 4)
                  sample_world; heap w' !! 1%positive)
  = Some [rec_b0; rec_a1; rec_b1; rec_a0].
Proof. vm_compute. reflexivity. Qed.

(** ** Equality of labels and [Counter] *)

Lemma py_eqb_true (a b : json) :
  py_eqb a b = true <->
  (a = JNull /\ b = JNull) \/
  (exists s, a = JStr s /\ b = JStr s) \/
  (exists x y, num_value a = Some x /\ num_value b = Some y /\ (x == y)%Q).
Proof.
  split.
  - destruct a, b; simpl; intros H; try discriminate H;
      try (left; split; reflexivity);
      try (right; right; eexists _, _; split; [reflexivity|split; [reflexivity|]];
           apply Qeq_bool_iff; exact H).
    right; left. apply String.eqb_eq in H. subst. eexists; split; reflexivity.
  - intros [[-> ->]|[(s & -> & ->)|(x & y & Hx & Hy & Hxy)]].
    + reflexivity.
    + simpl. apply String.eqb_refl.
    + destruct a, b; simpl in *; try discriminate;
        injection Hx as <-; injection Hy as <-; apply Qeq_bool_iff; exact Hxy.
Qed.

Lemma py_eqb_refl (a : json) : py_hashable a = true -> py_eqb a a = true.
Proof.
  destruct a; simpl; intros H; try discriminate H; try reflexivity;
    try (apply Qeq_bool_iff; reflexivity).
  apply String.eqb_refl.
Qed.

Lemma py_eqb_sym (a b : json) : py_eqb a b = true -> py_eqb b a = true.
Proof.
  rewrite !py_eqb_true.
  intros [[-> ->]|[(s & -> & ->)|(x & y & Hx & Hy & Hxy)]].
  - left; split; reflexivity.
  - right; left; eexists; split; reflexivity.
  - right; right. exists y, x. repeat split; try assumption. symmetry; exact Hxy.
Qed.

Lemma py_eqb_trans (a b c : json) :
  py_eqb a b = true -> py_eqb b c = true -> py_eqb a c = true.
Proof.
  rewrite !py_eqb_true.
  intros [[-> ->]|[(s & -> & ->)|(x & y & Hx & Hy & Hxy)]].
  - intros [[_ ->]|[(s' & Hb & _)|(y' & z & Hy' & _)]];
      [left; split; reflexivity | discriminate Hb | discriminate Hy'].
  - intros [[Hb _]|[(s' & Hb & ->)|(y' & z & Hy' & _)]];
      [discriminate Hb | | discriminate Hy'].
    injection Hb as <-. right; left; eexists; split; reflexivity.
  - intros [[-> ->]|[(s' & -> & ->)|(y' & z & Hy' & Hz & Hyz)]];
      [discriminate Hy | discriminate Hy |].
    rewrite Hy in Hy'. injection Hy' as <-.
    right; right. exists x, z. repeat split; try assumption.
    etransitivity; eassumption.
Qed.

(** Equal keys select the same elements. *)
Lemma py_eqb_congr (a b e : json) :
  py_eqb a b = true -> py_eqb e a = py_eqb e b.
Proof.
  intros Hab.
  destruct (py_eqb e a) eqn:Hea, (py_eqb e b) eqn:Heb; try reflexivity.
  - rewrite (py_eqb_trans e a b Hea Hab) in Heb. discriminate.
  - rewrite (py_eqb_trans e b a Heb (py_eqb_sym _ _ Hab)) in Hea. discriminate.
Qed.

Lemma count_label_congr (l : list json) (a b : json) :
  py_eqb a b = true -> count_label l a = count_label l b.
Proof.
  intros Hab. unfold count_label. f_equal.
  apply List.filter_ext. intros e. apply py_eqb_congr. exact Hab.
Qed.

Lemma count_label_cons (e : json) (l : list json) (k : json) :
  count_label (e :: l) k = ((if py_eqb e k then 1 else 0) + count_label l k)%nat.
Proof.
  unfold count_label. simpl. destruct (py_eqb e k); reflexivity.
Qed.

Lemma count_label_le (l : list json) (k : json) :
  (count_label l k <= length l)%nat.
Proof. unfold count_label. apply List.filter_length_le. Qed.

Lemma count_label_pos (l : list json) (k : json) :
  In k l -> py_hashable k = true -> (1 <= count_label l k)%nat.
Proof.
  induction l as [|e l IH]; simpl; [tauto|].
  intros [->|Hin] Hk; rewrite count_label_cons.
  - rewrite py_eqb_refl by exact Hk. lia.
  - specialize (IH Hin Hk). lia.
Qed.

Lemma py_eqb_congr_l (a b e : json) :
  py_eqb a b = true -> py_eqb a e = py_eqb b e.
Proof.
  intros Hab.
  destruct (py_eqb a e) eqn:Hae, (py_eqb b e) eqn:Hbe; try reflexivity.
  - rewrite (py_eqb_trans b a e (py_eqb_sym _ _ Hab) Hae) in Hbe. discriminate.
  - rewrite (py_eqb_trans a b e Hab Hbe) in Hae. discriminate.
Qed.

Lemma counter_get_incr (c : counter) (k k' : json) :
  counter_get (counter_incr c k) k' =
    counter_get c k' + (if py_eqb k k' then 1 else 0).
Proof.
  induction c as [|[k1 n] c IH]; simpl.
  - destruct (py_eqb k k'); reflexivity.
  - destruct (py_eqb k1 k) eqn:H1; simpl.
    + rewrite (py_eqb_congr_l k1 k k' H1).
      destruct (py_eqb k k'); lia.
    + destruct (py_eqb k1 k') eqn:H2.
      * destruct (py_eqb k k') eqn:H3; [|lia].
        rewrite (py_eqb_trans k1 k' k H2 (py_eqb_sym _ _ H3)) in H1.
        discriminate.
      * exact IH.
Qed.

Lemma counter_update_get (l : list json) :
  Forall (fun k => py_hashable k = true) l ->
  forall c : counter,
  exists c' : counter,
    counter_update c l = Ok c' /\
    forall k, counter_get c' k = counter_get c k + Z.of_nat (count_label l k).
Proof.
  induction 1 as [|e l He _ IH]; intros c; simpl.
  - exists c. split; [reflexivity|]. intros k. unfold count_label. simpl. lia.
  - rewrite He. destruct (IH (counter_incr c e)) as (c' & Hrun & Hget).
    exists c'. split; [exact Hrun|]. intros k.
    rewrite Hget, counter_get_incr, count_label_cons.
    destruct (py_eqb e k); lia.
Qed.

(** [Counter(l)[k]] is the number of elements of [l] equal to [k]. *)
Lemma Counter_get (l : list json) :
  Forall (fun k => py_hashable k = true) l ->
  exists c : counter,
    Counter l = Ok c /\
    forall k, counter_get c k = Z.of_nat (count_label l k).
Proof.
  intros Hl. destruct (counter_update_get l Hl []) as (c & Hrun & Hget).
  exists c. split; [exact Hrun|]. intros k. rewrite Hget. reflexivity.
Qed.

(** ** The sampling weights *)

Section WeightsFacts.

Variable fl : Q -> Q.

Lemma weights_run (train : list record) :
  (forall c : Z, 1 <= c <= Z.of_nat (length train) ->
     ~ (fl (inject_Z c) == 0)%Q) ->
  Forall (fun r => py_hashable (label r) = true) train ->
  weights fl train = Ok (map (weight_of fl train) train).
Proof.
  intros Hnz Hh. unfold weights.
  destruct (Counter_get (map label train)) as (c & Hrun & Hget).
  { apply Forall_map. exact Hh. }
  rewrite Hrun. simpl.
  apply py_mapM_ok. apply Forall_forall. intros r Hr.
  rewrite Hget. unfold inverse_count, weight_of.
  assert (Hc : (1 <= count_label (map label train) (label r) <= length train)%nat).
  { split.
    - apply count_label_pos.
      + apply in_map. apply list_elem_of_In. exact Hr.
      + rewrite Forall_forall in Hh. apply Hh. exact Hr.
    - etransitivity; [apply count_label_le|]. rewrite length_map. lia. }
  destruct (Qeq_bool _ 0) eqn:Hz; [|reflexivity].
  apply Qeq_bool_iff in Hz. exfalso. eapply Hnz; [|exact Hz]. lia.
Qed.

(** Rounding respects equality of rationals. *)
Hypothesis fl_proper : forall a b : Q, (a == b)%Q -> (fl a == fl b)%Q.

Lemma weight_of_representable (train : list record) (r : record) :
  (forall c : Z, 1 <= c <= Z.of_nat (length train) ->
     (fl (inject_Z c) == inject_Z c)%Q) ->
  In r train ->
  py_hashable (label r) = true ->
  (1 <= count_label (map label train) (label r) <= length train)%nat /\
  (weight_of fl train r ==
     fl (1 / inject_Z (Z.of_nat (count_label (map label train) (label r)))))%Q.
Proof.
  intros Hrep Hr Hh.
  assert (Hc : (1 <= count_label (map label train) (label r) <= length train)%nat).
  { split.
    - apply count_label_pos; [apply in_map; exact Hr | exact Hh].
    - etransitivity; [apply count_label_le|]. rewrite length_map. lia. }
  split; [exact Hc|]. unfold weight_of. apply fl_proper.
  assert (Hb : 1 <= Z.of_nat (count_label (map label train) (label r))
               <= Z.of_nat (length train)) by lia.
  rewrite (Hrep _ Hb). reflexivity.
Qed.

Lemma representable_nonzero (n : nat) :
  (forall c : Z, 1 <= c <= Z.of_nat n -> (fl (inject_Z c) == inject_Z c)%Q) ->
  forall c : Z, 1 <= c <= Z.of_nat n -> ~ (fl (inject_Z c) == 0)%Q.
Proof.
  intros Hrep c Hc Hz. rewrite (Hrep c Hc) in Hz.
  unfold Qeq in Hz. simpl in Hz. lia.
Qed.

(** C3: the weights cell returns one weight per training record, and the
    weight of a record is one over the number of records of the training
    split that share its label (a float division).  Labels are hashable
    values, as strings are, and the counts, at most the length of the
    split, are exact as floats. *)
Theorem weights_inverse_label_count (train : list record) :
  (forall c : Z, 1 <= c <= Z.of_nat (length train) ->
     (fl (inject_Z c) == inject_Z c)%Q) ->
  Forall (fun r => py_hashable (label r) = true) train ->
  exists ws : list Q,
    weights fl train = Ok ws /\
    length ws = length train /\
    forall (i : nat) (r : record),
      train !! i = Some r ->
      exists wt : Q,
        ws !! i = Some wt /\
        (1 <= count_label (map label train) (label r))%nat /\
        (wt == fl (1 / inject_Z (Z.of_nat
                    (count_label (map label train) (label r)))))%Q.
Proof.
  intros Hrep Hh.
  exists (map (weight_of fl train) train).
  split; [apply weights_run; [apply representable_nonzero; exact Hrep | exact Hh]|].
  split; [apply length_map|].
  intros i r Hi. exists (weight_of fl train r).
  split; [rewrite list_lookup_fmap, Hi; reflexivity|].
  assert (Hr : In r train).
  { apply list_elem_of_In. eapply list_elem_of_lookup_2. exact Hi. }
  destruct (weight_of_representable train r Hrep Hr) as [[Hc _] Hw].
  { rewrite Forall_forall in Hh. apply Hh, list_elem_of_In, Hr. }
  split; [exact Hc | exact Hw].
Qed.

(** The scenario of the specification, for any float format in which 1,
    2 and one half are exact: a schizont record next to a ring record
    gets weight 1.0, and each of two ring records gets 0.5. *)
Lemma weights_scenario :
  (fl 1 == 1)%Q -> (fl (inject_Z 2) == inject_Z 2)%Q -> (fl (1 # 2) == 1 # 2)%Q ->
  (exists w1 w2 : Q,
     weights fl mixed_split = Ok [w1; w2] /\ (w1 == 1)%Q /\ (w2 == 1)%Q) /\
  (exists w1 w2 : Q,
     weights fl ring_split = Ok [w1; w2] /\ (w1 == 1 # 2)%Q /\ (w2 == 1 # 2)%Q).
Proof.
  intros H1 H2 Hhalf.
  assert (Hrep : forall c : Z, 1 <= c <= 2 -> (fl (inject_Z c) == inject_Z c)%Q).
  { intros c Hc. assert (c = 1 \/ c = 2) as [-> | ->] by lia; assumption. }
  assert (Hone : (fl (1 / fl (inject_Z 1)) == 1)%Q).
  { transitivity (fl 1); [|exact H1]. apply fl_proper.
    change (inject_Z 1) with 1%Q. rewrite H1. reflexivity. }
  assert (Htwo : (fl (1 / fl (inject_Z 2)) == 1 # 2)%Q).
  { transitivity (fl (1 # 2)); [|exact Hhalf]. apply fl_proper.
    rewrite H2. reflexivity. }
  split.
  - eexists _, _. split.
    + rewrite weights_run;
        [reflexivity | apply (representable_nonzero 2 Hrep)
        | repeat constructor].
    + split; exact Hone.
  - eexists _, _. split.
    + rewrite weights_run;
        [reflexivity | apply (representable_nonzero 2 Hrep)
        | repeat constructor].
    + split; exact Htwo.
Qed.

End WeightsFacts.

Lemma group_total_const (f : record -> Q) (k : json) (q : Q) (l : list record) :
  (forall r, In r l -> py_eqb (label r) k = true -> (f r == q)%Q) ->
  (group_total l (map f l) k ==
     inject_Z (Z.of_nat (count_label (map label l) k)) * q)%Q.
Proof.
  induction l as [|r l IH]; intros Hf.
  - simpl. unfold count_label. simpl. ring.
  - cbn [map group_total]. rewrite count_label_cons.
    rewrite IH by (intros r' Hr'; apply Hf; right; exact Hr').
    destruct (py_eqb (label r) k) eqn:Hrk.
    + rewrite (Hf r (or_introl eq_refl) Hrk).
      rewrite Nat2Z.inj_add, inject_Z_plus. change (inject_Z (Z.of_nat 1)) with 1%Q.
      ring.
    + simpl. ring.
Qed.

Section Binary64Totals.

Import Binary64.
#[local] Open Scope Q_scope.

(** C5, amended: on doubles the weights of the records of one label add
    up to 1 within the error of one rounded division.  For fewer than
    [2^53] training records with hashable labels, the exact sum of the
    weights of every label present lies between [1 - 2^-53] and
    [1 + 2^-53], so the totals of two labels differ by at most
    [2^-52]. *)
Theorem weights_label_totals_near_one (train : list record) :
  (Z.of_nat (length train) < 2 ^ 53)%Z ->
  Forall (fun r => py_hashable (label r) = true) train ->
  exists ws : list Q,
    weights round train = Ok ws /\
    (forall r, In r train ->
       1 - (1 # 2 ^ 53) <= group_total train ws (label r) /\
       group_total train ws (label r) <= 1 + (1 # 2 ^ 53)) /\
    (forall r r', In r train -> In r' train ->
       group_total train ws (label r) - group_total train ws (label r')
         <= 1 # 2 ^ 52).
Proof.
  intros Hlen Hh.
  assert (Hrep : forall c : Z, (1 <= c <= Z.of_nat (length train))%Z ->
                   round (inject_Z c) == inject_Z c).
  { intros c Hc. apply round_integer. lia. }
  assert (Hone : forall r, In r train ->
            1 - (1 # 2 ^ 53)
              <= group_total train (map (weight_of round train) train) (label r) /\
            group_total train (map (weight_of round train) train) (label r)
              <= 1 + (1 # 2 ^ 53)).
  { intros r Hr.
    assert (Hhr : py_hashable (label r) = true).
    { rewrite Forall_forall in Hh. apply Hh, list_elem_of_In, Hr. }
    destruct (weight_of_representable round round_proper train r Hrep Hr Hhr)
      as [Hc _].
    rewrite (group_total_const (weight_of round train) (label r)
               (round (1 / inject_Z (Z.of_nat
                         (count_label (map label train) (label r)))))).
    - apply inverse_count_error. lia.
    - intros r' Hr' Hrr'.
      destruct (weight_of_representable round round_proper train r' Hrep Hr')
        as [_ Hw].
      { rewrite Forall_forall in Hh. apply Hh, list_elem_of_In, Hr'. }
      rewrite Hw, (count_label_congr _ _ _ Hrr'). reflexivity. }
  exists (map (weight_of round train) train). split; [|split].
  - apply weights_run; [|exact Hh].
    apply (representable_nonzero round (length train) Hrep).
  - exact Hone.
  - intros r r' Hr Hr'.
    destruct (Hone r Hr) as [_ Hup]. destruct (Hone r' Hr') as [Hlow _].
    change (2 ^ 52)%positive with 4503599627370496%positive.
    change (2 ^ 53)%positive with 9007199254740992%positive in *.
    lra.
Qed.

End Binary64Totals.

Lemma exact_proper (a b : Q) : (a == b)%Q -> (exact a == exact b)%Q.
Proof. intros H. exact H. Qed.

Lemma exact_exact (q : Q) : (exact q == q)%Q.
Proof. reflexivity. Qed.

Lemma mixed_split_hashable :
  Forall (fun r => py_hashable (label r) = true) mixed_split.
Proof. repeat constructor. Qed.

Lemma sample_records_hashable :
  Forall (fun r => py_hashable (label r) = true) sample_records.
Proof. repeat constructor. Qed.

(** Small counts are doubles. *)
Lemma binary64_small_counts (c : Z) :
  1 <= c <= 2 -> (Binary64.round (inject_Z c) == inject_Z c)%Q.
Proof.
  intros Hc. assert (c = 1 \/ c = 2) as [-> | ->] by lia;
    vm_compute; reflexivity.
Qed.

Lemma weights_inverse_label_count_witness :
  exists ws : list Q,
    weights Binary64.round mixed_split = Ok ws /\ length ws = 2%nat /\
    exists wt : Q, ws !! 0%nat = Some wt /\ (wt == 1)%Q.
Proof.
  destruct (weights_inverse_label_count Binary64.round round_proper mixed_split
              binary64_small_counts mixed_split_hashable)
    as (ws & Hrun & Hlen & Hw).
  exists ws. split; [exact Hrun|]. split; [exact Hlen|].
  destruct (Hw 0%nat rec_a1 eq_refl) as (wt & Hwt & _ & Heq).
  exists wt. split; [exact Hwt|].
  rewrite Heq. vm_compute. reflexivity.
Defined.

(** The scenario on doubles: 1.0 for the schizont record next to a ring
    record, 0.5 for each of two ring records. *)
Example weights_scenario_binary64 :
  (exists w1 w2 : Q,
     weights Binary64.round mixed_split = Ok [w1; w2] /\
     (w1 == 1)%Q /\ (w2 == 1)%Q) /\
  (exists w1 w2 : Q,
     weights Binary64.round ring_split = Ok [w1; w2] /\
     (w1 == 1 # 2)%Q /\ (w2 == 1 # 2)%Q).
Proof.
  apply (weights_scenario Binary64.round round_proper);
    vm_compute; reflexivity.
Qed.

(** The scenario in exact arithmetic. *)
Example weights_scenario_exact :
  weights exact mixed_split = Ok [1; 1]%Q /\
  weights exact ring_split = Ok [1 # 2; 1 # 2]%Q.
Proof. split; vm_compute; reflexivity. Qed.

(** Three ring records and one schizont record: each ring record weighs one
    third, the schizont record one. *)
Example weights_sample_records :
  weights exact sample_records = Ok [1 # 3; 1; 1 # 3; 1 # 3]%Q.
Proof. vm_compute. reflexivity. Qed.

Lemma weights_label_totals_near_one_witness :
  exists ws : list Q,
    weights Binary64.round sample_records = Ok ws /\
    (1 - (1 # 2 ^ 53) <= group_total sample_records ws (JStr "ring"))%Q /\
    (group_total sample_records ws (JStr "ring") <= 1 + (1 # 2 ^ 53))%Q /\
    (group_total sample_records ws (JStr "schizont")
       - group_total sample_records ws (JStr "ring") <= 1 # 2 ^ 52)%Q.
Proof.
  destruct (weights_label_totals_near_one sample_records)
    as (ws & Hrun & Hone & Hdiff).
  - simpl. lia.
  - exact sample_records_hashable.
  - exists ws. split; [exact Hrun|].
    destruct (Hone rec_a0 (or_introl eq_refl)) as [Hlo Hhi].
    split; [exact Hlo|]. split; [exact Hhi|].
    exact (Hdiff rec_a1 rec_a0 (or_intror (or_introl eq_refl)) (or_introl eq_refl)).
Defined.

(** C5, the claim as stated fails: on doubles the totals of two labels
    need not be equal.  Of three ring records each weighs the double
    nearest to one third, which is below one third, so their weights add
    up to [1 - 2^-54], while the weight of the single schizont record is
    1. *)
Lemma weights_totals_counterexample :
  exists ws : list Q,
    weights Binary64.round sample_records = Ok ws /\
    (group_total sample_records ws (JStr "ring") == 1 - (1 # 2 ^ 54))%Q /\
    (group_total sample_records ws (JStr "schizont") == 1)%Q /\
    ~ (group_total sample_records ws (JStr "ring")
       == group_total sample_records ws (JStr "schizont"))%Q.
Proof.
  eexists. split; [vm_compute; reflexivity|].
  split; [vm_compute; reflexivity|]. split; [vm_compute; reflexivity|].
  vm_compute. discriminate.
Qed.

(** ** The dataset wrapper *)





(** What the image library raises comes through unchanged: an empty image
    name names the data directory, a box beyond the range of a C [int]
    overflows in the crop, and a truncated image file fails to decode. *)
Example dataset_getitem_library_errors :
  dataset_getitem edge_fs sample_label2idx (list Z) edge_dataset 0
    = Raise IsADirectoryError /\
  dataset_getitem edge_fs sample_label2idx (list Z) edge_dataset 1
    = Raise OverflowError /\
  dataset_getitem edge_fs sample_label2idx (list Z) edge_dataset 2
    = Raise OSError.
Proof. repeat split; vm_compute; reflexivity. Qed.

(** ** The evaluation report *)

Lemma insert_unique_In (z y : Z) (l : list Z) :
  In y (insert_unique z l) <-> y = z \/ In y l.
Proof.
  induction l as [|h l IH]; simpl; [intuition|].
  destruct (Z.ltb_spec z h); [simpl; intuition|].
  destruct (Z.eqb_spec z h); simpl; [subst; intuition|].
  rewrite IH. intuition.
Qed.

Lemma insert_unique_sorted (z : Z) (l : list Z) :
  StronglySorted Z.lt l -> StronglySorted Z.lt (insert_unique z l).
Proof.
  induction 1 as [|h l Hs IH Hall]; simpl.
  - repeat constructor.
  - destruct (Z.ltb_spec z h).
    + constructor; [constructor; assumption|].
      constructor; [assumption|].
      eapply Forall_impl; [exact Hall|]. intros a Ha. simpl in Ha. lia.
    + destruct (Z.eqb_spec z h); [constructor; assumption|].
      constructor; [exact IH|].
      apply Forall_forall. intros a Ha.
      apply list_elem_of_In, insert_unique_In in Ha. destruct Ha as [->|Ha]; [lia|].
      rewrite Forall_forall in Hall. apply Hall, list_elem_of_In, Ha.
Qed.

Lemma np_unique_In (y : Z) (l : list Z) : In y (np_unique l) <-> In y l.
Proof.
  unfold np_unique. induction l as [|h l IH]; simpl; [reflexivity|].
  rewrite insert_unique_In, IH. intuition.
Qed.

Lemma np_unique_sorted (l : list Z) : StronglySorted Z.lt (np_unique l).
Proof.
  unfold np_unique. induction l as [|h l IH]; simpl; [constructor|].
  apply insert_unique_sorted, IH.
Qed.

(** An increasing list that holds exactly the integers of a range is the
    range. *)
Lemma sorted_range (n : nat) :
  forall (a : Z) (l : list Z),
    StronglySorted Z.lt l ->
    (forall z, In z l <-> a <= z < a + Z.of_nat n) ->
    l = seqZ a (Z.of_nat n).
Proof.
  induction n as [|n IH]; intros a l Hs Hin.
  - destruct l as [|h l]; [reflexivity|].
    exfalso. specialize (Hin h). simpl in Hin. lia.
  - destruct l as [|h t].
    { exfalso. specialize (Hin a). simpl in Hin. lia. }
    inversion Hs as [|? ? Hst Hall]; subst.
    rewrite Forall_forall in Hall.
    assert (Hh : h = a).
    { pose proof (proj1 (Hin h) (or_introl eq_refl)) as Hrange.
      destruct (proj2 (Hin a) ltac:(lia)) as [->|Hat]; [reflexivity|].
      apply list_elem_of_In, Hall in Hat. lia. }
    subst h. rewrite seqZ_cons by lia. f_equal.
    replace (Z.pred (Z.of_nat (S n))) with (Z.of_nat n) by lia.
    apply IH; [exact Hst|]. intros z. split.
    + intros Hz. pose proof (Hall z (proj2 (list_elem_of_In _ _) Hz)) as Hlt.
      pose proof (proj1 (Hin z) (or_intror Hz)). lia.
    + intros Hz. destruct (proj2 (Hin z) ltac:(lia)) as [->|Hzt]; [lia|exact Hzt].
Qed.

(** When the labels lie in [0 .. K-1] and each of them occurs among the
    true or the predicted labels, the report returns the accuracy and the K
    by K matrix of the pair counts. *)
Lemma report_all_classes_present (fl : Q -> Q) (K : positive)
    (pairs : list (Z * Z)) :
  (forall z, In z (map fst pairs ++ map snd pairs) <-> 0 <= z < Z.pos K) ->
  report fl K pairs =
    Ok (accuracy_score fl pairs, count_matrix (Z.pos K) pairs).
Proof.
  intros Hall.
  assert (Hlabels : unique_labels pairs = seqZ 0 (Z.pos K)).
  { unfold unique_labels.
    replace (Z.pos K) with (Z.of_nat (Pos.to_nat K)) by lia.
    apply sorted_range; [apply np_unique_sorted|].
    intros z. rewrite np_unique_In, Hall. lia. }
  unfold report, classification_report_check, confusion_matrix.
  rewrite Hlabels, length_seqZ.
  replace (Z.to_nat (Z.pos K)) with (Pos.to_nat K) by lia.
  rewrite Nat.eqb_refl. reflexivity.
Qed.

(** The confusion-matrix scenario: true labels [0,0,1,1] and predictions
    [0,1,1,1] over two classes give the matrix [[1,1],[0,2]] and, in any
    float format in which three quarters is exact, the accuracy 0.75. *)
Lemma report_scenario (fl : Q -> Q) :
  (fl (3 # 4) == 3 # 4)%Q ->
  (forall a b : Q, (a == b)%Q -> (fl a == fl b)%Q) ->
  exists acc : Q,
    report fl 2 scenario_pairs = Ok (acc, [[1; 1]; [0; 2]]) /\ (acc == 3 # 4)%Q.
Proof.
  intros H34 Hproper. eexists. split; [reflexivity|].
  transitivity (fl (3 # 4)); [|exact H34]. apply Hproper. reflexivity.
Qed.

(** The scenario on doubles. *)
Example report_scenario_binary64 :
  exists acc : Q,
    report Binary64.round 2 scenario_pairs = Ok (acc, [[1; 1]; [0; 2]]) /\
    (acc == 3 # 4)%Q.
Proof.
  apply report_scenario; [vm_compute; reflexivity | exact round_proper].
Qed.

(** C9, at the failing input: with three classes, of which class 1 occurs
    neither among the true labels [0,0,2,2] nor among the predictions
    [0,2,2,2], the reporting cell raises [ValueError] in
    [classification_report] and outputs no matrix; [confusion_matrix] on
    these pairs is the 2 by 2 matrix of the labels present, whose second
    row and column stand for class 2, not the 3 by 3 matrix of the pair
    counts. *)
Theorem report_absent_class (fl : Q -> Q) :
  report fl 3 absent_class_pairs = Raise ValueError /\
  confusion_matrix absent_class_pairs = [[1; 1]; [0; 2]] /\
  count_matrix 3 absent_class_pairs = [[1; 0; 1]; [0; 0; 0]; [0; 0; 2]].
Proof. repeat split. Qed.

(** * Further properties *)

(** ** The annotation cell *)

Lemma py_mapM_Forall {A B : Type} (f : A -> py B) (P : B -> Prop) (l : list A) :
  (forall a b, f a = Ok b -> P b) ->
  forall bs, py_mapM f l = Ok bs -> Forall P bs.
Proof.
  intros Hf. induction l as [|a l IH]; simpl; intros bs Hbs.
  - injection Hbs as <-. constructor.
  - destruct (f a) as [b|e] eqn:Ha; simpl in Hbs; [|discriminate].
    destruct (py_mapM f l) as [bs'|e]; simpl in Hbs; [|discriminate].
    injection Hbs as <-. constructor; [eapply Hf; exact Ha | apply IH; reflexivity].
Qed.

Lemma flatten_object_bbox (p : string -> option Z) (img obj : json) (r : record) :
  flatten_object p img obj = Ok r -> length (bbox r) = 4%nat /\ image r = img.
Proof.
  unfold flatten_object. intros H.
  destruct (py_getitem obj "type"); simpl in H; [|discriminate].
  destruct (bbox_coord p obj "x"); simpl in H; [|discriminate].
  destruct (bbox_coord p obj "y"); simpl in H; [|discriminate].
  destruct (bbox_coord p obj "w"); simpl in H; [|discriminate].
  destruct (bbox_coord p obj "h"); simpl in H; [|discriminate].
  injection H as <-. split; reflexivity.
Qed.

Lemma flatten_entry_bbox (p : string -> option Z) (entry : json) (rs : list record) :
  flatten_entry p entry = Ok rs -> Forall (fun r => length (bbox r) = 4%nat) rs.
Proof.
  unfold flatten_entry. intros H.
  destruct (py_getitem entry "image_name") as [img|]; simpl in H; [|discriminate].
  destruct (py_getitem entry "objects") as [v|]; simpl in H; [|discriminate].
  destruct (py_iter v) as [objs|]; simpl in H; [|discriminate].
  eapply py_mapM_Forall; [|exact H].
  intros a b Hab. apply (flatten_object_bbox _ _ _ _ Hab).
Qed.

Lemma flatten_entries_bbox (p : string -> option Z) (entries : list json)
    (per : list (list record)) :
  py_mapM (flatten_entry p) entries = Ok per ->
  Forall (fun r => length (bbox r) = 4%nat) (concat per).
Proof.
  intros Hper. apply Forall_concat.
  eapply py_mapM_Forall; [|exact Hper].
  intros a b Hab. apply (flatten_entry_bbox _ _ _ Hab).
Qed.

(** X1: whatever the annotation value, if the flattener returns, every
    record it returns has a bounding box of exactly four integers, so the
    unpacking [x, y, w, h = rec['bbox']] of the later cells cannot fail on
    a flattened record. *)
Theorem dataset_records_bbox_length
    (int_of_str : string -> option Z) (annotations : json) (recs : list record) :
  dataset_records int_of_str annotations = Ok recs ->
  Forall (fun r => length (bbox r) = 4%nat) recs.
Proof.
  unfold dataset_records. intros H.
  destruct (py_iter annotations) as [entries|]; simpl in H; [|discriminate].
  destruct (py_mapM (flatten_entry int_of_str) entries) as [per|] eqn:Hper;
    simpl in H; [|discriminate].
  injection H as <-. eapply flatten_entries_bbox, Hper.
Qed.

Lemma sample_annotations_flattened :
  dataset_records decimal_literal (JList sample_annotations) = Ok sample_records.
Proof. reflexivity. Qed.

Lemma dataset_records_bbox_length_witness :
  Forall (fun r => length (bbox r) = 4%nat) sample_records.
Proof.
  exact (dataset_records_bbox_length decimal_literal (JList sample_annotations)
           sample_records sample_annotations_flattened).
Defined.

Section FlattenLoopFacts.

Variable int_of_str : string -> option Z.









End FlattenLoopFacts.

(** An object without ['type'] after a complete one: the loop raises
    [KeyError] and the record of the first object stays in the list. *)
Example flatten_loop_partial :
  flatten_loop decimal_literal (JList missing_type_annotations)
    = ([rec_a0], Raise KeyError) /\
  dataset_records decimal_literal (JList missing_type_annotations) = Raise KeyError.
Proof. split; reflexivity. Qed.

(** X3: an annotation value that is not a list is not rejected as such.
    A non-empty object or string raises [TypeError], at the first
    ['image_name'] lookup on one of its keys or characters; an empty
    object or string yields no records and no exception; [None], booleans
    and numbers raise [TypeError]. *)
Theorem dataset_records_not_a_list
    (int_of_str : string -> option Z) (annotations : json) :
  (forall l, annotations <> JList l) ->
  dataset_records int_of_str annotations =
    match annotations with
    | JDict [] | JStr EmptyString => Ok []
    | _ => Raise TypeError
    end.
Proof.
  intros Hl. destruct annotations as [| | | |s|l|d]; try reflexivity.
  - destruct s; reflexivity.
  - exfalso. apply (Hl l). reflexivity.
  - destruct d as [|[k v] d]; reflexivity.
Qed.

Lemma dataset_records_not_a_list_witness :
  dataset_records decimal_literal toplevel_dict_annotations = Raise TypeError.
Proof.
  apply (dataset_records_not_a_list decimal_literal toplevel_dict_annotations).
  intros l H. discriminate H.
Defined.

(** ** [Counter] *)

Lemma counter_incr_keys (c : counter) (k k0 : json) :
  py_eqb k0 k = false ->
  Forall (fun kn => py_eqb (fst kn) k0 = false) c ->
  Forall (fun kn => py_eqb (fst kn) k0 = false) (counter_incr c k).
Proof.
  intros Hk. induction 1 as [|[k1 n] c H1 Hc IH]; simpl.
  - repeat constructor. simpl.
    destruct (py_eqb k k0) eqn:E; [|reflexivity].
    rewrite (py_eqb_sym _ _ E) in Hk. discriminate.
  - destruct (py_eqb k1 k); constructor; simpl in *; assumption.
Qed.

Lemma counter_incr_ok (c : counter) (k : json) :
  counter_ok c -> counter_ok (counter_incr c k).
Proof.
  induction 1 as [|k1 n c Hn Hkeys Hc IH]; simpl.
  - repeat constructor. lia.
  - destruct (py_eqb k1 k) eqn:E.
    + constructor; [lia | assumption..].
    + constructor; [assumption | | exact IH].
      apply counter_incr_keys; [|exact Hkeys].
      destruct (py_eqb k1 k) eqn:E'; congruence.
Qed.

Lemma counter_incr_total (c : counter) (k : json) :
  counter_total (counter_incr c k) = counter_total c + 1.
Proof.
  induction c as [|[k1 n] c IH]; simpl; [reflexivity|].
  destruct (py_eqb k1 k); simpl; [lia|]. unfold counter_total in *. simpl. lia.
Qed.

Lemma counter_update_inv (l : list json) :
  forall c c' : counter,
    counter_update c l = Ok c' ->
    (counter_ok c -> counter_ok c') /\
    counter_total c' = counter_total c + Z.of_nat (length l) /\
    Forall (fun k => py_hashable k = true) l.
Proof.
  induction l as [|k l IH]; simpl; intros c c' H.
  - injection H as <-. repeat split; [tauto | lia | constructor].
  - destruct (py_hashable k) eqn:Hk; [|discriminate].
    destruct (IH _ _ H) as (Hok & Htot & Hh).
    repeat split.
    + intros Hc. apply Hok, counter_incr_ok, Hc.
    + rewrite Htot, counter_incr_total. lia.
    + constructor; assumption.
Qed.

Lemma counter_update_unhashable (l : list json) :
  forallb py_hashable l = false ->
  forall c, counter_update c l = Raise TypeError.
Proof.
  induction l as [|k l IH]; simpl; [discriminate|].
  intros H c. destruct (py_hashable k); simpl in H; [apply IH; exact H | reflexivity].
Qed.

(** [Counter(labels)] returns exactly when every label is hashable, and
    raises [TypeError] otherwise.  When it returns, its counts add up to
    [len(labels)], every count is at least one, no two keys are equal and
    the count of a key is the number of labels equal to it. *)
Lemma Counter_spec (labels : list json) :
  if forallb py_hashable labels
  then exists c : counter,
         Counter labels = Ok c /\
         counter_ok c /\
         counter_total c = Z.of_nat (length labels) /\
         forall k, counter_get c k = Z.of_nat (count_label labels k)
  else Counter labels = Raise TypeError.
Proof.
  destruct (forallb py_hashable labels) eqn:Hh.
  - assert (Hall : Forall (fun k => py_hashable k = true) labels).
    { apply Forall_forall. intros k Hk.
      rewrite forallb_forall in Hh. apply Hh, list_elem_of_In, Hk. }
    destruct (Counter_get labels Hall) as (c & Hrun & Hget).
    destruct (counter_update_inv labels [] c Hrun) as (Hok & Htot & _).
    exists c. repeat split; [exact Hrun | apply Hok; constructor | exact Htot | exact Hget].
  - apply counter_update_unhashable. exact Hh.
Qed.

(** X5: the flattener does not look at the ['type'] of an object, and the
    cell that counts the labels is where an unhashable one (a list or an
    object) surfaces, as a [TypeError].  On a well-formed annotation file
    with hashable labels the cell returns; the number of labels it prints
    is the number of objects, the counts of the [Counter] add up to it,
    every count is at least one, no two keys are equal, and the count of a
    label is the number of records that carry it. *)
Theorem annotation_cell_totals
    (int_of_str : string -> option Z) (js : list json)
    (entries : list AnnotationEntry) :
  Forall2 (represents_entry int_of_str) js entries ->
  if forallb py_hashable (map label (records_of entries))
  then exists c : counter,
         annotation_cell int_of_str (JList js) =
           Ok (records_of entries, map label (records_of entries),
               Z.of_nat (total_objects entries), c) /\
         counter_ok c /\
         counter_total c = Z.of_nat (total_objects entries) /\
         forall k, counter_get c k =
                   Z.of_nat (count_label (map label (records_of entries)) k)
  else annotation_cell int_of_str (JList js) = Raise TypeError.
Proof.
  intros Hall. unfold annotation_cell.
  rewrite (dataset_records_represented int_of_str js entries Hall). simpl.
  pose proof (Counter_spec (map label (records_of entries))) as Hc.
  destruct (forallb py_hashable (map label (records_of entries))).
  - destruct Hc as (c & Hrun & Hok & Htot & Hget).
    rewrite length_map, length_records_of in Htot.
    exists c. rewrite Hrun. simpl. rewrite length_map, length_records_of.
    repeat split; assumption.
  - rewrite Hc. reflexivity.
Qed.

Lemma list_label_annotations_represented :
  Forall2 (represents_entry decimal_literal) list_label_annotations
    list_label_entries.
Proof.
  unfold list_label_annotations, list_label_entries, json_entry, json_bbox.
  repeat constructor;
    (eexists _, _; repeat split; try reflexivity);
    repeat constructor;
    (eexists _, _; repeat split; try reflexivity);
    eexists; split; reflexivity.
Qed.

Lemma annotation_cell_totals_witness :
  annotation_cell decimal_literal (JList list_label_annotations) = Raise TypeError /\
  exists c : counter,
    annotation_cell decimal_literal (JList sample_annotations) =
      Ok (sample_records, map label sample_records, 4, c) /\
    counter_total c = 4.
Proof.
  split.
  - exact (annotation_cell_totals decimal_literal list_label_annotations
             list_label_entries list_label_annotations_represented).
  - destruct (annotation_cell_totals decimal_literal sample_annotations
                sample_entries sample_annotations_represented)
      as (c & Hrun & _ & Htot & _).
    exists c. split; [exact Hrun | exact Htot].
Defined.

(** ** The label index *)

Lemma py_eqb_str (s : string) (v : json) :
  py_eqb (JStr s) v = true <-> v = JStr s.
Proof.
  destruct v; simpl; split; intros H; try discriminate H.
  - apply String.eqb_eq in H. subst. reflexivity.
  - injection H as ->. apply String.eqb_refl.
Qed.

Lemma py_eqb_str_r (s : string) (v : json) :
  py_eqb v (JStr s) = true <-> v = JStr s.
Proof.
  split.
  - intros H. apply py_eqb_sym in H. apply py_eqb_str in H. exact H.
  - intros ->. apply py_eqb_str. reflexivity.
Qed.

Lemma existsb_str (cs : list string) (k : string) :
  existsb (fun e => py_eqb e (JStr k)) (map JStr cs) = true <-> In k cs.
Proof.
  rewrite existsb_exists. split.
  - intros (e & He & Hk). apply py_eqb_str_r in Hk. subst e.
    apply in_map_iff in He. destruct He as (k' & Hk' & Hin).
    injection Hk' as ->. exact Hin.
  - intros Hin. exists (JStr k). split; [apply in_map; exact Hin|].
    apply py_eqb_str. reflexivity.
Qed.

(** [set(...)] of strings: the distinct strings. *)
Lemma set_update_strings (ss : list string) :
  forall cs : list string,
    List.NoDup cs ->
    exists cs' : list string,
      set_update (map JStr cs) (map JStr ss) = Ok (map JStr cs') /\
      List.NoDup cs' /\
      forall s, In s cs' <-> In s cs \/ In s ss.
Proof.
  induction ss as [|k ss IH]; intros cs Hnd; simpl.
  - exists cs. split; [reflexivity|]. split; [exact Hnd|]. tauto.
  - unfold set_add. destruct (existsb _ (map JStr cs)) eqn:Hex.
    + apply existsb_str in Hex.
      destruct (IH cs Hnd) as (cs' & Hrun & Hnd' & Hin).
      exists cs'. split; [exact Hrun|]. split; [exact Hnd'|].
      intros s. rewrite Hin. intuition (subst; auto).
    + assert (Hk : ~ In k cs).
      { intros Hin. apply existsb_str in Hin. congruence. }
      change [JStr k] with (map JStr [k]). rewrite <- map_app.
      destruct (IH (cs ++ [k])) as (cs' & Hrun & Hnd' & Hin).
      { apply NoDup_ListNoDup. apply NoDup_app. repeat split.
        - apply NoDup_ListNoDup. exact Hnd.
        - intros x Hx Hx'. apply list_elem_of_In in Hx.
          apply list_elem_of_In in Hx'. destruct Hx' as [->|[]]. exact (Hk Hx).
        - apply NoDup_singleton. }
      exists cs'. split; [exact Hrun|]. split; [exact Hnd'|].
      intros s. rewrite Hin, in_app_iff. simpl. tauto.
Qed.

Section StringSort.

Lemma str_leb_lt (s t : string) :
  s <> t -> str_leb s t = true -> String_as_OT.lt s t.
Proof.
  unfold str_leb. intros Hne Hle.
  destruct (String_as_OT.compare_spec s t) as [Heq|Hlt|Hgt];
    [contradiction | exact Hlt | discriminate].
Qed.

Lemma str_leb_gt (s t : string) :
  str_leb s t = false -> String_as_OT.lt t s.
Proof.
  unfold str_leb. intros Hle.
  destruct (String_as_OT.compare_spec s t) as [Heq|Hlt|Hgt];
    [discriminate | discriminate | exact Hgt].
Qed.

Lemma lt_trans' (a b c : string) :
  String_as_OT.lt a b -> String_as_OT.lt b c -> String_as_OT.lt a c.
Proof. apply (@StrictOrder_Transitive _ _ String_as_OT.lt_strorder). Qed.

Lemma insert_by_In {A : Type} (le : A -> A -> bool) (x y : A) (l : list A) :
  In y (insert_by le x l) <-> y = x \/ In y l.
Proof.
  induction l as [|z l IH]; simpl; [intuition|].
  destruct (le x z); simpl; [intuition|]. rewrite IH. intuition.
Qed.

Lemma insert_by_sorted (x : string) (l : list string) :
  StronglySorted String_as_OT.lt l -> ~ In x l ->
  StronglySorted String_as_OT.lt (insert_by str_leb x l).
Proof.
  induction 1 as [|y l Hs IH Hall]; intros Hx; simpl.
  - repeat constructor.
  - destruct (str_leb x y) eqn:Hle.
    + assert (Hlt : String_as_OT.lt x y).
      { apply str_leb_lt; [|exact Hle]. intros ->. apply Hx. left. reflexivity. }
      constructor; [constructor; assumption|].
      constructor; [exact Hlt|].
      eapply Forall_impl; [exact Hall|]. intros z Hz. simpl in Hz.
      eapply lt_trans'; eassumption.
    + constructor.
      * apply IH. intros Hin. apply Hx. right. exact Hin.
      * apply Forall_forall. intros z Hz.
        apply list_elem_of_In, insert_by_In in Hz. destruct Hz as [->|Hz].
        -- apply str_leb_gt. exact Hle.
        -- rewrite Forall_forall in Hall. apply Hall, list_elem_of_In, Hz.
Qed.

Lemma sort_by_In {A : Type} (le : A -> A -> bool) (y : A) (l : list A) :
  In y (sort_by le l) <-> In y l.
Proof.
  unfold sort_by. induction l as [|x l IH]; simpl; [reflexivity|].
  rewrite insert_by_In, IH. intuition.
Qed.

Lemma sort_by_sorted (l : list string) :
  List.NoDup l -> StronglySorted String_as_OT.lt (sort_by str_leb l).
Proof.
  unfold sort_by. induction 1 as [|x l Hx _ IH]; simpl; [constructor|].
  apply insert_by_sorted; [exact IH|].
  intros Hin. apply Hx. apply (sort_by_In str_leb). exact Hin.
Qed.

Lemma sort_by_map_str (l : list string) :
  sort_by json_leb (map JStr l) = map JStr (sort_by str_leb l).
Proof.
  unfold sort_by. induction l as [|x l IH]; simpl; [reflexivity|].
  rewrite IH. generalize (foldr (insert_by str_leb) [] l). clear.
  intros l. induction l as [|y l IH]; simpl; [reflexivity|].
  destruct (str_leb x y); simpl; [reflexivity|]. rewrite IH. reflexivity.
Qed.

(** Two increasing lists with the same members are equal. *)
Lemma sorted_unique (l1 : list string) :
  forall l2,
    StronglySorted String_as_OT.lt l1 -> StronglySorted String_as_OT.lt l2 ->
    (forall s, In s l1 <-> In s l2) -> l1 = l2.
Proof.
  assert (Hirr : forall s, ~ String_as_OT.lt s s).
  { apply (@StrictOrder_Irreflexive _ _ String_as_OT.lt_strorder). }
  induction l1 as [|x l1 IH]; intros l2 H1 H2 Hin.
  - destruct l2 as [|y l2]; [reflexivity|].
    exfalso. apply (Hin y). left. reflexivity.
  - destruct l2 as [|y l2].
    { exfalso. apply (Hin x). left. reflexivity. }
    inversion H1 as [|? ? Hs1 Ha1]; subst.
    inversion H2 as [|? ? Hs2 Ha2]; subst.
    rewrite Forall_forall in Ha1, Ha2.
    assert (Hxy : x = y).
    { destruct (proj1 (Hin x) (or_introl eq_refl)) as [Hyx|Hx2]; [auto|].
      destruct (proj2 (Hin y) (or_introl eq_refl)) as [Hxy|Hy1]; [auto|].
      exfalso. apply (Hirr x).
      eapply lt_trans'; [apply Ha1, list_elem_of_In, Hy1|].
      apply Ha2, list_elem_of_In, Hx2. }
    subst y. f_equal. apply IH; [assumption..|].
    intros s. split; intros Hs.
    + destruct (proj1 (Hin s) (or_intror Hs)) as [<-|Hs']; [|exact Hs'].
      exfalso. apply (Hirr x), Ha1, list_elem_of_In, Hs.
    + destruct (proj2 (Hin s) (or_intror Hs)) as [<-|Hs']; [|exact Hs'].
      exfalso. apply (Hirr x), Ha2, list_elem_of_In, Hs.
Qed.

Lemma sorted_NoDup (l : list string) :
  StronglySorted String_as_OT.lt l -> List.NoDup l.
Proof.
  induction 1 as [|x l Hs IH Hall]; constructor; [|exact IH].
  intros Hin. rewrite Forall_forall in Hall.
  apply (@StrictOrder_Irreflexive _ _ String_as_OT.lt_strorder x).
  apply Hall, list_elem_of_In, Hin.
Qed.

End StringSort.

Lemma py_sorted_set_strings (cs : list string) :
  List.NoDup cs ->
  exists cs' : list string,
    py_sorted_set (map JStr cs) = Ok (map JStr cs') /\
    StronglySorted String_as_OT.lt cs' /\
    forall s, In s cs' <-> In s cs.
Proof.
  intros Hnd. unfold py_sorted_set.
  destruct (length (map JStr cs) <=? 1)%nat eqn:Hlen.
  - exists cs. split; [reflexivity|]. split; [|tauto].
    apply Nat.leb_le in Hlen. rewrite length_map in Hlen.
    destruct cs as [|a [|b cs]]; simpl in Hlen; try lia; repeat constructor.
  - assert (Hstr : forallb is_str (map JStr cs) = true).
    { apply forallb_forall. intros v Hv. apply in_map_iff in Hv.
      destruct Hv as (s & <- & _). reflexivity. }
    rewrite Hstr. simpl. rewrite sort_by_map_str.
    exists (sort_by str_leb cs). split; [reflexivity|].
    split; [apply sort_by_sorted; exact Hnd | intros s; apply (sort_by_In str_leb)].
Qed.

Lemma classes_of_strings_aux (ss : list string) :
  exists cs : list string,
    classes_of (map JStr ss) = Ok (map JStr cs) /\
    StronglySorted String_as_OT.lt cs /\
    forall s, In s cs <-> In s ss.
Proof.
  destruct (set_update_strings ss [] (List.NoDup_nil _)) as (s0 & Hset & Hnd & Hin0).
  destruct (py_sorted_set_strings s0 Hnd) as (cs & Hsort & Hsorted & Hin).
  exists cs. split.
  - unfold classes_of, py_set. simpl in Hset. rewrite Hset. exact Hsort.
  - split; [exact Hsorted|].
    intros s. rewrite Hin, Hin0. simpl. tauto.
Qed.

(** X6: for string labels [classes = sorted(set(labels))] returns the
    distinct labels in increasing order: no label twice, every label of the
    records and nothing else. *)
Theorem classes_of_strings (ss : list string) :
  exists cs : list string,
    classes_of (map JStr ss) = Ok (map JStr cs) /\
    StronglySorted String_as_OT.lt cs /\
    List.NoDup cs /\
    forall s, In s cs <-> In s ss.
Proof.
  destruct (classes_of_strings_aux ss) as (cs & Hrun & Hsorted & Hin).
  exists cs. split; [exact Hrun|]. split; [exact Hsorted|].
  split; [apply sorted_NoDup; exact Hsorted | exact Hin].
Qed.

(** X7: the classes, and with them the label indices, do not depend on the
    order of the records: two label lists that are permutations of one
    another give the same [classes]. *)
Theorem classes_of_permutation (ss ss' : list string) :
  Permutation ss ss' ->
  classes_of (map JStr ss) = classes_of (map JStr ss').
Proof.
  intros Hperm.
  destruct (classes_of_strings_aux ss) as (cs & Hrun & Hsorted & Hin).
  destruct (classes_of_strings_aux ss') as (cs' & Hrun' & Hsorted' & Hin').
  rewrite Hrun, Hrun'. do 2 f_equal.
  apply sorted_unique; [assumption..|].
  intros s. rewrite Hin, Hin'. split; apply Permutation_in;
    [exact Hperm | symmetry; exact Hperm].
Qed.

Lemma assoc_set_fresh (d : list (json * Z)) (k : json) (v : Z) :
  Forall (fun kv => py_eqb (fst kv) k = false) d ->
  assoc_set d k v = d ++ [(k, v)].
Proof.
  induction 1 as [|[k' v'] d Hk _ IH]; simpl; [reflexivity|].
  simpl in Hk. rewrite Hk, IH. reflexivity.
Qed.

Lemma int_assoc_set_fresh (d : list (Z * json)) (i : Z) (c : json) :
  Forall (fun ic => fst ic <> i) d ->
  int_assoc_set d i c = d ++ [(i, c)].
Proof.
  induction 1 as [|[i' c'] d Hi _ IH]; simpl; [reflexivity|].
  simpl in Hi. destruct (Z.eqb_spec i' i); [contradiction|].
  rewrite IH. reflexivity.
Qed.

Lemma str_neq_eqb (a b : string) : a <> b -> py_eqb (JStr a) (JStr b) = false.
Proof.
  intros Hne. destruct (py_eqb (JStr a) (JStr b)) eqn:E; [|reflexivity].
  apply py_eqb_str in E. injection E as ->. contradiction.
Qed.

Lemma label2idx_from_strings (cs : list string) :
  forall (i : Z) (d : list (json * Z)),
    List.NoDup cs ->
    Forall (fun kv => exists s, fst kv = JStr s /\ ~ In s cs) d ->
    label2idx_from i (map JStr cs) d = Ok (d ++ enumerate_from i (map JStr cs)).
Proof.
  induction cs as [|c cs IH]; intros i d Hnd Hd; simpl.
  - rewrite app_nil_r. reflexivity.
  - inversion Hnd as [|? ? Hc Hnd']; subst.
    rewrite assoc_set_fresh.
    + rewrite IH; [rewrite <- app_assoc; reflexivity | exact Hnd' |].
      apply Forall_app. split.
      * eapply Forall_impl; [exact Hd|]. intros kv (s & Hs & Hin).
        exists s. split; [exact Hs|]. intros Hin'. apply Hin. right. exact Hin'.
      * repeat constructor. exists c. split; [reflexivity | exact Hc].
    + eapply Forall_impl; [exact Hd|]. intros kv (s & Hs & Hin).
      rewrite Hs. apply str_neq_eqb. intros ->. apply Hin. left. reflexivity.
Qed.

Lemma assoc_get_enumerate (cs : list string) :
  forall (i : Z) (s : string),
    assoc_get (enumerate_from i (map JStr cs)) (JStr s) =
      match list_find (fun c => c = s) cs with
      | Some (j, _) => Some (i + Z.of_nat j)
      | None => None
      end.
Proof.
  induction cs as [|c cs IH]; intros i s; [reflexivity|].
  cbn [map enumerate_from assoc_get list_find].
  destruct (decide (c = s)) as [->|Hne].
  - rewrite (proj2 (py_eqb_str s (JStr s)) eq_refl). simpl. f_equal. lia.
  - rewrite (str_neq_eqb c s Hne). rewrite (IH (i + 1) s).
    destruct (list_find (fun c0 => c0 = s) cs) as [[j x]|]; simpl; [|reflexivity].
    f_equal. lia.
Qed.

Lemma make_idx2label_enumerate (cs : list json) :
  forall (i : Z) (acc : list (Z * json)),
    Forall (fun ic => fst ic < i) acc ->
    fold_left (fun d ci => int_assoc_set d (snd ci) (fst ci))
      (enumerate_from i cs) acc =
    acc ++ map (fun ci => (snd ci, fst ci)) (enumerate_from i cs).
Proof.
  induction cs as [|c cs IH]; intros i acc Hacc; simpl.
  - rewrite app_nil_r. reflexivity.
  - rewrite int_assoc_set_fresh.
    + rewrite IH; [rewrite <- app_assoc; reflexivity|].
      apply Forall_app. split.
      * eapply Forall_impl; [exact Hacc|]. intros ic Hic. simpl in *. lia.
      * repeat constructor. simpl. lia.
    + eapply Forall_impl; [exact Hacc|]. intros ic Hic. simpl in *. lia.
Qed.

Lemma int_assoc_get_enumerate (cs : list json) :
  forall i j : Z,
    int_assoc_get (map (fun ci => (snd ci, fst ci)) (enumerate_from i cs)) j =
      if (i <=? j) then cs !! Z.to_nat (j - i) else None.
Proof.
  induction cs as [|c cs IH]; intros i j; simpl.
  - destruct (i <=? j); reflexivity.
  - destruct (Z.eqb_spec i j) as [->|Hne].
    + rewrite Z.leb_refl, Z.sub_diag. reflexivity.
    + rewrite IH. destruct (Z.leb_spec i j), (Z.leb_spec (i + 1) j); try lia.
      * replace (Z.to_nat (j - i)) with (S (Z.to_nat (j - (i + 1)))) by lia.
        reflexivity.
      * reflexivity.
Qed.

(** The cell on string labels, spelled out. *)
Lemma label_cell_strings (ss : list string) :
  exists cs : list string,
    StronglySorted String_as_OT.lt cs /\
    (forall s, In s cs <-> In s ss) /\
    label_cell (map JStr ss) =
      Ok (map JStr cs, enumerate_from 0 (map JStr cs),
          map (fun ci => (snd ci, fst ci)) (enumerate_from 0 (map JStr cs))).
Proof.
  destruct (classes_of_strings_aux ss) as (cs & Hrun & Hsorted & Hin).
  exists cs. split; [exact Hsorted|]. split; [exact Hin|].
  unfold label_cell. rewrite Hrun. simpl. unfold make_label2idx.
  rewrite (label2idx_from_strings cs 0 [] (sorted_NoDup cs Hsorted) (List.Forall_nil _)).
  simpl. unfold make_idx2label.
  rewrite (make_idx2label_enumerate (map JStr cs) 0 [] (List.Forall_nil _)).
  reflexivity.
Qed.

Lemma enumerate_lookup (cs : list string) (s : string) (j : nat) :
  List.NoDup cs -> cs !! j = Some s ->
  label_index (enumerate_from 0 (map JStr cs)) (JStr s) = Ok (Z.of_nat j) /\
  idx_label (map (fun ci => (snd ci, fst ci)) (enumerate_from 0 (map JStr cs)))
    (Z.of_nat j) = Ok (JStr s).
Proof.
  intros Hnd Hj.
  assert (Hfind : list_find (fun c => c = s) cs = Some (j, s)).
  { apply list_find_Some. split; [exact Hj|]. split; [reflexivity|].
    intros k y Hk Hlt ->. apply NoDup_ListNoDup in Hnd.
    pose proof (NoDup_lookup _ _ _ _ Hnd Hj Hk). lia. }
  unfold label_index, idx_label. simpl.
  rewrite (assoc_get_enumerate cs 0 s), Hfind.
  rewrite int_assoc_get_enumerate.
  destruct (Z.leb_spec 0 (Z.of_nat j)); [|lia].
  rewrite Z.sub_0_r, Nat2Z.id, list_lookup_fmap, Hj. split; reflexivity.
Qed.

(** X8: label and index determine one another.  For string labels the
    cell returns; every label of the records has an index between 0 and
    [len(classes) - 1], and [idx2label] leads back from that index to the
    label; every index in that range names a class whose index it is; a
    string that is no label, and an index out of range, raise
    [KeyError]. *)
Theorem label_index_round_trip (ss : list string) :
  exists (classes : list json) (label2idx : list (json * Z))
         (idx2label : list (Z * json)),
    label_cell (map JStr ss) = Ok (classes, label2idx, idx2label) /\
    (forall s, In s ss ->
       exists i, label_index label2idx (JStr s) = Ok i /\
                 0 <= i < Z.of_nat (length classes) /\
                 idx_label idx2label i = Ok (JStr s)) /\
    (forall i, 0 <= i < Z.of_nat (length classes) ->
       exists c, classes !! Z.to_nat i = Some c /\
                 idx_label idx2label i = Ok c /\
                 label_index label2idx c = Ok i) /\
    (forall s, ~ In s ss -> label_index label2idx (JStr s) = Raise KeyError) /\
    (forall i, ~ 0 <= i < Z.of_nat (length classes) ->
       idx_label idx2label i = Raise KeyError).
Proof.
  destruct (label_cell_strings ss) as (cs & Hsorted & Hin & Hrun).
  pose proof (sorted_NoDup cs Hsorted) as Hnd.
  eexists _, _, _. split; [exact Hrun|].
  assert (Hlook : forall s j, cs !! j = Some s ->
            label_index (enumerate_from 0 (map JStr cs)) (JStr s) = Ok (Z.of_nat j) /\
            idx_label (map (fun ci => (snd ci, fst ci)) (enumerate_from 0 (map JStr cs)))
              (Z.of_nat j) = Ok (JStr s)).
  { intros s j. apply enumerate_lookup. exact Hnd. }
  rewrite length_map. repeat split.
  - intros s Hs. apply Hin in Hs. apply list_elem_of_In in Hs.
    apply list_elem_of_lookup in Hs. destruct Hs as [j Hj].
    destruct (Hlook s j Hj) as [H1 H2].
    exists (Z.of_nat j). split; [exact H1|]. split; [|exact H2].
    apply lookup_lt_Some in Hj. lia.
  - intros i Hi.
    destruct (lookup_lt_is_Some_2 cs (Z.to_nat i) ltac:(lia)) as [s Hs].
    destruct (Hlook s (Z.to_nat i) Hs) as [H1 H2].
    rewrite Z2Nat.id in H1, H2 by lia.
    exists (JStr s). split; [rewrite list_lookup_fmap, Hs; reflexivity|].
    split; assumption.
  - intros s Hs. unfold label_index. simpl.
    rewrite (assoc_get_enumerate cs 0 s).
    destruct (list_find (fun c => c = s) cs) as [[j x]|] eqn:Hf; [|reflexivity].
    exfalso. apply list_find_Some in Hf. destruct Hf as (Hj & -> & _).
    apply Hs, Hin, list_elem_of_In. eapply list_elem_of_lookup_2. exact Hj.
  - intros i Hi. unfold idx_label. rewrite int_assoc_get_enumerate.
    destruct (Z.leb_spec 0 i); [|reflexivity].
    rewrite Z.sub_0_r, list_lookup_fmap.
    rewrite (lookup_ge_None_2 cs (Z.to_nat i)) by lia. reflexivity.
Qed.

Lemma set_update_unhashable (l : list json) :
  forallb py_hashable l = false ->
  forall s, set_update s l = Raise TypeError.
Proof.
  induction l as [|k l IH]; simpl; [discriminate|].
  intros H s. destruct (py_hashable k); simpl in H; [apply IH; exact H | reflexivity].
Qed.

Lemma set_update_hashable (l : list json) :
  forallb py_hashable l = true ->
  forall s, exists s', set_update s l = Ok s'.
Proof.
  induction l as [|k l IH]; simpl; intros H s; [exists s; reflexivity|].
  apply andb_prop in H. destruct H as [Hk Hl]. rewrite Hk. apply IH, Hl.
Qed.

Lemma set_update_members (l : list json) :
  forall s s' : list json,
    set_update s l = Ok s' ->
    (forall y, In y s -> In y s') /\
    (forall x, In x l -> exists y, In y s' /\ py_eqb y x = true).
Proof.
  induction l as [|k l IH]; simpl; intros s s' H.
  - injection H as <-. split; [tauto|]. intros x [].
  - destruct (py_hashable k) eqn:Hk; [|discriminate].
    destruct (IH _ _ H) as (Hkeep & Hcover).
    assert (Hadd : forall y, In y s -> In y (set_add s k)).
    { intros y Hy. unfold set_add. destruct (existsb _ s); [exact Hy|].
      apply in_app_iff. left. exact Hy. }
    split; [intros y Hy; apply Hkeep, Hadd, Hy|].
    intros x [<-|Hx]; [|apply Hcover, Hx].
    unfold set_add in Hkeep. destruct (existsb _ s) eqn:Hex.
    + apply existsb_exists in Hex. destruct Hex as (y & Hy & Hyk).
      exists y. split; [apply Hkeep, Hy | exact Hyk].
    + exists k. split; [|apply py_eqb_refl, Hk].
      apply Hkeep, in_app_iff. right. left. reflexivity.
Qed.

Lemma two_members {A : Type} (a b : A) (l : list A) :
  In a l -> In b l -> a <> b -> (2 <= length l)%nat.
Proof.
  destruct l as [|x [|y l]]; simpl; intros Ha Hb Hne; [tauto| |lia].
  destruct Ha as [<-|[]], Hb as [<-|[]]. contradiction.
Qed.

(** X9: [sorted(set(labels))] cannot order a string against a value of
    another kind.  When the labels hold a string and a value that is no
    string, the cell raises [TypeError]: from [set] if some label is
    unhashable, from [sorted] otherwise. *)
Theorem classes_of_mixed_types (labels : list json) (a : string) (v : json) :
  In (JStr a) labels -> In v labels -> is_str v = false ->
  classes_of labels = Raise TypeError.
Proof.
  intros Ha Hv Hns. unfold classes_of, py_set.
  destruct (forallb py_hashable labels) eqn:Hh.
  2:{ rewrite set_update_unhashable by exact Hh. reflexivity. }
  destruct (set_update_hashable labels Hh []) as [s Hs]. rewrite Hs. simpl.
  destruct (set_update_members labels [] s Hs) as (_ & Hcover).
  destruct (Hcover _ Ha) as (y1 & Hy1 & He1).
  destruct (Hcover _ Hv) as (y2 & Hy2 & He2).
  apply py_eqb_str_r in He1. subst y1.
  assert (Hy2s : is_str y2 = false).
  { destruct y2; try reflexivity. apply py_eqb_str in He2. subst v. discriminate. }
  unfold py_sorted_set.
  assert (Hlen : (2 <= length s)%nat).
  { apply (two_members (JStr a) y2); [assumption..|]. intros <-. discriminate. }
  destruct (Nat.leb_spec (length s) 1); [lia|].
  assert (H1 : forallb is_str s = false).
  { destruct (forallb is_str s) eqn:E; [|reflexivity].
    rewrite forallb_forall in E. rewrite (E y2 Hy2) in Hy2s. discriminate. }
  assert (H2 : forallb is_num s = false).
  { destruct (forallb is_num s) eqn:E; [|reflexivity].
    rewrite forallb_forall in E. specialize (E (JStr a) Hy1). discriminate. }
  rewrite H1, H2. reflexivity.
Qed.

Lemma classes_of_permutation_witness :
  classes_of (map JStr ["ring"; "schizont"; "ring"; "ring"]) =
  classes_of (map JStr ["ring"; "ring"; "schizont"; "ring"]).
Proof.
  apply classes_of_permutation.
  apply perm_skip, perm_swap.
Defined.

(** The classes of the sample records. *)
Example classes_of_sample :
  label_cell (map label sample_records) =
    Ok ([JStr "ring"; JStr "schizont"],
        [(JStr "ring", 0); (JStr "schizont", 1)],
        [(0, JStr "ring"); (1, JStr "schizont")]).
Proof. reflexivity. Qed.

Lemma classes_of_mixed_types_witness :
  classes_of [JStr "ring"; JInt 3; JStr "ring"] = Raise TypeError.
Proof.
  apply (classes_of_mixed_types _ "ring" (JInt 3)).
  - left. reflexivity.
  - right. left. reflexivity.
  - reflexivity.
Defined.

(** ** Fetching from the dataset *)

Lemma list_getitem_index {A : Type} (l : list A) (idx : Z) :
  list_getitem l idx =
    let n := Z.of_nat (length l) in
    if (idx <? - n) || (n <=? idx) then Raise IndexError
    else list_getitem l (idx mod n).
Proof.
  cbv zeta. set (n := Z.of_nat (length l)).
  destruct (Z.ltb_spec idx (- n)) as [Hlo|Hlo]; simpl.
  - unfold list_getitem. fold n.
    replace (idx <? 0) with true by (symmetry; apply Z.ltb_lt; lia).
    replace (idx + n <? 0) with true by (symmetry; apply Z.ltb_lt; lia).
    reflexivity.
  - destruct (Z.leb_spec n idx) as [Hhi|Hhi].
    + unfold list_getitem. fold n.
      replace (idx <? 0) with false by (symmetry; apply Z.ltb_ge; lia).
      replace (idx <? 0) with false by (symmetry; apply Z.ltb_ge; lia).
      replace (n <=? idx) with true by (symmetry; apply Z.leb_le; lia).
      reflexivity.
    + destruct (Z.ltb_spec idx 0) as [Hneg|Hpos].
      * replace (idx mod n) with (idx + n).
        2:{ apply Z.mod_unique with (q := -1); lia. }
        assert (H1 : (idx <? 0) = true) by (apply Z.ltb_lt; lia).
        assert (H2 : (idx + n <? 0) = false) by (apply Z.ltb_ge; lia).
        unfold list_getitem. fold n. cbv zeta.
        rewrite H1. cbv iota. rewrite !H2. cbv iota. reflexivity.
      * rewrite Z.mod_small by lia. reflexivity.
Qed.

(** X10: [__getitem__] indexes like a Python list.  An index below
    [-len(self)] or from [len(self)] on raises [IndexError] before any file
    is touched; any other index fetches what its residue modulo
    [len(self)] fetches, so [-1] is the last record. *)
Theorem dataset_getitem_index
    (fs : gmap string file) (label2idx : list (json * Z)) (Tensor : Type)
    (self : MalariaDataset Tensor) (idx : Z) :
  dataset_getitem fs label2idx Tensor self idx =
    let n := dataset_len Tensor self in
    if (idx <? - n) || (n <=? idx) then Raise IndexError
    else dataset_getitem fs label2idx Tensor self (idx mod n).
Proof.
  unfold dataset_getitem, dataset_len. cbv zeta.
  rewrite (list_getitem_index (records Tensor self) idx). cbv zeta.
  destruct ((idx <? - Z.of_nat (length (records Tensor self)))
            || (Z.of_nat (length (records Tensor self)) <=? idx)); reflexivity.
Qed.

Lemma list_getitem_In {A : Type} (l : list A) (idx : Z) (a : A) :
  list_getitem l idx = Ok a -> In a l.
Proof.
  unfold list_getitem. intros H.
  destruct (_ || _); [discriminate|].
  destruct (l !! _) as [x|] eqn:Hx; [|discriminate].
  injection H as <-. apply list_elem_of_In. eapply list_elem_of_lookup_2. exact Hx.
Qed.

Lemma list_getitem_in_range {A : Type} (l : list A) (idx : Z) :
  - Z.of_nat (length l) <= idx < Z.of_nat (length l) ->
  exists a, list_getitem l idx = Ok a.
Proof.
  intros Hidx. unfold list_getitem. set (n := Z.of_nat (length l)) in *.
  destruct (Z.ltb_spec idx 0).
  - destruct (Z.ltb_spec (idx + n) 0); [lia|].
    destruct (Z.leb_spec n (idx + n)); [lia|]. simpl.
    destruct (lookup_lt_is_Some_2 l (Z.to_nat (idx + n)) ltac:(lia)) as [x Hx].
    rewrite Hx. eexists. reflexivity.
  - destruct (Z.ltb_spec idx 0); [lia|].
    destruct (Z.leb_spec n idx); [lia|]. simpl.
    destruct (lookup_lt_is_Some_2 l (Z.to_nat idx) ltac:(lia)) as [x Hx].
    rewrite Hx. eexists. reflexivity.
Qed.

(** What fetching does once the record is found. *)
Lemma dataset_getitem_of_record
    (fs : gmap string file) (label2idx : list (json * Z)) (Tensor : Type)
    (self : MalariaDataset Tensor) (idx : Z) (rec : record) (lbl : Z) :
  list_getitem (records Tensor self) idx = Ok rec ->
  is_str (image rec) = true ->
  length (bbox rec) = 4%nat ->
  label_index label2idx (label rec) = Ok lbl ->
  match dataset_getitem fs label2idx Tensor self idx with
  | Ok (_, l) => l = lbl
  | Raise e => raised_by_call fs self rec e
  end.
Proof.
  intros Hget Himg Hbox Hlbl. unfold dataset_getitem. rewrite Hget. simpl.
  destruct (image rec) as [| | | |name| |] eqn:Hname; try discriminate Himg. simpl.
  destruct (bbox rec) as [|x [|y [|w [|h [|? ?]]]]] eqn:Hb; try discriminate Hbox.
  destruct (image_open fs (path_join DATA_DIR name)) as [img|e] eqn:Hopen; simpl.
  2:{ exists name, x, y, w, h. split; [exact Hname|]. split; [exact Hb|].
      left. exact Hopen. }
  destruct (image_crop img x y (x + w) (y + h)) as [crop|e] eqn:Hcrop; simpl.
  2:{ exists name, x, y, w, h. split; [exact Hname|]. split; [exact Hb|].
      right. exists img. split; [exact Hopen|]. left. exact Hcrop. }
  rewrite Hlbl.
  destruct (transform Tensor self) as [f|] eqn:Hf; simpl; [|reflexivity].
  destruct (f crop) as [t|e] eqn:Ht; simpl; [reflexivity|].
  exists name, x, y, w, h. split; [exact Hname|]. split; [exact Hb|].
  right. exists img. split; [exact Hopen|]. right.
  exists crop, f. split; [exact Hcrop|]. split; [exact Hf | exact Ht].
Qed.

(** X11: on records with a string image name, a four-integer box and a
    label that [label2idx] knows, and for an index in range, the
    bookkeeping of [__getitem__] raises nothing of its own, no
    [IndexError], [TypeError], [ValueError] or [KeyError]: an exception
    that leaves the call is the one that [Image.open(...).convert], the
    crop or the transform raised for the record at that position, and a
    sample that is returned carries the index that [label2idx] gives to
    the label of that record. *)
Theorem dataset_getitem_errors
    (fs : gmap string file) (label2idx : list (json * Z)) (Tensor : Type)
    (self : MalariaDataset Tensor) (idx : Z) :
  Forall (fun r => is_str (image r) = true /\
                   length (bbox r) = 4%nat /\
                   is_ok (label_index label2idx (label r)) = true)
         (records Tensor self) ->
  - dataset_len Tensor self <= idx < dataset_len Tensor self ->
  exists rec : record,
    list_getitem (records Tensor self) idx = Ok rec /\
    match dataset_getitem fs label2idx Tensor self idx with
    | Ok (_, lbl) => label_index label2idx (label rec) = Ok lbl
    | Raise e => raised_by_call fs self rec e
    end.
Proof.
  intros Hrecs Hidx. unfold dataset_len in Hidx.
  destruct (list_getitem_in_range _ _ Hidx) as [rec Hget].
  exists rec. split; [exact Hget|].
  rewrite Forall_forall in Hrecs.
  destruct (Hrecs rec) as (Himg & Hbox & Hlbl).
  { apply list_elem_of_In. eapply list_getitem_In. exact Hget. }
  destruct (label_index label2idx (label rec)) as [lbl|] eqn:Hl; [|discriminate Hlbl].
  pose proof (dataset_getitem_of_record fs label2idx Tensor self idx rec lbl
                Hget Himg Hbox Hl) as H.
  destruct (dataset_getitem fs label2idx Tensor self idx) as [[out l]|e];
    [|exact H].
  subst l. reflexivity.
Qed.

Lemma edge_dataset_records :
  Forall (fun r => is_str (image r) = true /\
                   length (bbox r) = 4%nat /\
                   is_ok (label_index sample_label2idx (label r)) = true)
         (records (list Z) edge_dataset).
Proof. repeat constructor. Qed.

Lemma dataset_getitem_errors_witness :
  exists rec : record,
    list_getitem (records (list Z) edge_dataset) 1 = Ok rec /\
    match dataset_getitem edge_fs sample_label2idx (list Z) edge_dataset 1 with
    | Ok (_, lbl) => label_index sample_label2idx (label rec) = Ok lbl
    | Raise e => raised_by_call edge_fs edge_dataset rec e
    end.
Proof.
  apply (dataset_getitem_errors edge_fs sample_label2idx (list Z) edge_dataset 1
           edge_dataset_records).
  unfold dataset_len. simpl. lia.
Defined.

Example plain_dataset_negative_index :
  match dataset_getitem sample_fs sample_label2idx (list Z) plain_dataset (-3) with
  | Ok (inl img, lbl) => width img = 3 /\ height img = 12 /\ lbl = 1
  | _ => False
  end.
Proof. vm_compute. repeat split. Qed.

Lemma all_str_map (l : list json) :
  Forall (fun j => is_str j = true) l -> exists ss, l = map JStr ss.
Proof.
  induction 1 as [|j l Hj _ [ss ->]]; [exists []; reflexivity|].
  destruct j; try discriminate Hj.
  match goal with |- context [JStr ?s :: _] => exists (s :: ss) end. reflexivity.
Qed.

(** X12: the cells of the notebook fit together.  When the flattener
    returns records whose image names and labels are strings, and the
    label cell is run on their labels, a dataset over any selection of
    these records (a split, in any order, with or without a transform)
    answers every index in range with a sample whose label index lies
    between 0 and [len(classes) - 1] and is led back by [idx2label] to the
    label of the record at that position, or else with the exception that
    [Image.open(...).convert], the crop or the transform raised for that
    record. *)
Theorem notebook_fetch
    (int_of_str : string -> option Z) (fs : gmap string file)
    (annotations : json) (recs : list record)
    (classes : list json) (label2idx : list (json * Z)) (idx2label : list (Z * json))
    (Tensor : Type) (self : MalariaDataset Tensor) (idx : Z) :
  dataset_records int_of_str annotations = Ok recs ->
  Forall (fun r => is_str (image r) = true /\ is_str (label r) = true) recs ->
  label_cell (map label recs) = Ok (classes, label2idx, idx2label) ->
  (forall r, In r (records Tensor self) -> In r recs) ->
  - dataset_len Tensor self <= idx < dataset_len Tensor self ->
  exists rec : record,
    list_getitem (records Tensor self) idx = Ok rec /\
    match dataset_getitem fs label2idx Tensor self idx with
    | Ok (_, lbl) =>
        0 <= lbl < Z.of_nat (length classes) /\
        idx_label idx2label lbl = Ok (label rec)
    | Raise e => raised_by_call fs self rec e
    end.
Proof.
  intros Hflat Hstr Hcell Hsub Hidx. unfold dataset_len in Hidx.
  destruct (list_getitem_in_range _ _ Hidx) as [rec Hget].
  exists rec. split; [exact Hget|].
  assert (Hrec : In rec recs) by (eapply Hsub, list_getitem_In; exact Hget).
  assert (Hbox : Forall (fun r => length (bbox r) = 4%nat) recs).
  { unfold dataset_records in Hflat.
    destruct (py_iter annotations) as [entries|]; simpl in Hflat; [|discriminate].
    destruct (py_mapM (flatten_entry int_of_str) entries) as [per|] eqn:Hper;
      simpl in Hflat; [|discriminate].
    injection Hflat as <-. eapply flatten_entries_bbox, Hper. }
  rewrite Forall_forall in Hbox, Hstr.
  apply list_elem_of_In in Hrec.
  destruct (Hstr rec Hrec) as [Himg Hlabel].
  destruct (all_str_map (map label recs)) as [ss Hss].
  { apply Forall_forall. intros j Hj. apply list_elem_of_In, in_map_iff in Hj.
    destruct Hj as (r & <- & Hr). apply (Hstr r), list_elem_of_In, Hr. }
  rewrite Hss in Hcell.
  destruct (label_cell_strings ss) as (cs & Hsorted & Hin & Hrun).
  rewrite Hrun in Hcell. injection Hcell as <- <- <-.
  destruct (label rec) as [| | | |s| |] eqn:Hs; try discriminate Hlabel.
  assert (Hs_in : In s cs).
  { apply Hin.
    assert (H : In (JStr s) (map JStr ss)).
    { rewrite <- Hss, <- Hs. apply in_map, list_elem_of_In, Hrec. }
    apply in_map_iff in H. destruct H as (s' & Heq & Hs').
    injection Heq as ->. exact Hs'. }
  apply list_elem_of_In, list_elem_of_lookup in Hs_in. destruct Hs_in as [j Hj].
  destruct (enumerate_lookup cs s j (sorted_NoDup cs Hsorted) Hj) as [H1 H2].
  rewrite <- Hs in H1.
  pose proof (dataset_getitem_of_record fs _ Tensor self idx rec (Z.of_nat j)
                Hget Himg (Hbox rec Hrec) H1) as H.
  destruct (dataset_getitem fs _ Tensor self idx) as [[out l]|e]; [|exact H].
  subst l. split.
  - rewrite length_map. apply lookup_lt_Some in Hj. lia.
  - exact H2.
Qed.

Lemma sample_records_strings :
  Forall (fun r => is_str (image r) = true /\ is_str (label r) = true) sample_records.
Proof. repeat constructor. Qed.

Lemma sample_label_cell :
  label_cell (map label sample_records) =
    Ok (sample_classes, sample_label2idx, sample_idx2label).
Proof. reflexivity. Qed.

Lemma notebook_fetch_witness :
  exists rec : record,
    list_getitem (records (list Z) plain_dataset) 1 = Ok rec /\
    match dataset_getitem sample_fs sample_label2idx (list Z) plain_dataset 1 with
    | Ok (_, lbl) =>
        0 <= lbl < Z.of_nat (length sample_classes) /\
        idx_label sample_idx2label lbl = Ok (label rec)
    | Raise e => raised_by_call sample_fs plain_dataset rec e
    end.
Proof.
  apply (notebook_fetch decimal_literal sample_fs (JList sample_annotations)
           sample_records sample_classes sample_label2idx sample_idx2label
           (list Z) plain_dataset 1
           sample_annotations_flattened sample_records_strings sample_label_cell).
  - intros r Hr. exact Hr.
  - unfold dataset_len. simpl. lia.
Defined.

(** ** Positions, not contents *)

Lemma py_slice_map {A B : Type} (f : A -> B) (x : list A) (lo hi : option Z) :
  py_slice (map f x) lo hi = map f (py_slice x lo hi).
Proof.
  unfold py_slice. rewrite length_map.
  change (map f) with (fmap (M := list) f). rewrite fmap_take, fmap_drop.
  reflexivity.
Qed.

Section ShuffleNatural.

Variable G : Type.
Variable randbelow : G -> nat -> nat * G.

Lemma swap_items_map {A B : Type} (f : A -> B) (x : list A) (i j : nat) :
  swap_items (map f x) i j = (x' ← swap_items x i j; Ok (map f x')).
Proof.
  unfold swap_items. change (map f) with (fmap (M := list) f).
  rewrite !list_lookup_fmap.
  destruct (x !! j) as [xj|]; simpl; [|reflexivity].
  destruct (x !! i) as [xi|]; simpl; [|reflexivity].
  rewrite !list_fmap_insert. reflexivity.
Qed.

Lemma shuffle_from_map {A B : Type} (f : A -> B) (i : nat) :
  forall (x : list A) (g : G),
    shuffle_from randbelow i (map f x) g =
      ('(x', g') ← shuffle_from randbelow i x g; Ok (map f x', g')).
Proof.
  induction i as [|i IH]; intros x g; [reflexivity|].
  cbn [shuffle_from]. destruct (randbelow g (S (S i))) as [j g1].
  rewrite swap_items_map.
  destruct (swap_items x (S i) j) as [x1|e]; simpl; [|reflexivity].
  apply IH.
Qed.

(** [random.shuffle] moves positions: it commutes with any change of
    the items. *)
Lemma shuffle_map {A B : Type} (f : A -> B) (x : list A) (g : G) :
  shuffle randbelow (map f x) g =
    ('(x', g') ← shuffle randbelow x g; Ok (map f x', g')).
Proof. unfold shuffle. rewrite length_map. apply shuffle_from_map. Qed.

End ShuffleNatural.

Section SplitPositions.

Variable fl : Q -> Q.
Variable G : Type.
Variable randbelow : G -> nat -> nat * G.

Hypothesis randbelow_lt :
  forall g n, (0 < n)%nat -> (fst (randbelow g n) < n)%nat.

(** X13: the split looks at positions only.  Two calls with the same
    ratios, within [max_ratio], that start from the same generator
    state, one on a list and one on that list with every record changed
    by [f], return corresponding lists: the second call's train,
    validation and test lists are the first call's with [f] applied, and
    both leave the generator in the same state.  In particular the
    labels play no part in the split. *)
Theorem split_dataset_positions
    (f : record -> record) (records1 records2 : loc) (t v : Q)
    (w1 w2 : world G) (x : list record) :
  heap w1 !! records1 = Some x ->
  heap w2 !! records2 = Some (map f x) ->
  rng w1 = rng w2 ->
  ratio_in_range t -> ratio_in_range v ->
  exists (train val test : list record) (l1 l2 : loc * loc * loc)
         (w1' w2' : world G),
    split_dataset fl randbelow records1 t v w1 = Ok (l1, w1') /\
    split_dataset fl randbelow records2 t v w2 = Ok (l2, w2') /\
    split_contents (Ok (l1, w1')) = Ok (train, val, test) /\
    split_contents (Ok (l2, w2')) = Ok (map f train, map f val, map f test) /\
    rng w1' = rng w2'.
Proof.
  intros Hx1 Hx2 Hrng _ _.
  destruct (split_dataset_run fl G randbelow randbelow_lt records1 t v w1 x Hx1)
    as (x1 & g1 & a1 & a2 & a3 & w1' & Hsh1 & _ & Hrun1 & Hg1 & _ & Hsl1 & _).
  destruct (split_dataset_run fl G randbelow randbelow_lt records2 t v w2 _ Hx2)
    as (x2 & g2 & b1 & b2 & b3 & w2' & Hsh2 & _ & Hrun2 & Hg2 & _ & Hsl2 & _).
  rewrite <- Hrng, shuffle_map, Hsh1 in Hsh2. simpl in Hsh2.
  injection Hsh2 as <- <-.
  cbv zeta in Hsl1, Hsl2. rewrite length_map in Hsl2.
  destruct Hsl1 as (H11 & H12 & H13). destruct Hsl2 as (H21 & H22 & H23).
  rewrite py_slice_map in H21, H22, H23.
  eexists _, _, _, (a1, a2, a3), (b1, b2, b3), w1', w2'.
  split; [exact Hrun1|]. split; [exact Hrun2|].
  split; [simpl; rewrite H11, H12, H13; reflexivity|].
  split; [simpl; rewrite H21, H22, H23; reflexivity|].
  congruence.
Qed.

End SplitPositions.

Lemma blind_world_records :
  heap blind_world !! 1%positive = Some (map blind sample_records).
Proof. reflexivity. Qed.

Lemma blind_world_rng : rng sample_world = rng blind_world.
Proof. vm_compute. reflexivity. Qed.

Lemma split_dataset_positions_witness :
  exists (train val test : list record) (l1 l2 : loc * loc * loc)
         (w1' w2' : world MT.state),
    split_dataset exact MT.randbelow 1%positive (1 # 2) (1 # 4) sample_world
      = Ok (l1, w1') /\
    split_dataset exact MT.randbelow 1%positive (1 # 2) (1 # 4) blind_world
      = Ok (l2, w2') /\
    split_contents (Ok (l1, w1')) = Ok (train, val, test) /\
    split_contents (Ok (l2, w2'))
      = Ok (map blind train, map blind val, map blind test) /\
    rng w1' = rng w2'.
Proof.
  exact (split_dataset_positions exact MT.state MT.randbelow MT_randbelow_lt
           blind 1%positive 1%positive (1 # 2) (1 # 4) sample_world blind_world
           sample_records sample_world_records blind_world_records blind_world_rng
           (proj1 sample_ratios_in_range) (proj2 sample_ratios_in_range)).
Defined.

(** ** The default split on doubles *)

Section Binary64Integers.

Import Binary64.
#[local] Open Scope Q_scope.

(** Rounding moves a value past no integer. *)
Lemma round_floor_ceiling (q : Q) :
  (0 <= Qfloor q)%Z -> (Qceiling q < 2 ^ 53)%Z ->
  (Qfloor q <= Qfloor (round q) <= Qceiling q)%Z.
Proof.
  intros Hlo Hhi.
  assert (Hfc : (Qfloor q <= Qceiling q)%Z).
  { rewrite Zle_Qle. eapply Qle_trans; [apply Qfloor_le | apply Qle_ceiling]. }
  split.
  - rewrite <- (Qfloor_Z (Qfloor q)) at 1. apply Qfloor_resp_le.
    rewrite <- (round_integer (Qfloor q)) by lia.
    apply round_mono, Qfloor_le.
  - rewrite <- (Qfloor_Z (Qceiling q)). apply Qfloor_resp_le.
    rewrite <- (round_integer (Qceiling q)) by lia.
    apply round_mono, Qle_ceiling.
Qed.

Lemma default_ratio_bounds :
  69 # 100 <= default_train_ratio round /\
  default_train_ratio round <= 71 # 100 /\
  84 # 100 <= round (default_train_ratio round + default_val_ratio round) /\
  round (default_train_ratio round + default_val_ratio round) <= 86 # 100.
Proof. repeat split; vm_compute; discriminate. Qed.

Lemma Qmult_le_nonneg_l (z x y : Q) : 0 <= z -> x <= y -> z * x <= z * y.
Proof.
  intros Hz Hxy. rewrite !(Qmult_comm z). apply Qmult_le_compat_r; assumption.
Qed.

(** The cut of a product [n * r] for [r] between two bounds. *)
Lemma scaled_index_between (n : Z) (r lo hi : Q) :
  (0 <= n < 2 ^ 53)%Z -> 0 <= lo -> lo <= r -> r <= hi -> hi <= 1 ->
  inject_Z n * lo - 1 < inject_Z (scaled_index round n r) /\
  inject_Z (scaled_index round n r) < inject_Z n * hi + 1.
Proof.
  intros Hn Hlo Hr Hhi Hone.
  assert (Hr0 : 0 <= r) by lra.
  rewrite (scaled_index_floor round round_mono round_zero n r) by (lia || exact Hr0).
  set (N := inject_Z n).
  assert (HN0 : 0 <= N).
  { unfold N. change 0 with (inject_Z 0). rewrite <- Zle_Qle. lia. }
  assert (Heq : round (round N * r) == round (N * r)).
  { apply round_proper. unfold N. rewrite round_integer by lia. reflexivity. }
  assert (Hfl : Qfloor (round (round N * r)) = Qfloor (round (N * r))).
  { apply Z.le_antisymm; apply Qfloor_resp_le; rewrite Heq; apply Qle_refl. }
  rewrite Hfl.
  assert (Hp1 : N * lo <= N * r) by (apply Qmult_le_nonneg_l; assumption).
  assert (Hp2 : N * r <= N * hi) by (apply Qmult_le_nonneg_l; assumption).
  assert (Hp3 : N * hi <= N * 1) by (apply Qmult_le_nonneg_l; assumption).
  assert (Hp0 : 0 <= N * lo) by (apply Qmult_le_0_compat; assumption).
  set (P := N * r) in *.
  assert (Hf0 : (0 <= Qfloor P)%Z).
  { change 0%Z with (Qfloor 0). apply Qfloor_resp_le. lra. }
  assert (Hc : (Qceiling P <= n)%Z).
  { rewrite <- (Qceiling_Z n). apply Qceiling_resp_le. fold N. lra. }
  destruct (round_floor_ceiling P Hf0 ltac:(lia)) as [H1 H2].
  rewrite Zle_Qle in H1, H2.
  pose proof (Qlt_floor P) as H3. rewrite inject_Z_plus in H3.
  pose proof (Qceiling_lt P) as H4.
  unfold Zminus in H4. rewrite inject_Z_plus in H4.
  change (inject_Z 1) with 1 in H3. change (inject_Z (Z.opp 1)) with (-1) in H4.
  split; lra.
Qed.

End Binary64Integers.

Section DefaultSplit.

Import Binary64.

Variable G : Type.
Variable randbelow : G -> nat -> nat * G.

Hypothesis randbelow_lt :
  forall g n, (0 < n)%nat -> (fst (randbelow g n) < n)%nat.

(** The two cuts of the default call, [int(n * 0.7)] and
    [int(n * (0.7 + 0.15))] on doubles. *)
Lemma default_cuts (n : Z) :
  0 <= n < 2 ^ 53 ->
  let a := scaled_index round n (default_train_ratio round) in
  let b := scaled_index round n
             (round (default_train_ratio round + default_val_ratio round)) in
  0 <= a <= b /\ b <= n /\
  (1 <= a <-> 2 <= n) /\ (a < b <-> 4 <= n) /\ (b < n <-> 1 <= n).
Proof.
  intros Hn. cbv zeta.
  destruct (Z_lt_le_dec n 16) as [Hsmall|Hbig].
  - assert (Hcases : In n (seqZ 0 16)).
    { apply list_elem_of_In, elem_of_seqZ. lia. }
    vm_compute in Hcases.
    repeat (destruct Hcases as [<-|Hcases];
            [match goal with
             | |- context [scaled_index ?f ?k ?r] =>
                 let c := eval vm_compute in (scaled_index f k r) in
                 replace (scaled_index f k r) with c by (vm_compute; reflexivity)
             end;
             match goal with
             | |- context [scaled_index ?f ?k ?r] =>
                 let c := eval vm_compute in (scaled_index f k r) in
                 replace (scaled_index f k r) with c by (vm_compute; reflexivity)
             end; lia|]).
    destruct Hcases.
  - destruct default_ratio_bounds as (Ht1 & Ht2 & Hs1 & Hs2).
    destruct (scaled_index_between n (default_train_ratio round)
                (69 # 100) (71 # 100) Hn) as [Ha1 Ha2]; [lra..|].
    destruct (scaled_index_between n
                (round (default_train_ratio round + default_val_ratio round))
                (84 # 100) (86 # 100) Hn) as [Hb1 Hb2]; [lra..|].
    set (a := scaled_index round n (default_train_ratio round)) in *.
    set (b := scaled_index round n (round _)) in *.
    assert (HN : (16 <= inject_Z n)%Q).
    { change 16%Q with (inject_Z 16). rewrite <- Zle_Qle. exact Hbig. }
    assert (Ha : 0 < a).
    { rewrite Zlt_Qlt. change (inject_Z 0) with 0%Q. lra. }
    assert (Hab : a < b).
    { rewrite Zlt_Qlt. lra. }
    assert (Hbn : b < n).
    { rewrite Zlt_Qlt. lra. }
    lia.
Qed.

(** X14: the sizes of the default split.  With the default ratios 0.7
    and 0.15 on doubles and fewer than [2^53] records, the three lists
    hold as many records as the input; the training list is empty for
    fewer than two records, the validation list for fewer than four,
    and the test list only for no records at all. *)
Theorem split_dataset_default_sizes
    (records : loc) (w : world G) (x : list record) :
  heap w !! records = Some x ->
  Z.of_nat (length x) < 2 ^ 53 ->
  exists (train val test : list record) (l1 l2 l3 : loc) (w' : world G),
    split_dataset round randbelow records
      (default_train_ratio round) (default_val_ratio round) w
      = Ok ((l1, l2, l3), w') /\
    heap w' !! l1 = Some train /\
    heap w' !! l2 = Some val /\
    heap w' !! l3 = Some test /\
    (length train + length val + length test = length x)%nat /\
    (train <> [] <-> (2 <= length x)%nat) /\
    (val <> [] <-> (4 <= length x)%nat) /\
    (test <> [] <-> (1 <= length x)%nat).
Proof.
  intros Hx Hlen.
  destruct (split_dataset_run round G randbelow randbelow_lt records
              (default_train_ratio round) (default_val_ratio round) w x Hx)
    as (x' & g' & l1 & l2 & l3 & w' & _ & Hperm & Hrun & _ & _ & Hsl & _).
  cbv zeta in Hsl. destruct Hsl as (H1 & H2 & H3).
  apply Permutation_length in Hperm.
  pose proof (default_cuts (Z.of_nat (length x')) ltac:(lia)) as Hcuts.
  cbv zeta in Hcuts.
  set (a := scaled_index round _ (default_train_ratio round)) in *.
  set (b := scaled_index round _ (round _)) in *.
  destruct Hcuts as (Hab & Hbn & Ha & Hv & Ht).
  rewrite py_slice_prefix in H1 by lia.
  rewrite py_slice_middle in H2 by lia.
  rewrite py_slice_suffix in H3 by lia.
  assert (Hnil : forall l : list record, l <> [] <-> (1 <= length l)%nat).
  { intros [|r l]; simpl; split; intros H; try congruence; lia. }
  eexists _, _, _, l1, l2, l3, w'.
  split; [exact Hrun|]. split; [exact H1|]. split; [exact H2|].
  split; [exact H3|].
  rewrite !Hnil, !length_take, !length_drop. lia.
Qed.

End DefaultSplit.

Lemma split_dataset_default_sizes_witness :
  exists (train val test : list record) (l1 l2 l3 : loc) (w' : world MT.state),
    split_dataset Binary64.round MT.randbelow 1%positive
      (default_train_ratio Binary64.round) (default_val_ratio Binary64.round)
      sample_world
      = Ok ((l1, l2, l3), w') /\
    heap w' !! l1 = Some train /\
    heap w' !! l2 = Some val /\
    heap w' !! l3 = Some test /\
    (length train + length val + length test = length sample_records)%nat /\
    (train <> [] <-> (2 <= length sample_records)%nat) /\
    (val <> [] <-> (4 <= length sample_records)%nat) /\
    (test <> [] <-> (1 <= length sample_records)%nat).
Proof.
  apply (split_dataset_default_sizes MT.state MT.randbelow MT_randbelow_lt
           1%positive sample_world sample_records sample_world_records).
  simpl. lia.
Defined.

(** ** The weights on doubles *)

Section Binary64Weights.

Import Binary64.
#[local] Open Scope Q_scope.

(** The weight of a label that occurs [c] times among fewer than [2^53]
    records. *)
Lemma inverse_count_bounds (c : Z) :
  (1 <= c < 2 ^ 53)%Z ->
  0 < round (1 / inject_Z c) /\ round (1 / inject_Z c) <= 1.
Proof.
  intros Hc.
  assert (H1 : round 1 == 1) by (vm_compute; reflexivity).
  assert (H2 : round (1 / inject_Z (2 ^ 53)) == 1 / inject_Z (2 ^ 53))
    by (vm_compute; reflexivity).
  split.
  - apply Qlt_le_trans with (round (1 / inject_Z (2 ^ 53))).
    + rewrite H2. reflexivity.
    + apply round_mono, inverse_le. lia.
  - rewrite <- H1 at 2. apply round_mono.
    change 1 with (1 / inject_Z 1) at 2. apply inverse_le. lia.
Qed.

(** X15: the weights on doubles.  For fewer than [2^53] training
    records with hashable labels the weights cell returns, with no
    [ZeroDivisionError]; every weight is positive and at most one, and of
    two records the one whose label is no more frequent in the training
    split weighs no less, so records of one label weigh the same. *)
Theorem weights_rarer_label_heavier (train : list record) :
  (Z.of_nat (length train) < 2 ^ 53)%Z ->
  Forall (fun r => py_hashable (label r) = true) train ->
  exists ws : list Q,
    weights round train = Ok ws /\
    length ws = length train /\
    forall (i j : nat) (ri rj : record) (wi wj : Q),
      train !! i = Some ri -> train !! j = Some rj ->
      ws !! i = Some wi -> ws !! j = Some wj ->
      0 < wi /\ wi <= 1 /\
      ((count_label (map label train) (label ri)
        <= count_label (map label train) (label rj))%nat -> wj <= wi).
Proof.
  intros Hlen Hh.
  assert (Hrep : forall c : Z, (1 <= c <= Z.of_nat (length train))%Z ->
                   round (inject_Z c) == inject_Z c).
  { intros c Hc. apply round_integer. lia. }
  exists (map (weight_of round train) train).
  split.
  { apply weights_run; [|exact Hh].
    apply (representable_nonzero round (length train) Hrep). }
  split; [apply length_map|].
  intros i j ri rj wi wj Hi Hj Hwi Hwj.
  change (map (weight_of round train)) with (fmap (M := list) (weight_of round train))
    in Hwi, Hwj.
  rewrite list_lookup_fmap in Hwi, Hwj. rewrite Hi in Hwi. rewrite Hj in Hwj.
  injection Hwi as <-. injection Hwj as <-.
  rewrite Forall_forall in Hh.
  pose proof (list_elem_of_lookup_2 _ _ _ Hi) as Hri.
  pose proof (list_elem_of_lookup_2 _ _ _ Hj) as Hrj.
  destruct (weight_of_representable round round_proper train ri Hrep
              (proj1 (list_elem_of_In _ _) Hri) (Hh ri Hri)) as [Hci Ewi].
  destruct (weight_of_representable round round_proper train rj Hrep
              (proj1 (list_elem_of_In _ _) Hrj) (Hh rj Hrj)) as [Hcj Ewj].
  rewrite Ewi, Ewj.
  destruct (inverse_count_bounds
              (Z.of_nat (count_label (map label train) (label ri)))
              ltac:(lia)) as [Hpos Hone].
  split; [exact Hpos|]. split; [exact Hone|].
  intros Hle. apply round_mono, inverse_le. lia.
Qed.

End Binary64Weights.

Lemma weights_rarer_label_heavier_witness :
  exists ws : list Q,
    weights Binary64.round sample_records = Ok ws /\
    length ws = length sample_records /\
    forall (i j : nat) (ri rj : record) (wi wj : Q),
      sample_records !! i = Some ri -> sample_records !! j = Some rj ->
      ws !! i = Some wi -> ws !! j = Some wj ->
      (0 < wi)%Q /\ (wi <= 1)%Q /\
      ((count_label (map label sample_records) (label ri)
        <= count_label (map label sample_records) (label rj))%nat -> (wj <= wi)%Q).
Proof.
  apply (weights_rarer_label_heavier sample_records).
  - simpl. lia.
  - exact sample_records_hashable.
Defined.

(** ** The evaluation report *)

(** An increasing list of integers from a range is no longer than the
    range, and is the range if it is as long. *)
Lemma sorted_in_range (l : list Z) :
  forall a b : Z,
    StronglySorted Z.lt l ->
    (forall z, In z l -> a <= z < b) ->
    Z.of_nat (length l) <= Z.max 0 (b - a) /\
    (Z.of_nat (length l) = b - a -> l = seqZ a (b - a)).
Proof.
  induction l as [|h t IH]; intros a b Hs Hin.
  - split; [simpl; lia|]. intros H. simpl in H. rewrite <- H. reflexivity.
  - inversion Hs as [|? ? Hst Hall]; subst.
    rewrite Forall_forall in Hall.
    pose proof (Hin h (or_introl eq_refl)) as Hh.
    destruct (IH (h + 1) b Hst) as [Hlen Heq].
    { intros z Hz. pose proof (Hall z (proj2 (list_elem_of_In _ _) Hz)).
      pose proof (Hin z (or_intror Hz)). lia. }
    cbn [length]. split; [lia|]. intros Hfull.
    assert (h = a) by lia. subst h.
    rewrite seqZ_cons by lia. f_equal.
    replace (Z.succ a) with (a + 1) by lia.
    replace (Z.pred (b - a)) with (b - (a + 1)) by lia.
    apply Heq. lia.
Qed.

(** X16: when all labels lie in [0 .. K-1], the reporting cell returns
    exactly if every class occurs among the true or the predicted labels
    of the test split, and it then returns the K by K matrix of the pair
    counts; if any class is absent from both, [classification_report]
    raises [ValueError]. *)
Theorem report_returns_iff_all_classes (fl : Q -> Q) (K : positive)
    (pairs : list (Z * Z)) :
  (forall z, In z (map fst pairs ++ map snd pairs) -> 0 <= z < Z.pos K) ->
  ((forall z, 0 <= z < Z.pos K -> In z (map fst pairs ++ map snd pairs)) ->
   report fl K pairs = Ok (accuracy_score fl pairs, count_matrix (Z.pos K) pairs)) /\
  (~ (forall z, 0 <= z < Z.pos K -> In z (map fst pairs ++ map snd pairs)) ->
   report fl K pairs = Raise ValueError).
Proof.
  intros Hrange. split.
  - intros Hall. apply report_all_classes_present.
    intros z. split; [apply Hrange | apply Hall].
  - intros Hnot. unfold report, classification_report_check.
    destruct (Nat.eqb_spec (length (unique_labels pairs)) (Pos.to_nat K))
      as [Hlen|Hlen]; [exfalso|reflexivity].
    apply Hnot. intros z Hz.
    destruct (sorted_in_range (unique_labels pairs) 0 (Z.pos K)) as [_ Heq].
    { apply np_unique_sorted. }
    { intros y Hy. apply Hrange. unfold unique_labels in Hy.
      apply (proj1 (np_unique_In _ _)), Hy. }
    apply (proj1 (np_unique_In z _)). fold (unique_labels pairs).
    rewrite Heq by lia. apply list_elem_of_In, elem_of_seqZ. lia.
Qed.

Lemma report_returns_iff_all_classes_witness :
  ((forall z, 0 <= z < 3 ->
      In z (map fst absent_class_pairs ++ map snd absent_class_pairs)) ->
   report exact 3 absent_class_pairs
     = Ok (accuracy_score exact absent_class_pairs,
           count_matrix 3 absent_class_pairs)) /\
  (~ (forall z, 0 <= z < 3 ->
        In z (map fst absent_class_pairs ++ map snd absent_class_pairs)) ->
   report exact 3 absent_class_pairs = Raise ValueError).
Proof.
  apply (report_returns_iff_all_classes exact 3 absent_class_pairs).
  intros z Hz. simpl in Hz. lia.
Defined.

Lemma sum_Z_map_add {A : Type} (f g : A -> Z) (l : list A) :
  sum_Z (map (fun a => f a + g a) l) = sum_Z (map f l) + sum_Z (map g l).
Proof. induction l as [|a l IH]; simpl; [reflexivity|]. rewrite IH. lia. Qed.

Lemma sum_Z_zero {A : Type} (f : A -> Z) (l : list A) :
  (forall a, In a l -> f a = 0) -> sum_Z (map f l) = 0.
Proof.
  induction l as [|a l IH]; simpl; intros H; [reflexivity|].
  rewrite (H a (or_introl eq_refl)), IH; [reflexivity|].
  intros b Hb. apply H. right. exact Hb.
Qed.

(** Over a list without repetition, an indicator of one of its members
    sums to one. *)
Lemma sum_Z_one (f : Z -> Z) (y : Z) (l : list Z) :
  List.NoDup l -> In y l -> f y = 1 ->
  (forall p, In p l -> p <> y -> f p = 0) ->
  sum_Z (map f l) = 1.
Proof.
  induction 1 as [|a l Ha Hnd IH]; simpl; intros Hy Hfy Hf; [destruct Hy|].
  destruct (Z.eq_dec a y) as [->|Hne].
  - rewrite Hfy, sum_Z_zero; [reflexivity|].
    intros p Hp. apply Hf; [right; exact Hp|]. intros ->. apply Ha, Hp.
  - destruct Hy as [Hy|Hy]; [contradiction|].
    rewrite (Hf a (or_introl eq_refl) Hne), IH; [reflexivity|exact Hy|exact Hfy|].
    intros p Hp. apply Hf. right. exact Hp.
Qed.

Lemma sorted_Z_NoDup (l : list Z) : StronglySorted Z.lt l -> List.NoDup l.
Proof.
  induction 1 as [|a l Hs IH Hall]; constructor; [|exact IH].
  intros Ha. rewrite Forall_forall in Hall.
  pose proof (Hall a (proj2 (list_elem_of_In _ _) Ha)). lia.
Qed.

Lemma count_pairs_cons (x : Z * Z) (pairs : list (Z * Z)) (t p : Z) :
  count_pairs (x :: pairs) t p =
    (if (fst x =? t) && (snd x =? p) then 1 else 0) + count_pairs pairs t p.
Proof.
  unfold count_pairs. simpl.
  destruct ((fst x =? t) && (snd x =? p)); simpl; lia.
Qed.

Lemma support_cons (x : Z * Z) (pairs : list (Z * Z)) (t : Z) :
  support (x :: pairs) t = (if fst x =? t then 1 else 0) + support pairs t.
Proof. unfold support. simpl. destruct (fst x =? t); simpl; lia. Qed.

Lemma count_agree_cons (x : Z * Z) (pairs : list (Z * Z)) :
  count_agree (x :: pairs) = (if fst x =? snd x then 1 else 0) + count_agree pairs.
Proof. unfold count_agree. simpl. destruct (fst x =? snd x); simpl; lia. Qed.

Section MatrixSums.

Variable labels : list Z.
Hypothesis labels_NoDup : List.NoDup labels.

(** A row adds up to the support of its label. *)
Lemma row_sum (pairs : list (Z * Z)) (t : Z) :
  (forall x, In x pairs -> In (snd x) labels) ->
  sum_Z (map (count_pairs pairs t) labels) = support pairs t.
Proof.
  induction pairs as [|x pairs IH]; intros Hin.
  - apply sum_Z_zero. reflexivity.
  - rewrite (map_ext _ _ (count_pairs_cons x pairs t)).
    rewrite (sum_Z_map_add _ (count_pairs pairs t)), support_cons, IH
      by (intros y Hy; apply Hin; right; exact Hy).
    f_equal. destruct (Z.eqb_spec (fst x) t) as [_|_]; simpl.
    + apply (sum_Z_one _ (snd x)); [exact labels_NoDup | | |].
      * apply Hin. left. reflexivity.
      * rewrite Z.eqb_refl. reflexivity.
      * intros p _ Hp. destruct (Z.eqb_spec (snd x) p); congruence.
    + apply sum_Z_zero. reflexivity.
Qed.

(** The supports add up to the number of pairs. *)
Lemma support_sum (pairs : list (Z * Z)) :
  (forall x, In x pairs -> In (fst x) labels) ->
  sum_Z (map (support pairs) labels) = Z.of_nat (length pairs).
Proof.
  induction pairs as [|x pairs IH]; intros Hin.
  - apply sum_Z_zero. reflexivity.
  - rewrite (map_ext _ _ (support_cons x pairs)).
    rewrite (sum_Z_map_add _ (support pairs)), IH
      by (intros y Hy; apply Hin; right; exact Hy).
    rewrite (sum_Z_one _ (fst x)); [simpl length; lia | exact labels_NoDup | | |].
    + apply Hin. left. reflexivity.
    + rewrite Z.eqb_refl. reflexivity.
    + intros p _ Hp. destruct (Z.eqb_spec (fst x) p); congruence.
Qed.

(** The diagonal adds up to the number of agreeing pairs. *)
Lemma diagonal_sum (pairs : list (Z * Z)) :
  (forall x, In x pairs -> In (fst x) labels) ->
  sum_Z (map (fun t => count_pairs pairs t t) labels) = count_agree pairs.
Proof.
  induction pairs as [|x pairs IH]; intros Hin.
  - apply sum_Z_zero. reflexivity.
  - rewrite (map_ext _ _ (fun t => count_pairs_cons x pairs t t)).
    rewrite (sum_Z_map_add _ (fun t => count_pairs pairs t t)), count_agree_cons, IH
      by (intros y Hy; apply Hin; right; exact Hy).
    f_equal. destruct (Z.eqb_spec (fst x) (snd x)) as [Heq|Hne].
    + apply (sum_Z_one _ (fst x)); [exact labels_NoDup | | |].
      * apply Hin. left. reflexivity.
      * rewrite <- Heq, Z.eqb_refl. reflexivity.
      * intros p _ Hp. destruct (Z.eqb_spec (fst x) p); [congruence|reflexivity].
    + apply sum_Z_zero. intros p _.
      destruct (Z.eqb_spec (fst x) p); [|reflexivity].
      destruct (Z.eqb_spec (snd x) p); [congruence|reflexivity].
Qed.

Lemma trace_from_rows (c : Z -> Z -> Z) (rows : list Z) :
  forall i : nat,
    (forall k t, rows !! k = Some t -> labels !! (i + k)%nat = Some t) ->
    trace_from i (map (fun t => map (c t) labels) rows)
      = sum_Z (map (fun t => c t t) rows).
Proof.
  induction rows as [|t rows IH]; intros i Hrows; [reflexivity|].
  simpl. rewrite IH.
  - change (map (c t) labels) with (fmap (M := list) (c t) labels).
    rewrite list_lookup_fmap.
    pose proof (Hrows 0%nat t eq_refl) as Ht. rewrite Nat.add_0_r in Ht.
    rewrite Ht. reflexivity.
  - intros k t' Hk. replace (S i + k)%nat with (i + S k)%nat by lia.
    apply Hrows. exact Hk.
Qed.

End MatrixSums.

(** X17: the confusion matrix counts every test pair exactly once.  Its
    entries add up to the number of pairs, each row adds up to the number
    of pairs with that row's true label, and the diagonal adds up to the
    number of correct predictions, so the accuracy is the trace over the
    total. *)
Theorem confusion_matrix_totals (pairs : list (Z * Z)) :
  matrix_sum (confusion_matrix pairs) = Z.of_nat (length pairs) /\
  matrix_trace (confusion_matrix pairs) = count_agree pairs /\
  (forall (i : nat) (t : Z),
     unique_labels pairs !! i = Some t ->
     exists row, confusion_matrix pairs !! i = Some row /\
                 sum_Z row = support pairs t).
Proof.
  assert (Hnd : List.NoDup (unique_labels pairs)).
  { apply sorted_Z_NoDup, np_unique_sorted. }
  assert (Hfst : forall x, In x pairs -> In (fst x) (unique_labels pairs)).
  { intros x Hx. apply np_unique_In, in_app_iff. left. apply in_map, Hx. }
  assert (Hsnd : forall x, In x pairs -> In (snd x) (unique_labels pairs)).
  { intros x Hx. apply np_unique_In, in_app_iff. right. apply in_map, Hx. }
  unfold matrix_sum, matrix_trace, confusion_matrix. cbv zeta.
  split; [|split].
  - rewrite map_map.
    rewrite (map_ext _ (support pairs)
               (fun t => row_sum _ Hnd pairs t Hsnd)).
    apply support_sum; assumption.
  - rewrite (trace_from_rows (unique_labels pairs) (count_pairs pairs)).
    + apply diagonal_sum; assumption.
    + intros k t Hk. exact Hk.
  - intros i t Hi. eexists. split.
    + change (map ?f ?l) with (fmap (M := list) f l).
      rewrite list_lookup_fmap, Hi. reflexivity.
    + apply row_sum; assumption.
Qed.

Example confusion_matrix_scenario_totals :
  matrix_sum (confusion_matrix scenario_pairs) = 4 /\
  matrix_trace (confusion_matrix scenario_pairs) = 3.
Proof. split; reflexivity. Qed.

(** ** The statistics of an epoch *)

Lemma count_agree_app (p q : list (Z * Z)) :
  count_agree (p ++ q) = count_agree p + count_agree q.
Proof. unfold count_agree. rewrite List.filter_app, length_app. lia. Qed.

Lemma count_agree_bounds (p : list (Z * Z)) :
  0 <= count_agree p <= Z.of_nat (length p).
Proof.
  unfold count_agree. split; [lia|].
  apply inj_le. induction p as [|x p IH]; simpl; [lia|].
  destruct (fst x =? snd x); simpl; lia.
Qed.

Section EpochFacts.

Variable fl : Q -> Q.
Variable Model : Type.
Variable Batch : Type.
Variable set_training : bool -> Model -> Model.
Variable forward : Model -> Batch -> batch_result.
Variable optimizer_step : Model -> Batch -> Model.

(** The integer counters after a run of batches. *)
Lemma counters_fold (rs : list batch_result) :
  forall (rl : Q) (c t : Z),
    exists rl' : Q,
      fold_left (update_counters fl) rs (rl, c, t) =
        (rl',
         c + count_agree (concat (map batch_pairs rs)),
         t + Z.of_nat (length (concat (map batch_pairs rs)))).
Proof.
  induction rs as [|r rs IH]; intros rl c t; simpl.
  - exists rl. unfold count_agree. simpl. rewrite !Z.add_0_r. reflexivity.
  - destruct (IH (fl (rl + fl (batch_loss r
                                 * fl (inject_Z (Z.of_nat (length (batch_pairs r)))))))%Q
                 (c + count_agree (batch_pairs r))
                 (t + Z.of_nat (length (batch_pairs r)))) as [rl' Hrl].
    exists rl'. rewrite Hrl, count_agree_app, length_app. f_equal; [f_equal|]; lia.
Qed.

Lemma eval_fold (model : Model) (loader : list Batch) :
  forall c : counters,
    fold_left (fun c b => update_counters fl c (forward model b)) loader c
      = fold_left (update_counters fl) (map (forward model) loader) c.
Proof. induction loader as [|b loader IH]; intros c; simpl; [reflexivity|apply IH]. Qed.

Lemma test_fold (model : Model) (loader : list Batch) :
  forall all : list (Z * Z),
    fold_left (fun all b => all ++ batch_pairs (forward model b)) loader all
      = all ++ concat (map batch_pairs (map (forward model) loader)).
Proof.
  induction loader as [|b loader IH]; intros all; simpl.
  - rewrite app_nil_r. reflexivity.
  - rewrite IH, <- app_assoc. reflexivity.
Qed.

Lemma train_fold (loader : list Batch) :
  forall (model : Model) (c : counters),
    fold_left (fun (s : Model * counters) (b : Batch) =>
                 let '(m, c) := s in
                 let r := forward m b in
                 let m := optimizer_step m b in
                 (m, update_counters fl c r))
              loader (model, c)
      = (fold_left optimizer_step loader model,
         fold_left (update_counters fl)
                   (train_trace Model Batch forward optimizer_step model loader) c).
Proof.
  induction loader as [|b loader IH]; intros model c; simpl; [reflexivity|].
  apply IH.
Qed.

(** X18: the accuracy of [eval_epoch] is the accuracy of the test cell.
    Run on the same network and loader, [eval_epoch] and the loop of
    the test cell leave the network in the same state, and the accuracy
    that [eval_epoch] returns is [accuracy_score] of the accumulated
    labels and predictions, whatever the batch boundaries;
    [eval_epoch] raises [ZeroDivisionError] exactly when the loader
    yields no sample. *)
Theorem eval_epoch_accuracy (model : Model) (loader : list Batch) :
  let pairs := snd (test_predictions Model Batch set_training forward model loader) in
  fst (eval_epoch fl Model Batch set_training forward model loader)
    = fst (test_predictions Model Batch set_training forward model loader) /\
  match snd (eval_epoch fl Model Batch set_training forward model loader) with
  | Ok (_, acc) => pairs <> [] /\ acc = accuracy_score fl pairs
  | Raise e => e = ZeroDivisionError /\ pairs = []
  end.
Proof.
  cbv zeta. unfold eval_epoch, test_predictions. cbn [fst snd].
  split; [reflexivity|].
  rewrite eval_fold, test_fold. cbn [app].
  set (rs := map (forward (set_training false model)) loader).
  destruct (counters_fold rs 0%Q 0 0) as [rl Hrl]. rewrite Hrl.
  set (pairs := concat (map batch_pairs rs)).
  unfold epoch_result. rewrite !Z.add_0_l.
  destruct (Z.eqb_spec (Z.of_nat (length pairs)) 0) as [Hz|Hnz].
  - split; [reflexivity|]. destruct pairs; [reflexivity|simpl in Hz; lia].
  - split; [|reflexivity]. intros Hp. rewrite Hp in Hnz. apply Hnz. reflexivity.
Qed.

(** Rounding is monotone and leaves zero and one alone. *)
Hypothesis fl_mono : forall x y : Q, (x <= y)%Q -> (fl x <= fl y)%Q.
Hypothesis fl_zero : (fl 0 == 0)%Q.
Hypothesis fl_one : (fl 1 == 1)%Q.

Lemma running_loss_nonneg (rs : list batch_result) :
  Forall (fun r => (0 <= batch_loss r)%Q) rs ->
  forall (rl : Q) (c t : Z),
    (0 <= rl)%Q ->
    (0 <= fst (fst (fold_left (update_counters fl) rs (rl, c, t))))%Q.
Proof.
  induction 1 as [|r rs Hr _ IH]; intros rl c t Hrl; simpl; [exact Hrl|].
  apply IH. apply (fl_nonneg fl fl_mono fl_zero).
  assert (H : (0 <= fl (batch_loss r
                        * fl (inject_Z (Z.of_nat (length (batch_pairs r))))))%Q).
  { apply (fl_nonneg fl fl_mono fl_zero).
    apply Qmult_le_0_compat; [exact Hr|].
    apply (fl_inject_nonneg fl fl_mono fl_zero). lia. }
  lra.
Qed.

(** X19: what [train_epoch] returns.  It raises [ZeroDivisionError]
    exactly when the loader yields no sample, and otherwise returns an
    accuracy between 0 and 1, namely the rounded share of agreeing
    pairs among all samples of the epoch, each batch being judged by
    the network as the earlier steps left it; the loss it returns is
    not negative when no batch loss is.  The network comes out of the
    call after one optimizer step per batch, also when the call
    raises. *)
Theorem train_epoch_result (model : Model) (loader : list Batch) :
  let trace := train_trace Model Batch forward optimizer_step
                 (set_training true model) loader in
  let pairs := concat (map batch_pairs trace) in
  Forall (fun r => (0 <= batch_loss r)%Q) trace ->
  fst (train_epoch fl Model Batch set_training forward optimizer_step model loader)
    = fold_left optimizer_step loader (set_training true model) /\
  match snd (train_epoch fl Model Batch set_training forward optimizer_step
               model loader) with
  | Ok (loss, acc) =>
      pairs <> [] /\ (0 <= loss)%Q /\ (0 <= acc <= 1)%Q /\
      acc = accuracy_score fl pairs
  | Raise e => e = ZeroDivisionError /\ pairs = []
  end.
Proof.
  cbv zeta. intros Hloss. unfold train_epoch. rewrite train_fold.
  set (trace := train_trace Model Batch forward optimizer_step
                  (set_training true model) loader) in *.
  cbn [fst snd]. split; [reflexivity|].
  pose proof (running_loss_nonneg trace Hloss 0%Q 0 0 ltac:(apply Qle_refl)) as Hrl0.
  destruct (counters_fold trace 0%Q 0 0) as [rl Hrl]. rewrite Hrl in Hrl0 |- *.
  cbn [fst] in Hrl0.
  set (pairs := concat (map batch_pairs trace)).
  unfold epoch_result. rewrite !Z.add_0_l.
  pose proof (count_agree_bounds pairs) as Hc.
  destruct (Z.eqb_spec (Z.of_nat (length pairs)) 0) as [Hz|Hnz].
  - split; [reflexivity|]. destruct pairs; [reflexivity|simpl in Hz; lia].
  - assert (Hn : (0 < inject_Z (Z.of_nat (length pairs)))%Q).
    { change 0%Q with (inject_Z 0). rewrite <- Zlt_Qlt. lia. }
    split; [intros Hp; rewrite Hp in Hnz; apply Hnz; reflexivity|].
    split; [|split; [split|reflexivity]].
    + apply (fl_nonneg fl fl_mono fl_zero).
      assert (Hd : (0 <= fl (inject_Z (Z.of_nat (length pairs))))%Q).
      { apply (fl_inject_nonneg fl fl_mono fl_zero). lia. }
      unfold Qdiv. apply Qmult_le_0_compat; [exact Hrl0|].
      apply Qinv_le_0_compat. exact Hd.
    + apply (fl_nonneg fl fl_mono fl_zero).
      apply Qle_shift_div_l; [exact Hn|]. rewrite Qmult_0_l.
      change 0%Q with (inject_Z 0). rewrite <- Zle_Qle. lia.
    + rewrite <- fl_one. apply fl_mono.
      apply Qle_shift_div_r; [exact Hn|]. rewrite Qmult_1_l.
      rewrite <- Zle_Qle. lia.
Qed.

End EpochFacts.

Lemma exact_one : (exact 1 == 1)%Q.
Proof. reflexivity. Qed.

Lemma train_epoch_result_witness :
  let trace := train_trace Z (list (Z * Z)) counting_forward counting_step
                 (counting_mode true 0) sample_loader in
  let pairs := concat (map batch_pairs trace) in
  fst (train_epoch exact Z (list (Z * Z)) counting_mode counting_forward
         counting_step 0 sample_loader)
    = fold_left counting_step sample_loader (counting_mode true 0) /\
  match snd (train_epoch exact Z (list (Z * Z)) counting_mode counting_forward
               counting_step 0 sample_loader) with
  | Ok (loss, acc) =>
      pairs <> [] /\ (0 <= loss)%Q /\ (0 <= acc <= 1)%Q /\
      acc = accuracy_score exact pairs
  | Raise e => e = ZeroDivisionError /\ pairs = []
  end.
Proof.
  apply (train_epoch_result exact Z (list (Z * Z)) counting_mode counting_forward
           counting_step exact_mono exact_zero exact_one 0 sample_loader).
  repeat constructor; discriminate.
Defined.

(** The sample epoch: two batches, three samples, two of them right. *)
Example train_epoch_sample :
  match train_epoch exact Z (list (Z * Z)) counting_mode counting_forward
          counting_step 0 sample_loader with
  | (m, Ok (loss, acc)) => m = 2 /\ (loss == 1 # 2)%Q /\ (acc == 2 # 3)%Q
  | _ => False
  end /\
  eval_epoch exact Z (list (Z * Z)) counting_mode counting_forward 0 []
    = (0, Raise ZeroDivisionError).
Proof. split; vm_compute; repeat split. Qed.

(** ** A negative validation ratio *)

Lemma py_slice_crossed {A : Type} (x : list A) (a b : Z) :
  0 <= b <= a -> py_slice x (Some a) (Some b) = [].
Proof.
  intros Hab. unfold py_slice, slice_bound.
  destruct (Z.ltb_spec a 0) as [?|_]; [lia|].
  destruct (Z.ltb_spec b 0) as [?|_]; [lia|].
  replace (Z.to_nat (Z.min b (Z.of_nat (length x)) - Z.min a (Z.of_nat (length x))))
    with 0%nat by lia.
  apply take_0.
Qed.

Section CrossedCuts.

Variable fl : Q -> Q.
Variable G : Type.
Variable randbelow : G -> nat -> nat * G.

Hypothesis randbelow_lt :
  forall g n, (0 < n)%nat -> (fst (randbelow g n) < n)%nat.
Hypothesis fl_mono : forall a b : Q, (a <= b)%Q -> (fl a <= fl b)%Q.
Hypothesis fl_zero : (fl 0 == 0)%Q.

(** X20: a negative validation ratio is not rejected either, and then
    the split is no partition.  For [val_ratio <= 0 <= train_ratio +
    val_ratio] and a training ratio of at most [max_ratio], the second
    cut [b] falls at or before the first cut [a]:
    the validation list is empty, the training list is the shuffled
    sequence up to [a], the test list the sequence from [b] on, and
    every record between the two cuts is in the training and in the
    test list. *)
Theorem split_dataset_negative_val_ratio
    (records : loc) (t v : Q) (w : world G) (x : list record) :
  heap w !! records = Some x ->
  (fl t == t)%Q -> (0 <= t + v)%Q -> (v <= 0)%Q -> (t <= max_ratio)%Q ->
  exists (shuffled train val test : list record) (l1 l2 l3 : loc) (w' : world G),
    split_dataset fl randbelow records t v w = Ok ((l1, l2, l3), w') /\
    heap w' !! records = Some shuffled /\
    heap w' !! l1 = Some train /\
    heap w' !! l2 = Some val /\
    heap w' !! l3 = Some test /\
    (let n := Z.of_nat (length x) in
     let a := Qfloor (fl (fl (inject_Z n) * t)) in
     let b := Qfloor (fl (fl (inject_Z n) * fl (t + v))) in
     0 <= b <= a /\
     val = [] /\
     train = take (Z.to_nat a) shuffled /\
     test = drop (Z.to_nat b) shuffled /\
     forall (i : nat) (r : record),
       (Z.to_nat b <= i < Z.to_nat a)%nat ->
       shuffled !! i = Some r ->
       train !! i = Some r /\ test !! (i - Z.to_nat b)%nat = Some r).
Proof.
  intros Hx Ht Htv Hv _.
  destruct (split_dataset_run fl G randbelow randbelow_lt records t v w x Hx)
    as (x' & g' & l1 & l2 & l3 & w' & _ & Hperm & Hrun & _ & Hrec & Hsl & _).
  cbv zeta in Hsl. destruct Hsl as (H1 & H2 & H3).
  rewrite (Permutation_length Hperm) in H1, H2, H3.
  set (n := Z.of_nat (length x)) in *.
  assert (Hn : 0 <= n) by (unfold n; lia).
  assert (Ht0 : (0 <= t)%Q) by lra.
  assert (Hs0 : (0 <= fl (t + v))%Q) by (apply (fl_nonneg fl fl_mono fl_zero), Htv).
  assert (Hst : (fl (t + v) <= t)%Q).
  { apply Qle_trans with (fl t); [apply fl_mono; lra | rewrite Ht; apply Qle_refl]. }
  pose proof (scaled_index_nonneg fl fl_mono fl_zero n _ Hn Hs0) as Hb0.
  pose proof (scaled_index_le fl fl_mono fl_zero n _ _ Hn Hs0 Hst) as Hba.
  rewrite py_slice_prefix in H1 by lia.
  rewrite py_slice_crossed in H2 by lia.
  rewrite py_slice_suffix in H3 by lia.
  rewrite (scaled_index_floor fl fl_mono fl_zero n t Hn Ht0) in H1, Hba.
  rewrite (scaled_index_floor fl fl_mono fl_zero n (fl (t + v)) Hn Hs0)
    in H3, Hb0, Hba.
  eexists x', _, _, _, l1, l2, l3, w'.
  split; [exact Hrun|]. split; [exact Hrec|]. split; [exact H1|].
  split; [exact H2|]. split; [exact H3|].
  subst n. cbv zeta. split; [lia|]. split; [reflexivity|]. split; [reflexivity|].
  split; [reflexivity|].
  intros i r Hi Hr. split.
  - rewrite lookup_take_lt by lia. exact Hr.
  - rewrite lookup_drop. replace (Z.to_nat _ + (i - Z.to_nat _))%nat with i by lia.
    exact Hr.
Qed.

End CrossedCuts.

Lemma split_dataset_negative_val_ratio_witness :
  exists (shuffled train val test : list record) (l1 l2 l3 : loc)
         (w' : world MT.state),
    split_dataset exact MT.randbelow 1%positive (1 # 2) (- (1 # 4)) sample_world
      = Ok ((l1, l2, l3), w') /\
    heap w' !! 1%positive = Some shuffled /\
    heap w' !! l1 = Some train /\
    heap w' !! l2 = Some val /\
    heap w' !! l3 = Some test /\
    (let n := Z.of_nat (length sample_records) in
     let a := Qfloor (exact (exact (inject_Z n) * (1 # 2))) in
     let b := Qfloor (exact (exact (inject_Z n) * exact ((1 # 2) + - (1 # 4)))) in
     0 <= b <= a /\
     val = [] /\
     train = take (Z.to_nat a) shuffled /\
     test = drop (Z.to_nat b) shuffled /\
     forall (i : nat) (r : record),
       (Z.to_nat b <= i < Z.to_nat a)%nat ->
       shuffled !! i = Some r ->
       train !! i = Some r /\ test !! (i - Z.to_nat b)%nat = Some r).
Proof.
  apply (split_dataset_negative_val_ratio exact MT.state MT.randbelow
           MT_randbelow_lt exact_mono exact_zero 1%positive (1 # 2) (- (1 # 4))
           sample_world sample_records sample_world_records).
  - reflexivity.
  - discriminate.
  - discriminate.
  - vm_compute. discriminate.
Defined.

(** The call with the ratios one half and minus one quarter: two training
    records, no validation record, three test records, of which one is
    also a training record. *)
Example split_dataset_negative_sample :
  split_contents
    (split_dataset exact MT.randbelow 1%positive (1 # 2) (- (1 # 4)) sample_world)
  = Ok ([rec_b0; rec_a1], [], [rec_a1; rec_b1; rec_a0]).
Proof. vm_compute. reflexivity. Qed.
